(** * Medflow backend: access control, relationship workflow and risk scoring

    A shallow embedding of the Express/Mongoose backend.

    - [Risk] embeds [services/riskCalculationService.js].  JavaScript numbers
      that come from the questionnaire (age, height, weight) are IEEE-754
      doubles and are modelled by Rocq's primitive binary64 floats, so that
      [calculateBMI] rounds exactly as the program does.  Scores are sums of
      small integer constants (exactly representable) and are kept in [Z].
    - [Backend] embeds the route handlers over an explicit persisted store
      (the MongoDB collections), each handler being a function
      [Store -> Response * Store]. *)

From Stdlib Require Import ZArith List String Bool Arith Lia Floats.
Import ListNotations.

(* ===================================================================== *)
(** * Risk scoring engine *)
(* ===================================================================== *)

Module Risk.

Local Open Scope string_scope.
Local Open Scope list_scope.
Local Open Scope Z_scope.

(** The questionnaire, typed as [models/HealthAssessment.js] declares it. *)
Record Assessment := {
  age : float;
  gender : string;
  height : float;
  weight : float;
  hasDiabetes : bool;
  hasHighBloodPressure : bool;
  hasHeartDisease : bool;
  hadStroke : bool;
  hasHighCholesterol : bool;
  smokingStatus : string;
  exerciseFrequency : string;
  alcoholConsumption : string;
  familyHeartDisease : bool;
  familyStroke : bool;
  familyDiabetes : bool;
  chestPain : bool;
  shortnessOfBreath : bool;
  dizziness : bool;
  fatigue : bool;
  numbness : bool
}.

(** The object [{ risk, score, factors }] every calculator returns. *)
Record Prediction := {
  risk : string;
  score : Z;
  factors : list string
}.

(** [x >= y] on JavaScript numbers (false as soon as one side is NaN). *)
Definition fge (x y : float) : bool := PrimFloat.leb y x.
Infix ">=?" := fge (at level 70) : float_scope.

(** [a === b] on strings. *)
Infix "===" := String.eqb (at level 70) : string_scope.

Definition calculateBMI (weight height : float) : float :=
  let heightInMeters := (height / 100)%float in
  (weight / (heightInMeters * heightInMeters))%float.

(** The two accumulators [score] and [factors] of a calculator, and the
    statement pair [score += pts; factors.push(msg)]. *)
Definition Acc : Type := Z * list string.

Definition hit (pts : Z) (msg : string) (st : Acc) : Acc :=
  (fst st + pts, snd st ++ [msg]).

Definition calculateStrokeRisk (a : Assessment) : Prediction :=
  let st : Acc := (0, []) in
  (* Age factor (heavily weighted) *)
  let st :=
    if (age a >=? 75)%float then
      hit 30 "Age 75+ significantly increases stroke risk" st
    else if (age a >=? 65)%float then
      hit 20 "Age 65-74 increases stroke risk" st
    else if (age a >=? 55)%float then
      hit 10 "Age 55+ moderately increases stroke risk" st
    else st in
  (* Medical history *)
  let st := if hasHighBloodPressure a
            then hit 25 "High blood pressure is a major stroke risk factor" st
            else st in
  let st := if hasDiabetes a
            then hit 15 "Diabetes increases stroke risk" st else st in
  let st := if hadStroke a
            then hit 35 "Previous stroke significantly increases risk of recurrence" st
            else st in
  let st := if hasHeartDisease a
            then hit 20 "Heart disease increases stroke risk" st else st in
  let st := if hasHighCholesterol a
            then hit 10 "High cholesterol contributes to stroke risk" st
            else st in
  (* Lifestyle factors *)
  let st :=
    if smokingStatus a === "Current" then
      hit 15 "Current smoking doubles stroke risk" st
    else if smokingStatus a === "Former" then
      hit 5 "Former smoking slightly increases risk" st
    else st in
  let st :=
    if (exerciseFrequency a === "Never") || (exerciseFrequency a === "Rarely")
    then hit 8 "Lack of exercise increases stroke risk" st else st in
  (* BMI factor *)
  let bmi := calculateBMI (weight a) (height a) in
  let st :=
    if (bmi >=? 30)%float then
      hit 12 "Obesity (BMI ≥30) increases stroke risk" st
    else if (bmi >=? 25)%float then
      hit 6 "Overweight (BMI 25-30) moderately increases risk" st
    else st in
  (* Family history *)
  let st := if familyStroke a
            then hit 10 "Family history of stroke increases risk" st else st in
  (* Current symptoms (immediate concern) *)
  let st := if numbness a || dizziness a
            then hit 15 "Current symptoms require immediate medical attention" st
            else st in
  (* Cap score at 100 *)
  let score := Z.min (fst st) 100 in
  (* Determine risk level *)
  let risk :=
    if score >=? 70 then "Very High"
    else if score >=? 50 then "High"
    else if score >=? 30 then "Moderate"
    else "Low" in
  let factors :=
    if (List.length (snd st) =? 0)%nat
    then snd st ++ ["No major risk factors identified. Maintain healthy lifestyle."]
    else snd st in
  {| risk := risk; score := score; factors := factors |}.

Definition calculateHeartDiseaseRisk (a : Assessment) : Prediction :=
  let st : Acc := (0, []) in
  (* Age factor *)
  let st :=
    if (age a >=? 65)%float then
      hit 25 "Age 65+ significantly increases heart disease risk" st
    else if (age a >=? 55)%float then
      hit 15 "Age 55+ increases heart disease risk" st
    else if (age a >=? 45)%float then
      hit 8 "Age 45+ moderately increases risk" st
    else st in
  (* Gender factor *)
  let st :=
    if (gender a === "Male") && (age a >=? 45)%float then
      hit 10 "Men over 45 have higher heart disease risk" st
    else if (gender a === "Female") && (age a >=? 55)%float then
      hit 10 "Women over 55 have increased heart disease risk" st
    else st in
  (* Medical history *)
  let st := if hasHeartDisease a
            then hit 40 "Existing heart disease requires ongoing management" st
            else st in
  let st := if hasHighBloodPressure a
            then hit 20 "High blood pressure damages arteries over time" st
            else st in
  let st := if hasHighCholesterol a
            then hit 18 "High cholesterol clogs arteries" st else st in
  let st := if hasDiabetes a
            then hit 20 "Diabetes significantly increases heart disease risk" st
            else st in
  (* Lifestyle factors *)
  let st :=
    if smokingStatus a === "Current" then
      hit 20 "Smoking is a leading cause of heart disease" st
    else if smokingStatus a === "Former" then
      hit 8 "Former smoking still poses some risk" st
    else st in
  let st :=
    if (exerciseFrequency a === "Never") || (exerciseFrequency a === "Rarely")
    then hit 10 "Physical inactivity weakens the heart" st else st in
  let st := if alcoholConsumption a === "Heavily"
            then hit 12 "Heavy alcohol use damages the heart" st else st in
  (* BMI factor *)
  let bmi := calculateBMI (weight a) (height a) in
  let st :=
    if (bmi >=? 30)%float then
      hit 15 "Obesity strains the cardiovascular system" st
    else if (bmi >=? 25)%float then
      hit 8 "Being overweight increases heart disease risk" st
    else st in
  (* Family history *)
  let st := if familyHeartDisease a
            then hit 12 "Family history of heart disease increases risk" st
            else st in
  (* Current symptoms *)
  let st := if chestPain a
            then hit 20 "Chest pain requires immediate medical evaluation" st
            else st in
  let st := if shortnessOfBreath a
            then hit 12 "Shortness of breath may indicate heart problems" st
            else st in
  (* Cap score at 100 *)
  let score := Z.min (fst st) 100 in
  (* Determine risk level *)
  let risk :=
    if score >=? 70 then "Very High"
    else if score >=? 50 then "High"
    else if score >=? 30 then "Moderate"
    else "Low" in
  let factors :=
    if (List.length (snd st) =? 0)%nat
    then snd st ++ ["No major risk factors identified. Keep up healthy habits."]
    else snd st in
  {| risk := risk; score := score; factors := factors |}.

Definition calculateDiabetesRisk (a : Assessment) : Prediction :=
  let st : Acc := (0, []) in
  (* Existing diabetes *)
  if hasDiabetes a then
    {| risk := "Very High";
       score := 100;
       factors := ["Already diagnosed with diabetes. Continue treatment and monitoring."] |}
  else
  (* Age factor *)
  let st := if (age a >=? 45)%float
            then hit 15 "Age 45+ increases diabetes risk" st else st in
  (* BMI is the strongest predictor *)
  let bmi := calculateBMI (weight a) (height a) in
  let st :=
    if (bmi >=? 35)%float then
      hit 30 "Severe obesity (BMI ≥35) greatly increases diabetes risk" st
    else if (bmi >=? 30)%float then
      hit 25 "Obesity (BMI 30-35) significantly increases diabetes risk" st
    else if (bmi >=? 25)%float then
      hit 15 "Being overweight (BMI 25-30) increases diabetes risk" st
    else st in
  (* Family history (strong genetic component) *)
  let st := if familyDiabetes a
            then hit 20 "Family history of diabetes increases risk significantly" st
            else st in
  (* Lifestyle factors *)
  let st :=
    if (exerciseFrequency a === "Never") || (exerciseFrequency a === "Rarely")
    then hit 12 "Physical inactivity increases diabetes risk" st else st in
  (* High blood pressure (often co-occurs) *)
  let st := if hasHighBloodPressure a
            then hit 10 "High blood pressure often accompanies diabetes" st
            else st in
  (* High cholesterol *)
  let st := if hasHighCholesterol a
            then hit 8 "High cholesterol increases diabetes risk" st else st in
  (* Symptoms *)
  let st := if fatigue a
            then hit 10 "Chronic fatigue may indicate blood sugar issues" st
            else st in
  (* Cap score at 100 *)
  let score := Z.min (fst st) 100 in
  (* Determine risk level *)
  let risk :=
    if score >=? 70 then "Very High"
    else if score >=? 50 then "High"
    else if score >=? 30 then "Moderate"
    else "Low" in
  let factors :=
    if (List.length (snd st) =? 0)%nat
    then snd st ++ ["Low risk. Maintain healthy weight and active lifestyle."]
    else snd st in
  {| risk := risk; score := score; factors := factors |}.

(** The object [{ stroke, heartDisease, diabetes }]. *)
Record Predictions := {
  stroke : Prediction;
  heartDisease : Prediction;
  diabetes : Prediction
}.

Definition calculateAllRisks (a : Assessment) : Predictions :=
  {| stroke := calculateStrokeRisk a;
     heartDisease := calculateHeartDiseaseRisk a;
     diabetes := calculateDiabetesRisk a |}.

(** The threshold table as the specification words it: a score of at least
    70 is "Very High", of at least 50 (and below 70) "High", of at least 30
    (and below 50) "Moderate", anything below 30 "Low". *)
Inductive level_of : Z -> string -> Prop :=
| level_very_high n : 70 <= n -> level_of n "Very High"
| level_high n : 50 <= n < 70 -> level_of n "High"
| level_moderate n : 30 <= n < 50 -> level_of n "Moderate"
| level_low n : n < 30 -> level_of n "Low".

(** A prediction within bounds whose level is the one its score maps to. *)
Definition bounded (p : Prediction) : Prop :=
  0 <= score p <= 100 /\ level_of (score p) (risk p).

(** The end-to-end questionnaire of the specification. *)
Definition patient70 : Assessment :=
  {| age := 70%float; gender := "Male"; height := 175%float; weight := 90%float;
     hasDiabetes := false; hasHighBloodPressure := true;
     hasHeartDisease := false; hadStroke := false; hasHighCholesterol := false;
     smokingStatus := "Current"; exerciseFrequency := "Never";
     alcoholConsumption := "Never";
     familyHeartDisease := false; familyStroke := false; familyDiabetes := false;
     chestPain := false; shortnessOfBreath := false; dizziness := false;
     fatigue := false; numbness := false |}.

(** The same questionnaire of a young patient already diagnosed with
    diabetes and with nothing else to report. *)
Definition diagnosed : Assessment :=
  {| age := 20%float; gender := "Female"; height := 170%float; weight := 60%float;
     hasDiabetes := true; hasHighBloodPressure := false;
     hasHeartDisease := false; hadStroke := false; hasHighCholesterol := false;
     smokingStatus := "Never"; exerciseFrequency := "Daily";
     alcoholConsumption := "Never";
     familyHeartDisease := false; familyStroke := false; familyDiabetes := false;
     chestPain := false; shortnessOfBreath := false; dizziness := false;
     fatigue := false; numbness := false |}.

(** Questionnaires of a forty-year-old non-smoker, 175 cm tall, that differ
    in medical history, exercise and weight only. *)
Definition sample (bp diab strk heart chol : bool) (exercise : string) (w : float)
  : Assessment :=
  {| age := 40%float; gender := "Female"; height := 175%float; weight := w;
     hasDiabetes := diab; hasHighBloodPressure := bp;
     hasHeartDisease := heart; hadStroke := strk; hasHighCholesterol := chol;
     smokingStatus := "Never"; exerciseFrequency := exercise;
     alcoholConsumption := "Never";
     familyHeartDisease := false; familyStroke := false; familyDiabetes := false;
     chestPain := false; shortnessOfBreath := false; dizziness := false;
     fatigue := false; numbness := false |}.

(** Six of them, whose stroke scores sit on both sides of each threshold:
    70, 69, 50, 49, 30 and 29. *)
Definition boundarySamples : list Assessment :=
  [ sample true false true false true "Daily" 70%float;
    sample false false true true false "Never" 80%float;
    sample false true true false false "Daily" 70%float;
    sample true false false false true "Never" 80%float;
    sample false false false true true "Daily" 70%float;
    sample false true false false false "Never" 80%float ].

End Risk.
(* ===================================================================== *)
(** * Persisted data model (the Mongoose schemas) *)
(* ===================================================================== *)

Module Backend.

Local Open Scope string_scope.
Local Open Scope list_scope.
Local Open Scope nat_scope.

Infix "===" := String.eqb (at level 70) : string_scope.

(** MongoDB object ids; a fresh one is drawn from the store's counter. *)
Definition ObjectId : Type := nat.

(** A stored Date: the time value, in epoch milliseconds, of a valid
    JavaScript Date. *)
Definition Date : Type := Z.

(** [enum: ['pending', 'accepted', 'rejected']] *)
Inductive Status : Type := pending | accepted | rejected.

Definition Status_eqb (a b : Status) : bool :=
  match a, b with
  | pending, pending | accepted, accepted | rejected, rejected => true
  | _, _ => false
  end.

Definition Status_toString (a : Status) : string :=
  match a with
  | pending => "pending"
  | accepted => "accepted"
  | rejected => "rejected"
  end.

(** Modelled from the spec: [models/User.js] is not part of the sources.  A
    user is an identity with a role drawn from Patient, Doctor,
    Reception Agent and Admin, and a display name (the handlers read
    [_id], [role], [name] and [familyName]). *)
Record User := {
  u_id : ObjectId;
  u_role : string;
  u_name : string;
  u_familyName : string
}.

(** [models/DoctorRequest.js] *)
Record DoctorRequest := {
  dr_id : ObjectId;
  dr_doctor : ObjectId;
  dr_patient : ObjectId;
  dr_status : Status
}.

(** [models/DoctorReceptionAgent.js] *)
Record DoctorReceptionAgent := {
  da_id : ObjectId;
  da_doctor : ObjectId;
  da_receptionAgent : ObjectId;
  da_status : Status
}.

(** [models/AppointmentInvitation.js] *)
Record AppointmentInvitation := {
  ai_id : ObjectId;
  ai_patient : ObjectId;
  ai_doctor : ObjectId;
  ai_appointmentDate : Date;
  ai_reason : string;
  ai_status : Status
}.

(** [models/MedicalRecord.js]: the five sub-document schemas.  The
    [createdAt] stamps are wall-clock time and are left out. *)
Record Appointment := {
  ap_id : ObjectId;
  ap_doctor : ObjectId;
  ap_date : Date;
  ap_reason : string;
  ap_notes : option string
}.

Record Prescription := {
  pr_id : ObjectId;
  pr_doctor : ObjectId;
  pr_medication : string;
  pr_dosage : string;
  pr_duration : option string;
  pr_instructions : option string
}.

Record Disease := {
  di_id : ObjectId;
  di_doctor : ObjectId;
  di_name : string;
  di_diagnosedDate : Date;
  di_status : string;
  di_notes : option string
}.

Record Comment := {
  co_id : ObjectId;
  co_doctor : ObjectId;
  co_text : string
}.

Record Diagnostic := {
  dg_id : ObjectId;
  dg_doctor : ObjectId;
  dg_testName : string;
  dg_testDate : Date;
  dg_results : string;
  dg_notes : option string
}.

Record MedicalRecord := {
  mr_id : ObjectId;
  mr_patient : ObjectId;
  appointments : list Appointment;
  prescriptions : list Prescription;
  diseases : list Disease;
  comments : list Comment;
  diagnostics : list Diagnostic
}.

(** Modelled from the spec: [models/Notification.js] is not part of the
    sources.  A notification has a recipient, a sender, a type tag, a title
    and a read flag; its message and link are display text and are left
    out. *)
Record Notification := {
  n_recipient : ObjectId;
  n_sender : ObjectId;
  n_type : string;
  n_title : string;
  n_read : bool
}.

(** The persisted state: one list per collection, in insertion order, and
    the source of fresh object ids. *)
Record Store := {
  users : list User;
  doctorRequests : list DoctorRequest;
  doctorReceptionAgents : list DoctorReceptionAgent;
  appointmentInvitations : list AppointmentInvitation;
  medicalRecords : list MedicalRecord;
  notifications : list Notification;
  nextId : ObjectId
}.

Definition emptyStore : Store :=
  {| users := []; doctorRequests := []; doctorReceptionAgents := [];
     appointmentInvitations := []; medicalRecords := []; notifications := [];
     nextId := 0 |}.

Definition set_users (v : list User) (s : Store) : Store :=
  {| users := v; doctorRequests := doctorRequests s;
     doctorReceptionAgents := doctorReceptionAgents s;
     appointmentInvitations := appointmentInvitations s;
     medicalRecords := medicalRecords s; notifications := notifications s;
     nextId := nextId s |}.

Definition set_doctorRequests (v : list DoctorRequest) (s : Store) : Store :=
  {| users := users s; doctorRequests := v;
     doctorReceptionAgents := doctorReceptionAgents s;
     appointmentInvitations := appointmentInvitations s;
     medicalRecords := medicalRecords s; notifications := notifications s;
     nextId := nextId s |}.

Definition set_doctorReceptionAgents (v : list DoctorReceptionAgent) (s : Store) : Store :=
  {| users := users s; doctorRequests := doctorRequests s;
     doctorReceptionAgents := v;
     appointmentInvitations := appointmentInvitations s;
     medicalRecords := medicalRecords s; notifications := notifications s;
     nextId := nextId s |}.

Definition set_appointmentInvitations (v : list AppointmentInvitation) (s : Store) : Store :=
  {| users := users s; doctorRequests := doctorRequests s;
     doctorReceptionAgents := doctorReceptionAgents s;
     appointmentInvitations := v;
     medicalRecords := medicalRecords s; notifications := notifications s;
     nextId := nextId s |}.

Definition set_medicalRecords (v : list MedicalRecord) (s : Store) : Store :=
  {| users := users s; doctorRequests := doctorRequests s;
     doctorReceptionAgents := doctorReceptionAgents s;
     appointmentInvitations := appointmentInvitations s;
     medicalRecords := v; notifications := notifications s;
     nextId := nextId s |}.

Definition set_notifications (v : list Notification) (s : Store) : Store :=
  {| users := users s; doctorRequests := doctorRequests s;
     doctorReceptionAgents := doctorReceptionAgents s;
     appointmentInvitations := appointmentInvitations s;
     medicalRecords := medicalRecords s; notifications := v;
     nextId := nextId s |}.

(** Drawing a fresh [_id] advances the counter. *)
Definition bump (s : Store) : Store :=
  {| users := users s; doctorRequests := doctorRequests s;
     doctorReceptionAgents := doctorReceptionAgents s;
     appointmentInvitations := appointmentInvitations s;
     medicalRecords := medicalRecords s; notifications := notifications s;
     nextId := S (nextId s) |}.

(** ** Collection primitives *)

(** [Model.findOne(filter)]: the first document, in natural order, that the
    filter accepts. *)
Definition findOne {A : Type} (filter : A -> bool) (coll : list A) : option A :=
  find filter coll.

(** [doc.save()] on a document that was loaded from the collection: the
    document with that [_id] is rewritten ([_id] is unique, so this is at
    most one document). *)
Definition saveDoc {A : Type} (id : A -> ObjectId) (doc : A) (coll : list A) : list A :=
  map (fun x => if id x =? id doc then doc else x) coll.

(** [array.id(i)]: the first sub-document with that [_id]. *)
Definition subdoc {A : Type} (id : A -> ObjectId) (i : ObjectId) (arr : list A) : option A :=
  find (fun x => id x =? i) arr.

(** Assigning to the fields of the sub-document [array.id(i)] returned. *)
Fixpoint assign {A : Type} (id : A -> ObjectId) (i : ObjectId) (e : A) (arr : list A) : list A :=
  match arr with
  | [] => []
  | x :: arr' => if id x =? i then e :: arr' else x :: assign id i e arr'
  end.

(** [subdoc.deleteOne()]: the sub-document is pulled from its array by
    [_id]. *)
Definition deleteOne {A : Type} (id : A -> ObjectId) (i : ObjectId) (arr : list A) : list A :=
  filter (fun x => negb (id x =? i)) arr.

(** [User.findById(id)] and [User.findOne({ _id, role })]. *)
Definition User_findById (i : ObjectId) (s : Store) : option User :=
  findOne (fun u => u_id u =? i) (users s).

Definition User_findOne_role (i : ObjectId) (r : string) (s : Store) : option User :=
  findOne (fun u => (u_id u =? i) && (u_role u === r)) (users s).

(** [new DoctorRequest(doc).save()]: the unique index on (doctor, patient)
    rejects a second document for the pair (the handler's [catch] then
    answers 500). *)
Definition DoctorRequest_insert (d : DoctorRequest) (s : Store) : option Store :=
  if existsb (fun x => (dr_doctor x =? dr_doctor d) && (dr_patient x =? dr_patient d))
       (doctorRequests s)
  then None
  else Some (set_doctorRequests (doctorRequests s ++ [d]) s).

Definition DoctorRequest_save (d : DoctorRequest) (s : Store) : Store :=
  set_doctorRequests (saveDoc dr_id d (doctorRequests s)) s.

(** [new DoctorReceptionAgent(doc).save()], unique on
    (doctor, receptionAgent). *)
Definition DoctorReceptionAgent_insert (d : DoctorReceptionAgent) (s : Store) : option Store :=
  if existsb (fun x => (da_doctor x =? da_doctor d)
                       && (da_receptionAgent x =? da_receptionAgent d))
       (doctorReceptionAgents s)
  then None
  else Some (set_doctorReceptionAgents (doctorReceptionAgents s ++ [d]) s).

Definition DoctorReceptionAgent_save (d : DoctorReceptionAgent) (s : Store) : Store :=
  set_doctorReceptionAgents (saveDoc da_id d (doctorReceptionAgents s)) s.

(** Appointment invitations carry no unique index. *)
Definition AppointmentInvitation_insert (d : AppointmentInvitation) (s : Store) : Store :=
  set_appointmentInvitations (appointmentInvitations s ++ [d]) s.

Definition AppointmentInvitation_save (d : AppointmentInvitation) (s : Store) : Store :=
  set_appointmentInvitations (saveDoc ai_id d (appointmentInvitations s)) s.

(** [medicalRecord.save()]: an insert for a document made with [new]
    ([isNew]), where the unique index on [patient] may reject it, and a
    rewrite of the stored document otherwise. *)
Definition MedicalRecord_save (isNew : bool) (m : MedicalRecord) (s : Store) : option Store :=
  if isNew then
    if existsb (fun x => mr_patient x =? mr_patient m) (medicalRecords s)
    then None
    else Some (set_medicalRecords (medicalRecords s ++ [m]) s)
  else Some (set_medicalRecords (saveDoc mr_id m (medicalRecords s)) s).

Definition MedicalRecord_findOne (patientId : ObjectId) (s : Store) : option MedicalRecord :=
  findOne (fun m => mr_patient m =? patientId) (medicalRecords s).

(** [new MedicalRecord({ patient })], with or without the five empty
    arrays spelled out. *)
Definition new_MedicalRecord (i patientId : ObjectId) : MedicalRecord :=
  {| mr_id := i; mr_patient := patientId; appointments := [];
     prescriptions := []; diseases := []; comments := []; diagnostics := [] |}.

Definition with_appointments (v : list Appointment) (m : MedicalRecord) : MedicalRecord :=
  {| mr_id := mr_id m; mr_patient := mr_patient m; appointments := v;
     prescriptions := prescriptions m; diseases := diseases m;
     comments := comments m; diagnostics := diagnostics m |}.

Definition with_prescriptions (v : list Prescription) (m : MedicalRecord) : MedicalRecord :=
  {| mr_id := mr_id m; mr_patient := mr_patient m; appointments := appointments m;
     prescriptions := v; diseases := diseases m;
     comments := comments m; diagnostics := diagnostics m |}.

Definition with_diseases (v : list Disease) (m : MedicalRecord) : MedicalRecord :=
  {| mr_id := mr_id m; mr_patient := mr_patient m; appointments := appointments m;
     prescriptions := prescriptions m; diseases := v;
     comments := comments m; diagnostics := diagnostics m |}.

Definition with_comments (v : list Comment) (m : MedicalRecord) : MedicalRecord :=
  {| mr_id := mr_id m; mr_patient := mr_patient m; appointments := appointments m;
     prescriptions := prescriptions m; diseases := diseases m;
     comments := v; diagnostics := diagnostics m |}.

Definition with_diagnostics (v : list Diagnostic) (m : MedicalRecord) : MedicalRecord :=
  {| mr_id := mr_id m; mr_patient := mr_patient m; appointments := appointments m;
     prescriptions := prescriptions m; diseases := diseases m;
     comments := comments m; diagnostics := v |}.

(** ** [services/notificationService.js] *)

Definition createNotification (recipient sender : ObjectId) (type title : string)
    (s : Store) : Store :=
  set_notifications
    (notifications s ++
     [{| n_recipient := recipient; n_sender := sender; n_type := type;
         n_title := title; n_read := false |}]) s.

Definition notifyDoctorRequest (doctorId patientId : ObjectId) : Store -> Store :=
  createNotification patientId doctorId "doctor_request" "New Doctor Access Request".

Definition notifyRequestAccepted (patientId doctorId : ObjectId) : Store -> Store :=
  createNotification doctorId patientId "request_accepted" "Access Request Accepted".

Definition notifyRequestRejected (patientId doctorId : ObjectId) : Store -> Store :=
  createNotification doctorId patientId "request_rejected" "Access Request Rejected".

Definition notifyMedicalRecordUpdate (doctorId patientId : ObjectId) (type : string)
  : Store -> Store :=
  createNotification patientId doctorId (type ++ "_added")%string "Medical Record Updated".

(* ===================================================================== *)
(** * Requests and responses *)
(* ===================================================================== *)

(** [req.user], the decoded bearer token. *)
Record Actor := {
  userId : ObjectId;
  role : string
}.

(** [res.status(code).json({ message, ... })].  The payload of a successful
    answer (the document sent back) is not kept; a handler that answers with
    a bare document has the empty message. *)
Record Response := {
  code : nat;
  message : string
}.

Definition res (c : nat) (m : string) : Response := {| code := c; message := m |}.

(** The [catch] clause of every handler. *)
Definition serverError : Response := res 500 "Server error".

(** Request bodies: a field that the client left out is [None]; a date
    arrives as a JSON number. *)
Record AppointmentBody := {
  b_date : option Z;
  b_reason : option string;
  b_notes : option string;
  b_doctorId : option ObjectId
}.

Record PrescriptionBody := {
  b_medication : option string;
  b_dosage : option string;
  b_duration : option string;
  b_instructions : option string
}.

Record DiseaseBody := {
  b_name : option string;
  b_diagnosedDate : option Z;
  b_status : option string;
  b_diseaseNotes : option string
}.

Record CommentBody := {
  b_text : option string
}.

Record DiagnosticBody := {
  b_testName : option string;
  b_testDate : option Z;
  b_results : option string;
  b_diagnosticNotes : option string
}.

(** JavaScript truthiness of a string and of a number. *)
Definition truthy (o : option string) : bool :=
  match o with
  | Some v => negb (v === "")
  | None => false
  end.

Definition truthyDate (o : option Z) : bool :=
  match o with
  | Some d => negb (d =? 0)%Z
  | None => false
  end.

(** A value handed to a [type: Date] path: a number taken from a request
    body, or the Date of a document that was loaded from the database. *)
Inductive DateValue : Type :=
| ofNumber (n : Z)
| ofDate (d : Date).

(** The largest time value of a JavaScript Date: [new Date(n)] is an Invalid
    Date for a number beyond 8.64e15 ms on either side of the epoch. *)
Definition maxTime : Z := 8640000000000000.

Definition validTime (n : Z) : bool :=
  ((- maxTime <=? n) && (n <=? maxTime))%Z.

(** The cast of a [type: Date] path: a number is cast by [new Date(n)] and
    refused when that is an Invalid Date ([None] is the CastError, which
    makes the [save()] that follows reject); a Date is taken as it is. *)
Definition castDate (v : DateValue) : option Date :=
  match v with
  | ofNumber n => if validTime n then Some n else None
  | ofDate d => Some d
  end.

(** [if (v) doc.field = v] and [if (v !== undefined) doc.field = v]. *)
Definition ifTruthy (v : option string) (old : string) : string :=
  match v with
  | Some x => if x === "" then old else x
  | None => old
  end.

(** [if (v) doc.date = v] on a Date path: the assignment casts, and a value
    that cannot be cast ([None]) invalidates the document. *)
Definition ifTruthyDate (v : option Z) (old : Date) : option Date :=
  match v with
  | Some n => if (n =? 0)%Z then Some old else castDate (ofNumber n)
  | None => Some old
  end.

Definition ifDefined (v old : option string) : option string :=
  match v with
  | Some x => Some x
  | None => old
  end.

(** Schema validation run by [save()]: [required: true] on a String path
    rejects a missing or empty value, on a Date path a missing one or one
    that could not be cast. *)
Definition requiredString (v : option string) : option string :=
  match v with
  | Some x => if x === "" then None else Some x
  | None => None
  end.

Definition requiredDate (v : option DateValue) : option Date :=
  match v with
  | Some x => castDate x
  | None => None
  end.

(** [enum: ['active', 'resolved', 'chronic']] on the disease status. *)
Definition diseaseStatusValid (v : string) : bool :=
  (v === "active") || (v === "resolved") || (v === "chronic").

(** The sub-document built by [array.push({ ... })] and validated by the
    [save()] that follows; [None] is the ValidationError. *)
Definition new_Appointment (i doctor : ObjectId) (date : option DateValue)
    (reason notes : option string) : option Appointment :=
  match requiredDate date, requiredString reason with
  | Some d, Some r =>
      Some {| ap_id := i; ap_doctor := doctor; ap_date := d; ap_reason := r;
              ap_notes := notes |}
  | _, _ => None
  end.

Definition new_Prescription (i doctor : ObjectId)
    (medication dosage duration instructions : option string) : option Prescription :=
  match requiredString medication, requiredString dosage with
  | Some m, Some d =>
      Some {| pr_id := i; pr_doctor := doctor; pr_medication := m; pr_dosage := d;
              pr_duration := duration; pr_instructions := instructions |}
  | _, _ => None
  end.

Definition new_Disease (i doctor : ObjectId) (name : option string)
    (diagnosedDate : option DateValue) (status notes : option string) : option Disease :=
  match requiredString name, requiredDate diagnosedDate with
  | Some n, Some d =>
      let st := match status with Some v => v | None => "active" end in
      if diseaseStatusValid st then
        Some {| di_id := i; di_doctor := doctor; di_name := n; di_diagnosedDate := d;
                di_status := st; di_notes := notes |}
      else None
  | _, _ => None
  end.

Definition new_Comment (i doctor : ObjectId) (text : option string) : option Comment :=
  match requiredString text with
  | Some t => Some {| co_id := i; co_doctor := doctor; co_text := t |}
  | None => None
  end.

Definition new_Diagnostic (i doctor : ObjectId) (testName : option string)
    (testDate : option DateValue) (results notes : option string) : option Diagnostic :=
  match requiredString testName, requiredDate testDate, requiredString results with
  | Some n, Some d, Some r =>
      Some {| dg_id := i; dg_doctor := doctor; dg_testName := n; dg_testDate := d;
              dg_results := r; dg_notes := notes |}
  | _, _, _ => None
  end.

(** [new AppointmentInvitation({ patient, doctor, appointmentDate, reason })]
    as the [save()] that follows validates it; the status defaults to
    pending. *)
Definition new_AppointmentInvitation (i patientId doctor : ObjectId)
    (appointmentDate : option DateValue) (reason : option string)
  : option AppointmentInvitation :=
  match requiredDate appointmentDate, requiredString reason with
  | Some d, Some r =>
      Some {| ai_id := i; ai_patient := patientId; ai_doctor := doctor;
              ai_appointmentDate := d; ai_reason := r; ai_status := pending |}
  | _, _ => None
  end.

(** The two relationship queries the handlers repeat. *)
Definition acceptedRequest (doctor patientId : ObjectId) (s : Store) : option DoctorRequest :=
  findOne (fun r => (dr_doctor r =? doctor) && (dr_patient r =? patientId)
                    && Status_eqb (dr_status r) accepted)
          (doctorRequests s).

Definition acceptedInvitation (agent doctor : ObjectId) (s : Store)
  : option DoctorReceptionAgent :=
  findOne (fun i => (da_receptionAgent i =? agent) && (da_doctor i =? doctor)
                    && Status_eqb (da_status i) accepted)
          (doctorReceptionAgents s).

(* ===================================================================== *)
(** * [routes/medicalRecords.js] *)
(* ===================================================================== *)

(** The tail shared by every mutation: [save()], then the author's display
    name is read for the notification (a missing user makes the property
    access throw after the save went through), then the patient is
    notified. *)
Definition saveAndNotify (isNew : bool) (medicalRecord : MedicalRecord)
    (doctorId patientId : ObjectId) (type : string) (ok : Response)
    (s0 s : Store) : Response * Store :=
  match MedicalRecord_save isNew medicalRecord s with
  | None => (serverError, s0)
  | Some s1 =>
      match User_findById doctorId s1 with
      | None => (serverError, s1)
      | Some doctor => (ok, notifyMedicalRecordUpdate doctorId patientId type s1)
      end
  end.

(** [findOne({ patient })] followed by [new MedicalRecord({ patient })] when
    there is none: the document, whether it is new, and the store after the
    fresh [_id] was drawn. *)
Definition findOrNew (patientId : ObjectId) (s : Store) : MedicalRecord * bool * Store :=
  match MedicalRecord_findOne patientId s with
  | Some m => (m, false, s)
  | None => (new_MedicalRecord (nextId s) patientId, true, bump s)
  end.

(** GET /:patientId *)
Definition GET_medicalRecord (user : Actor) (patientId : ObjectId) (s : Store)
  : Response * Store :=
  let denied : option Response :=
    if role user === "Patient" then
      if negb (patientId =? userId user) then Some (res 403 "Access denied") else None
    else if role user === "Doctor" then
      match acceptedRequest (userId user) patientId s with
      | None => Some (res 403 "Access denied. Patient has not accepted your request.")
      | Some _ => None
      end
    else if role user === "Reception Agent" then
      let acceptedInvitations :=
        filter (fun i => (da_receptionAgent i =? userId user)
                         && Status_eqb (da_status i) accepted)
               (doctorReceptionAgents s) in
      let doctorIds := map da_doctor acceptedInvitations in
      match findOne (fun r => existsb (Nat.eqb (dr_doctor r)) doctorIds
                              && (dr_patient r =? patientId)
                              && Status_eqb (dr_status r) accepted)
                    (doctorRequests s) with
      | None => Some (res 403 "Access denied. This patient is not under any of your doctors.")
      | Some _ => None
      end
    else Some (res 403 "Access denied") in
  match denied with
  | Some r => (r, s)
  | None =>
      match MedicalRecord_findOne patientId s with
      | Some medicalRecord => (res 200 "", s)
      | None =>
          (* Create empty record if it doesn't exist *)
          match MedicalRecord_save true (new_MedicalRecord (nextId s) patientId) (bump s) with
          | None => (serverError, s)
          | Some s1 => (res 200 "", s1)
          end
      end
  end.

(** POST /:patientId/appointment *)
Definition POST_appointment (user : Actor) (patientId : ObjectId)
    (body : AppointmentBody) (s : Store) : Response * Store :=
  if negb (role user === "Doctor") && negb (role user === "Reception Agent") then
    (res 403 "Only doctors and reception agents can add appointments", s)
  else
    let gate : Response + ObjectId :=
      (* If reception agent, they must specify which doctor this appointment is for *)
      if role user === "Reception Agent" then
        match b_doctorId body with
        | None => inl (res 400 "Doctor ID is required for reception agents")
        | Some doctorId =>
            (* Verify reception agent has access through this doctor *)
            match acceptedInvitation (userId user) doctorId s with
            | None => inl (res 403 "You do not have access through this doctor")
            | Some _ =>
                (* Verify doctor has access to patient *)
                match acceptedRequest doctorId patientId s with
                | None => inl (res 403 "This doctor does not have access to this patient")
                | Some _ => inr doctorId
                end
            end
        end
      else
        (* Verify doctor has access *)
        match acceptedRequest (userId user) patientId s with
        | None => inl (res 403 "Access denied")
        | Some _ => inr (userId user)
        end in
    match gate with
    | inl r => (r, s)
    | inr assignedDoctorId =>
        let '(medicalRecord, isNew, s1) := findOrNew patientId s in
        match new_Appointment (nextId s1) assignedDoctorId
                (option_map ofNumber (b_date body)) (b_reason body) (b_notes body) with
        | None => (serverError, s)
        | Some appointment =>
            saveAndNotify isNew
              (with_appointments (appointments medicalRecord ++ [appointment]) medicalRecord)
              assignedDoctorId patientId "appointment"
              (res 201 "Appointment added successfully") s (bump s1)
        end
    end.

(** PUT /:patientId/appointment/:appointmentId *)
Definition PUT_appointment (user : Actor) (patientId appointmentId : ObjectId)
    (body : AppointmentBody) (s : Store) : Response * Store :=
  if negb (role user === "Doctor") && negb (role user === "Reception Agent") then
    (res 403 "Only doctors and reception agents can update appointments", s)
  else
    match MedicalRecord_findOne patientId s with
    | None => (res 404 "Medical record not found", s)
    | Some medicalRecord =>
        match subdoc ap_id appointmentId (appointments medicalRecord) with
        | None => (res 404 "Appointment not found", s)
        | Some appointment =>
            (* Check permissions *)
            let denied : option Response :=
              if role user === "Doctor" then
                (* Doctors can only modify their own appointments *)
                if negb (ap_doctor appointment =? userId user)
                then Some (res 403 "You can only modify your own appointments")
                else None
              else if role user === "Reception Agent" then
                (* Reception agents can modify appointments for their doctors' patients *)
                match acceptedInvitation (userId user) (ap_doctor appointment) s with
                | None => Some (res 403 "You can only modify appointments for your assigned doctors")
                | Some _ => None
                end
              else None in
            match denied with
            | Some r => (r, s)
            | None =>
                match ifTruthyDate (b_date body) (ap_date appointment) with
                | None => (serverError, s)
                | Some date =>
                    let appointment' :=
                      {| ap_id := ap_id appointment; ap_doctor := ap_doctor appointment;
                         ap_date := date;
                         ap_reason := ifTruthy (b_reason body) (ap_reason appointment);
                         ap_notes := ifDefined (b_notes body) (ap_notes appointment) |} in
                    saveAndNotify false
                      (with_appointments
                         (assign ap_id appointmentId appointment'
                            (appointments medicalRecord))
                         medicalRecord)
                      (ap_doctor appointment) patientId "appointment"
                      (res 200 "Appointment updated successfully") s s
                end
            end
        end
    end.

(** DELETE /:patientId/appointment/:appointmentId *)
Definition DELETE_appointment (user : Actor) (patientId appointmentId : ObjectId)
    (s : Store) : Response * Store :=
  if negb (role user === "Doctor") && negb (role user === "Reception Agent") then
    (res 403 "Only doctors and reception agents can delete appointments", s)
  else
    match MedicalRecord_findOne patientId s with
    | None => (res 404 "Medical record not found", s)
    | Some medicalRecord =>
        match subdoc ap_id appointmentId (appointments medicalRecord) with
        | None => (res 404 "Appointment not found", s)
        | Some appointment =>
            (* Check permissions *)
            let denied : option Response :=
              if role user === "Doctor" then
                (* Doctors can only delete their own appointments *)
                if negb (ap_doctor appointment =? userId user)
                then Some (res 403 "You can only delete your own appointments")
                else None
              else if role user === "Reception Agent" then
                (* Reception agents can delete appointments for their doctors' patients *)
                match acceptedInvitation (userId user) (ap_doctor appointment) s with
                | None => Some (res 403 "You can only delete appointments for your assigned doctors")
                | Some _ => None
                end
              else None in
            match denied with
            | Some r => (r, s)
            | None =>
                let doctorId := ap_doctor appointment in
                saveAndNotify false
                  (with_appointments
                     (deleteOne ap_id (ap_id appointment) (appointments medicalRecord))
                     medicalRecord)
                  doctorId patientId "appointment"
                  (res 200 "Appointment deleted successfully") s s
            end
        end
    end.

(** POST /:patientId/prescription *)
Definition POST_prescription (user : Actor) (patientId : ObjectId)
    (body : PrescriptionBody) (s : Store) : Response * Store :=
  if negb (role user === "Doctor") then
    (res 403 "Only doctors can add prescriptions", s)
  else
    match acceptedRequest (userId user) patientId s with
    | None => (res 403 "Access denied", s)
    | Some _ =>
        let '(medicalRecord, isNew, s1) := findOrNew patientId s in
        match new_Prescription (nextId s1) (userId user)
              (b_medication body) (b_dosage body) (b_duration body) (b_instructions body) with
        | None => (serverError, s)
        | Some prescription =>
            saveAndNotify isNew
              (with_prescriptions (prescriptions medicalRecord ++ [prescription]) medicalRecord)
              (userId user) patientId "prescription"
              (res 201 "Prescription added successfully") s (bump s1)
        end
    end.

(** PUT /:patientId/prescription/:prescriptionId *)
Definition PUT_prescription (user : Actor) (patientId prescriptionId : ObjectId)
    (body : PrescriptionBody) (s : Store) : Response * Store :=
  if negb (role user === "Doctor") then
    (res 403 "Only doctors can update prescriptions", s)
  else
    match MedicalRecord_findOne patientId s with
    | None => (res 404 "Medical record not found", s)
    | Some medicalRecord =>
        match subdoc pr_id prescriptionId (prescriptions medicalRecord) with
        | None => (res 404 "Prescription not found", s)
        | Some prescription =>
            if negb (pr_doctor prescription =? userId user) then
              (res 403 "You can only modify your own prescriptions", s)
            else
            let prescription' :=
              {| pr_id := pr_id prescription; pr_doctor := pr_doctor prescription;
               pr_medication := ifTruthy (b_medication body) (pr_medication prescription);
               pr_dosage := ifTruthy (b_dosage body) (pr_dosage prescription);
               pr_duration := ifDefined (b_duration body) (pr_duration prescription);
               pr_instructions :=
                 ifDefined (b_instructions body) (pr_instructions prescription) |} in
            saveAndNotify false
              (with_prescriptions (assign pr_id prescriptionId prescription' (prescriptions medicalRecord)) medicalRecord)
              (userId user) patientId "prescription"
              (res 200 "Prescription updated successfully") s s
        end
    end.

(** DELETE /:patientId/prescription/:prescriptionId *)
Definition DELETE_prescription (user : Actor) (patientId prescriptionId : ObjectId)
    (s : Store) : Response * Store :=
  if negb (role user === "Doctor") then
    (res 403 "Only doctors can delete prescriptions", s)
  else
    match MedicalRecord_findOne patientId s with
    | None => (res 404 "Medical record not found", s)
    | Some medicalRecord =>
        match subdoc pr_id prescriptionId (prescriptions medicalRecord) with
        | None => (res 404 "Prescription not found", s)
        | Some prescription =>
            if negb (pr_doctor prescription =? userId user) then
              (res 403 "You can only delete your own prescriptions", s)
            else
            saveAndNotify false
              (with_prescriptions (deleteOne pr_id (pr_id prescription) (prescriptions medicalRecord)) medicalRecord)
              (userId user) patientId "prescription"
              (res 200 "Prescription deleted successfully") s s
        end
    end.

(** POST /:patientId/disease *)
Definition POST_disease (user : Actor) (patientId : ObjectId)
    (body : DiseaseBody) (s : Store) : Response * Store :=
  if negb (role user === "Doctor") then
    (res 403 "Only doctors can add diseases", s)
  else
    match acceptedRequest (userId user) patientId s with
    | None => (res 403 "Access denied", s)
    | Some _ =>
        let '(medicalRecord, isNew, s1) := findOrNew patientId s in
        match new_Disease (nextId s1) (userId user)
              (b_name body) (option_map ofNumber (b_diagnosedDate body))
              (b_status body) (b_diseaseNotes body) with
        | None => (serverError, s)
        | Some disease =>
            saveAndNotify isNew
              (with_diseases (diseases medicalRecord ++ [disease]) medicalRecord)
              (userId user) patientId "disease"
              (res 201 "Disease added successfully") s (bump s1)
        end
    end.

(** PUT /:patientId/disease/:diseaseId *)
Definition PUT_disease (user : Actor) (patientId diseaseId : ObjectId)
    (body : DiseaseBody) (s : Store) : Response * Store :=
  if negb (role user === "Doctor") then
    (res 403 "Only doctors can update diseases", s)
  else
    match MedicalRecord_findOne patientId s with
    | None => (res 404 "Medical record not found", s)
    | Some medicalRecord =>
        match subdoc di_id diseaseId (diseases medicalRecord) with
        | None => (res 404 "Disease not found", s)
        | Some disease =>
            if negb (di_doctor disease =? userId user) then
              (res 403 "You can only modify your own disease entries", s)
            else
            match ifTruthyDate (b_diagnosedDate body) (di_diagnosedDate disease) with
            | None => (serverError, s)
            | Some diagnosedDate =>
                let disease' :=
                  {| di_id := di_id disease; di_doctor := di_doctor disease;
                     di_name := ifTruthy (b_name body) (di_name disease);
                     di_diagnosedDate := diagnosedDate;
                     di_status := ifTruthy (b_status body) (di_status disease);
                     di_notes := ifDefined (b_diseaseNotes body) (di_notes disease) |} in
                if negb (diseaseStatusValid (di_status disease')) then (serverError, s)
                else
                saveAndNotify false
                  (with_diseases (assign di_id diseaseId disease' (diseases medicalRecord))
                     medicalRecord)
                  (userId user) patientId "disease"
                  (res 200 "Disease updated successfully") s s
            end
        end
    end.

(** DELETE /:patientId/disease/:diseaseId *)
Definition DELETE_disease (user : Actor) (patientId diseaseId : ObjectId)
    (s : Store) : Response * Store :=
  if negb (role user === "Doctor") then
    (res 403 "Only doctors can delete diseases", s)
  else
    match MedicalRecord_findOne patientId s with
    | None => (res 404 "Medical record not found", s)
    | Some medicalRecord =>
        match subdoc di_id diseaseId (diseases medicalRecord) with
        | None => (res 404 "Disease not found", s)
        | Some disease =>
            if negb (di_doctor disease =? userId user) then
              (res 403 "You can only delete your own disease entries", s)
            else
            saveAndNotify false
              (with_diseases (deleteOne di_id (di_id disease) (diseases medicalRecord)) medicalRecord)
              (userId user) patientId "disease"
              (res 200 "Disease deleted successfully") s s
        end
    end.

(** POST /:patientId/comment *)
Definition POST_comment (user : Actor) (patientId : ObjectId)
    (body : CommentBody) (s : Store) : Response * Store :=
  if negb (role user === "Doctor") then
    (res 403 "Only doctors can add comments", s)
  else
    match acceptedRequest (userId user) patientId s with
    | None => (res 403 "Access denied", s)
    | Some _ =>
        let '(medicalRecord, isNew, s1) := findOrNew patientId s in
        match new_Comment (nextId s1) (userId user) (b_text body) with
        | None => (serverError, s)
        | Some comment =>
            saveAndNotify isNew
              (with_comments (comments medicalRecord ++ [comment]) medicalRecord)
              (userId user) patientId "comment"
              (res 201 "Comment added successfully") s (bump s1)
        end
    end.

(** PUT /:patientId/comment/:commentId *)
Definition PUT_comment (user : Actor) (patientId commentId : ObjectId)
    (body : CommentBody) (s : Store) : Response * Store :=
  if negb (role user === "Doctor") then
    (res 403 "Only doctors can update comments", s)
  else
    match MedicalRecord_findOne patientId s with
    | None => (res 404 "Medical record not found", s)
    | Some medicalRecord =>
        match subdoc co_id commentId (comments medicalRecord) with
        | None => (res 404 "Comment not found", s)
        | Some comment =>
            if negb (co_doctor comment =? userId user) then
              (res 403 "You can only modify your own comments", s)
            else
            let comment' :=
              {| co_id := co_id comment; co_doctor := co_doctor comment;
               co_text := ifTruthy (b_text body) (co_text comment) |} in
            saveAndNotify false
              (with_comments (assign co_id commentId comment' (comments medicalRecord)) medicalRecord)
              (userId user) patientId "comment"
              (res 200 "Comment updated successfully") s s
        end
    end.

(** DELETE /:patientId/comment/:commentId *)
Definition DELETE_comment (user : Actor) (patientId commentId : ObjectId)
    (s : Store) : Response * Store :=
  if negb (role user === "Doctor") then
    (res 403 "Only doctors can delete comments", s)
  else
    match MedicalRecord_findOne patientId s with
    | None => (res 404 "Medical record not found", s)
    | Some medicalRecord =>
        match subdoc co_id commentId (comments medicalRecord) with
        | None => (res 404 "Comment not found", s)
        | Some comment =>
            if negb (co_doctor comment =? userId user) then
              (res 403 "You can only delete your own comments", s)
            else
            saveAndNotify false
              (with_comments (deleteOne co_id (co_id comment) (comments medicalRecord)) medicalRecord)
              (userId user) patientId "comment"
              (res 200 "Comment deleted successfully") s s
        end
    end.

(** POST /:patientId/diagnostic *)
Definition POST_diagnostic (user : Actor) (patientId : ObjectId)
    (body : DiagnosticBody) (s : Store) : Response * Store :=
  if negb (role user === "Doctor") then
    (res 403 "Only doctors can add diagnostics", s)
  else
    match acceptedRequest (userId user) patientId s with
    | None => (res 403 "Access denied", s)
    | Some _ =>
        let '(medicalRecord, isNew, s1) := findOrNew patientId s in
        match new_Diagnostic (nextId s1) (userId user)
              (b_testName body) (option_map ofNumber (b_testDate body))
              (b_results body) (b_diagnosticNotes body) with
        | None => (serverError, s)
        | Some diagnostic =>
            saveAndNotify isNew
              (with_diagnostics (diagnostics medicalRecord ++ [diagnostic]) medicalRecord)
              (userId user) patientId "diagnostic"
              (res 201 "Diagnostic added successfully") s (bump s1)
        end
    end.

(** PUT /:patientId/diagnostic/:diagnosticId *)
Definition PUT_diagnostic (user : Actor) (patientId diagnosticId : ObjectId)
    (body : DiagnosticBody) (s : Store) : Response * Store :=
  if negb (role user === "Doctor") then
    (res 403 "Only doctors can update diagnostics", s)
  else
    match MedicalRecord_findOne patientId s with
    | None => (res 404 "Medical record not found", s)
    | Some medicalRecord =>
        match subdoc dg_id diagnosticId (diagnostics medicalRecord) with
        | None => (res 404 "Diagnostic not found", s)
        | Some diagnostic =>
            if negb (dg_doctor diagnostic =? userId user) then
              (res 403 "You can only modify your own diagnostic entries", s)
            else
            match ifTruthyDate (b_testDate body) (dg_testDate diagnostic) with
            | None => (serverError, s)
            | Some testDate =>
                let diagnostic' :=
                  {| dg_id := dg_id diagnostic; dg_doctor := dg_doctor diagnostic;
                     dg_testName := ifTruthy (b_testName body) (dg_testName diagnostic);
                     dg_testDate := testDate;
                     dg_results := ifTruthy (b_results body) (dg_results diagnostic);
                     dg_notes := ifDefined (b_diagnosticNotes body) (dg_notes diagnostic) |} in
                saveAndNotify false
                  (with_diagnostics
                     (assign dg_id diagnosticId diagnostic' (diagnostics medicalRecord))
                     medicalRecord)
                  (userId user) patientId "diagnostic"
                  (res 200 "Diagnostic updated successfully") s s
            end
        end
    end.

(** DELETE /:patientId/diagnostic/:diagnosticId *)
Definition DELETE_diagnostic (user : Actor) (patientId diagnosticId : ObjectId)
    (s : Store) : Response * Store :=
  if negb (role user === "Doctor") then
    (res 403 "Only doctors can delete diagnostics", s)
  else
    match MedicalRecord_findOne patientId s with
    | None => (res 404 "Medical record not found", s)
    | Some medicalRecord =>
        match subdoc dg_id diagnosticId (diagnostics medicalRecord) with
        | None => (res 404 "Diagnostic not found", s)
        | Some diagnostic =>
            if negb (dg_doctor diagnostic =? userId user) then
              (res 403 "You can only delete your own diagnostic entries", s)
            else
            saveAndNotify false
              (with_diagnostics (deleteOne dg_id (dg_id diagnostic) (diagnostics medicalRecord)) medicalRecord)
              (userId user) patientId "diagnostic"
              (res 200 "Diagnostic deleted successfully") s s
        end
    end.

(* ===================================================================== *)
(** * [routes/doctor.js]: doctor-patient access requests *)
(* ===================================================================== *)

Definition with_dr_status (st : Status) (d : DoctorRequest) : DoctorRequest :=
  {| dr_id := dr_id d; dr_doctor := dr_doctor d; dr_patient := dr_patient d;
     dr_status := st |}.

Definition with_da_status (st : Status) (d : DoctorReceptionAgent) : DoctorReceptionAgent :=
  {| da_id := da_id d; da_doctor := da_doctor d;
     da_receptionAgent := da_receptionAgent d; da_status := st |}.

Definition with_ai_status (st : Status) (d : AppointmentInvitation) : AppointmentInvitation :=
  {| ai_id := ai_id d; ai_patient := ai_patient d; ai_doctor := ai_doctor d;
     ai_appointmentDate := ai_appointmentDate d; ai_reason := ai_reason d;
     ai_status := st |}.

(** [['accepted', 'rejected'].includes(status)] and the value then stored. *)
Definition isDecision (status : string) : bool :=
  (status === "accepted") || (status === "rejected").

Definition decision (status : string) : Status :=
  if status === "accepted" then accepted else rejected.

(** POST /request/send *)
Definition POST_request_send (user : Actor) (patientId : option ObjectId) (s : Store)
  : Response * Store :=
  if negb (role user === "Doctor") then
    (res 403 "Access denied. Doctor role required.", s)
  else
    match patientId with
    | None => (res 400 "Patient ID is required", s)
    | Some patientId =>
        (* Check if patient exists *)
        match User_findOne_role patientId "Patient" s with
        | None => (res 404 "Patient not found", s)
        | Some patient =>
            (* Check if request already exists *)
            match findOne (fun r => (dr_doctor r =? userId user)
                                    && (dr_patient r =? patientId))
                          (doctorRequests s) with
            | Some existingRequest =>
                (* Allow resending if rejected *)
                if Status_eqb (dr_status existingRequest) rejected then
                  let s1 := DoctorRequest_save (with_dr_status pending existingRequest) s in
                  match User_findById (userId user) s1 with
                  | None => (serverError, s1)
                  | Some doctor =>
                      (res 200 "Request resent successfully",
                       notifyDoctorRequest (userId user) patientId s1)
                  end
                else
                  (res 400 ("Request already "
                            ++ Status_toString (dr_status existingRequest))%string, s)
            | None =>
                (* Create new request *)
                match DoctorRequest_insert
                        {| dr_id := nextId s; dr_doctor := userId user;
                           dr_patient := patientId; dr_status := pending |}
                        (bump s) with
                | None => (serverError, s)
                | Some s1 =>
                    match User_findById (userId user) s1 with
                    | None => (serverError, s1)
                    | Some doctor =>
                        (res 201 "Request sent successfully",
                         notifyDoctorRequest (userId user) patientId s1)
                    end
                end
            end
        end
    end.

(** PUT /request/:requestId *)
Definition PUT_request (user : Actor) (requestId : ObjectId) (status : string) (s : Store)
  : Response * Store :=
  if negb (role user === "Patient") then
    (res 403 "Only patients can respond to requests", s)
  else if negb (isDecision status) then
    (res 400 "Invalid status", s)
  else
    match findOne (fun r => (dr_id r =? requestId) && (dr_patient r =? userId user)
                            && Status_eqb (dr_status r) pending)
                  (doctorRequests s) with
    | None => (res 404 "Request not found or already processed", s)
    | Some doctorRequest =>
        let doctorRequest := with_dr_status (decision status) doctorRequest in
        let s1 := DoctorRequest_save doctorRequest s in
        (* Get patient info and send notification to doctor *)
        match User_findById (userId user) s1 with
        | None => (serverError, s1)
        | Some patient =>
            let ok := res 200 ("Request " ++ status ++ " successfully")%string in
            if status === "accepted" then
              let s2 := notifyRequestAccepted (userId user) (dr_doctor doctorRequest) s1 in
              (* Ensure medical record exists *)
              match MedicalRecord_findOne (userId user) s2 with
              | Some medicalRecord => (ok, s2)
              | None =>
                  match MedicalRecord_save true
                          (new_MedicalRecord (nextId s2) (userId user)) (bump s2) with
                  | None => (serverError, s2)
                  | Some s3 => (ok, s3)
                  end
              end
            else if status === "rejected" then
              (ok, notifyRequestRejected (userId user) (dr_doctor doctorRequest) s1)
            else (ok, s1)
        end
    end.

(* ===================================================================== *)
(** * [routes/receptionAgents.js]: doctor-agent delegation *)
(* ===================================================================== *)

(** POST /invite *)
Definition POST_invite (user : Actor) (receptionAgentId : option ObjectId) (s : Store)
  : Response * Store :=
  if negb (role user === "Doctor") then
    (res 403 "Access denied. Doctor role required.", s)
  else
    match receptionAgentId with
    | None => (res 400 "Reception Agent ID is required", s)
    | Some receptionAgentId =>
        (* Check if reception agent exists *)
        match User_findOne_role receptionAgentId "Reception Agent" s with
        | None => (res 404 "Reception Agent not found", s)
        | Some receptionAgent =>
            (* Check if invitation already exists *)
            match findOne (fun i => (da_doctor i =? userId user)
                                    && (da_receptionAgent i =? receptionAgentId))
                          (doctorReceptionAgents s) with
            | Some existingInvitation =>
                (* Allow resending if rejected *)
                if Status_eqb (da_status existingInvitation) rejected then
                  let s1 := DoctorReceptionAgent_save
                              (with_da_status pending existingInvitation) s in
                  match User_findById (userId user) s1 with
                  | None => (serverError, s1)
                  | Some doctor =>
                      (res 200 "Invitation resent successfully",
                       createNotification receptionAgentId (userId user)
                         "doctor_request" "New Doctor Invitation" s1)
                  end
                else
                  (res 400 ("Invitation already "
                            ++ Status_toString (da_status existingInvitation))%string, s)
            | None =>
                (* Create new invitation *)
                match DoctorReceptionAgent_insert
                        {| da_id := nextId s; da_doctor := userId user;
                           da_receptionAgent := receptionAgentId; da_status := pending |}
                        (bump s) with
                | None => (serverError, s)
                | Some s1 =>
                    match User_findById (userId user) s1 with
                    | None => (serverError, s1)
                    | Some doctor =>
                        (res 201 "Invitation sent successfully",
                         createNotification receptionAgentId (userId user)
                           "doctor_request" "New Doctor Invitation" s1)
                    end
                end
            end
        end
    end.

(** PUT /invitation/:invitationId *)
Definition PUT_invitation (user : Actor) (invitationId : ObjectId) (status : string)
    (s : Store) : Response * Store :=
  if negb (role user === "Reception Agent") then
    (res 403 "Access denied. Reception Agent role required.", s)
  else if negb (isDecision status) then
    (res 400 "Invalid status", s)
  else
    match findOne (fun i => (da_id i =? invitationId)
                            && (da_receptionAgent i =? userId user)
                            && Status_eqb (da_status i) pending)
                  (doctorReceptionAgents s) with
    | None => (res 404 "Invitation not found or already processed", s)
    | Some invitation =>
        let invitation := with_da_status (decision status) invitation in
        let s1 := DoctorReceptionAgent_save invitation s in
        (* Send notification to doctor *)
        match User_findById (userId user) s1 with
        | None => (serverError, s1)
        | Some receptionAgent =>
            let ok := res 200 ("Invitation " ++ status ++ " successfully")%string in
            if status === "accepted" then
              (ok, createNotification (da_doctor invitation) (userId user)
                     "request_accepted" "Invitation Accepted" s1)
            else if status === "rejected" then
              (ok, createNotification (da_doctor invitation) (userId user)
                     "request_rejected" "Invitation Rejected" s1)
            else (ok, s1)
        end
    end.

(** [findOneAndDelete(filter)]: the first matching document is removed. *)
Fixpoint findOneAndDelete {A : Type} (filter : A -> bool) (coll : list A)
  : option (A * list A) :=
  match coll with
  | [] => None
  | x :: coll' =>
      if filter x then Some (x, coll')
      else match findOneAndDelete filter coll' with
           | Some (y, rest) => Some (y, x :: rest)
           | None => None
           end
  end.

(** DELETE /:receptionAgentId *)
Definition DELETE_receptionAgent (user : Actor) (receptionAgentId : ObjectId) (s : Store)
  : Response * Store :=
  if negb (role user === "Doctor") then
    (res 403 "Access denied. Doctor role required.", s)
  else
    match findOneAndDelete (fun i => (da_doctor i =? userId user)
                                     && (da_receptionAgent i =? receptionAgentId))
                           (doctorReceptionAgents s) with
    | None => (res 404 "Reception agent relationship not found", s)
    | Some (invitation, rest) =>
        (res 200 "Reception agent removed successfully",
         set_doctorReceptionAgents rest s)
    end.

(* ===================================================================== *)
(** * [routes/appointmentInvitations.js] *)
(* ===================================================================== *)

(** POST /send *)
Definition POST_appointmentInvitation_send (user : Actor) (doctorId : option ObjectId)
    (appointmentDate : option Z) (reason : option string) (s : Store)
  : Response * Store :=
  if negb (role user === "Patient") then
    (res 403 "Access denied. Patient role required.", s)
  else
    match doctorId, appointmentDate, reason with
    | Some doctorId, Some date, Some why =>
        if negb (truthyDate appointmentDate) || negb (truthy reason) then
          (res 400 "Doctor ID, appointment date, and reason are required", s)
        else
          (* Check if doctor exists *)
          match User_findOne_role doctorId "Doctor" s with
          | None => (res 404 "Doctor not found", s)
          | Some doctor =>
              (* Create new invitation *)
              match new_AppointmentInvitation (nextId s) (userId user) doctorId
                      (Some (ofNumber date)) reason with
              | None => (serverError, s)
              | Some invitation =>
                  let s1 := AppointmentInvitation_insert invitation (bump s) in
                  (* Send notification to doctor *)
                  match User_findById (userId user) s1 with
                  | None => (serverError, s1)
                  | Some patient =>
                      (res 201 "Appointment invitation sent successfully",
                       createNotification doctorId (userId user)
                         "appointment_invitation" "New Appointment Invitation" s1)
                  end
              end
          end
    | _, _, _ => (res 400 "Doctor ID, appointment date, and reason are required", s)
    end.

(** PUT /:invitationId *)
Definition PUT_appointmentInvitation (user : Actor) (invitationId : ObjectId)
    (status : string) (s : Store) : Response * Store :=
  if negb (role user === "Doctor") then
    (res 403 "Access denied. Doctor role required.", s)
  else if negb (isDecision status) then
    (res 400 "Invalid status", s)
  else
    match findOne (fun i => (ai_id i =? invitationId) && (ai_doctor i =? userId user))
                  (appointmentInvitations s) with
    | None => (res 404 "Invitation not found", s)
    | Some invitation =>
        if negb (Status_eqb (ai_status invitation) pending) then
          (res 400 "Invitation already processed", s)
        else
          let invitation := with_ai_status (decision status) invitation in
          let s1 := AppointmentInvitation_save invitation s in
          let doctor := User_findById (userId user) s1 in
          let ok := res 200 ("Invitation " ++ status)%string in
          if status === "accepted" then
            (* Check if DoctorRequest already exists *)
            let afterRequest : option Store :=
              match findOne (fun r => (dr_doctor r =? userId user)
                                      && (dr_patient r =? ai_patient invitation))
                            (doctorRequests s1) with
              | None =>
                  (* Create new DoctorRequest relationship *)
                  DoctorRequest_insert
                    {| dr_id := nextId s1; dr_doctor := userId user;
                       dr_patient := ai_patient invitation; dr_status := accepted |}
                    (bump s1)
              | Some doctorRequest =>
                  if negb (Status_eqb (dr_status doctorRequest) accepted) then
                    (* Update existing request to accepted *)
                    Some (DoctorRequest_save (with_dr_status accepted doctorRequest) s1)
                  else Some s1
              end in
            match afterRequest with
            | None => (serverError, s1)
            | Some s2 =>
                (* Get or create medical record for the patient *)
                let created : option (MedicalRecord * Store) :=
                  match MedicalRecord_findOne (ai_patient invitation) s2 with
                  | Some medicalRecord => Some (medicalRecord, s2)
                  | None =>
                      let medicalRecord :=
                        new_MedicalRecord (nextId s2) (ai_patient invitation) in
                      match MedicalRecord_save true medicalRecord (bump s2) with
                      | None => None
                      | Some s3 => Some (medicalRecord, s3)
                      end
                  end in
                match created with
                | None => (serverError, s2)
                | Some (medicalRecord, s3) =>
                    (* Add appointment to medical record *)
                    match new_Appointment (nextId s3) (userId user)
                            (Some (ofDate (ai_appointmentDate invitation)))
                            (Some (ai_reason invitation)) None with
                    | None => (serverError, s3)
                    | Some appointment =>
                        match MedicalRecord_save false
                                (with_appointments
                                   (appointments medicalRecord ++ [appointment])
                                   medicalRecord)
                                (bump s3) with
                        | None => (serverError, s3)
                        | Some s4 =>
                            (* Notify patient *)
                            match doctor with
                            | None => (serverError, s4)
                            | Some d =>
                                (ok, createNotification (ai_patient invitation)
                                       (userId user) "appointment_accepted"
                                       "Appointment Invitation Accepted" s4)
                            end
                        end
                    end
                end
            end
          else
            (* Notify patient of rejection *)
            match doctor with
            | None => (serverError, s1)
            | Some d =>
                (ok, createNotification (ai_patient invitation) (userId user)
                       "appointment_rejected" "Appointment Invitation Declined" s1)
            end
    end.

(* ===================================================================== *)
(** * The API as a transition system *)
(* ===================================================================== *)

(** The requests that write to the persisted state.  The routes of
    [routes/auth.js], [routes/admin.js] and [routes/notifications.js] touch
    the user and notification collections only; [Other] stands for any of
    them, leaving these two collections in an arbitrary state.  Routes that
    only read are omitted. *)
Inductive Request : Type :=
| GetMedicalRecord (user : Actor) (patientId : ObjectId)
| PostAppointment (user : Actor) (patientId : ObjectId) (body : AppointmentBody)
| PutAppointment (user : Actor) (patientId appointmentId : ObjectId) (body : AppointmentBody)
| DeleteAppointment (user : Actor) (patientId appointmentId : ObjectId)
| PostPrescription (user : Actor) (patientId : ObjectId) (body : PrescriptionBody)
| PutPrescription (user : Actor) (patientId prescriptionId : ObjectId) (body : PrescriptionBody)
| DeletePrescription (user : Actor) (patientId prescriptionId : ObjectId)
| PostDisease (user : Actor) (patientId : ObjectId) (body : DiseaseBody)
| PutDisease (user : Actor) (patientId diseaseId : ObjectId) (body : DiseaseBody)
| DeleteDisease (user : Actor) (patientId diseaseId : ObjectId)
| PostComment (user : Actor) (patientId : ObjectId) (body : CommentBody)
| PutComment (user : Actor) (patientId commentId : ObjectId) (body : CommentBody)
| DeleteComment (user : Actor) (patientId commentId : ObjectId)
| PostDiagnostic (user : Actor) (patientId : ObjectId) (body : DiagnosticBody)
| PutDiagnostic (user : Actor) (patientId diagnosticId : ObjectId) (body : DiagnosticBody)
| DeleteDiagnostic (user : Actor) (patientId diagnosticId : ObjectId)
| PostRequestSend (user : Actor) (patientId : option ObjectId)
| PutRequest (user : Actor) (requestId : ObjectId) (status : string)
| PostInvite (user : Actor) (receptionAgentId : option ObjectId)
| PutInvitation (user : Actor) (invitationId : ObjectId) (status : string)
| DeleteReceptionAgent (user : Actor) (receptionAgentId : ObjectId)
| PostAppointmentInvitationSend (user : Actor) (doctorId : option ObjectId)
    (appointmentDate : option Z) (reason : option string)
| PutAppointmentInvitation (user : Actor) (invitationId : ObjectId) (status : string)
| Other (users' : list User) (notifications' : list Notification).

Definition handle (rq : Request) (s : Store) : Response * Store :=
  match rq with
  | GetMedicalRecord u p => GET_medicalRecord u p s
  | PostAppointment u p b => POST_appointment u p b s
  | PutAppointment u p i b => PUT_appointment u p i b s
  | DeleteAppointment u p i => DELETE_appointment u p i s
  | PostPrescription u p b => POST_prescription u p b s
  | PutPrescription u p i b => PUT_prescription u p i b s
  | DeletePrescription u p i => DELETE_prescription u p i s
  | PostDisease u p b => POST_disease u p b s
  | PutDisease u p i b => PUT_disease u p i b s
  | DeleteDisease u p i => DELETE_disease u p i s
  | PostComment u p b => POST_comment u p b s
  | PutComment u p i b => PUT_comment u p i b s
  | DeleteComment u p i => DELETE_comment u p i s
  | PostDiagnostic u p b => POST_diagnostic u p b s
  | PutDiagnostic u p i b => PUT_diagnostic u p i b s
  | DeleteDiagnostic u p i => DELETE_diagnostic u p i s
  | PostRequestSend u p => POST_request_send u p s
  | PutRequest u i st => PUT_request u i st s
  | PostInvite u a => POST_invite u a s
  | PutInvitation u i st => PUT_invitation u i st s
  | DeleteReceptionAgent u a => DELETE_receptionAgent u a s
  | PostAppointmentInvitationSend u d dt r => POST_appointmentInvitation_send u d dt r s
  | PutAppointmentInvitation u i st => PUT_appointmentInvitation u i st s
  | Other us ns => (res 200 "", set_notifications ns (set_users us s))
  end.

(** The states the API can reach from the empty database. *)
Inductive reachable : Store -> Prop :=
| reachable_empty : reachable emptyStore
| reachable_step s rq : reachable s -> reachable (snd (handle rq s)).

(* ===================================================================== *)
(** * Notions the properties are stated with *)
(* ===================================================================== *)

(** An accepted DoctorRequest (doctor, patient) is stored. *)
Definition hasAccess (doctor patientId : ObjectId) (s : Store) : Prop :=
  exists r, In r (doctorRequests s) /\ dr_doctor r = doctor
            /\ dr_patient r = patientId /\ dr_status r = accepted.

(** An accepted DoctorReceptionAgent delegation (doctor, agent) is stored. *)
Definition delegates (doctor agent : ObjectId) (s : Store) : Prop :=
  exists i, In i (doctorReceptionAgents s) /\ da_doctor i = doctor
            /\ da_receptionAgent i = agent /\ da_status i = accepted.

(** The patient has a medical record. *)
Definition hasRecord (patientId : ObjectId) (s : Store) : Prop :=
  exists m, In m (medicalRecords s) /\ mr_patient m = patientId.

(** The authoring doctors of all sub-entries of a record. *)
Definition authors (m : MedicalRecord) : list ObjectId :=
  map ap_doctor (appointments m) ++ map pr_doctor (prescriptions m)
  ++ map di_doctor (diseases m) ++ map co_doctor (comments m)
  ++ map dg_doctor (diagnostics m).

Definition dr_pair (r : DoctorRequest) : ObjectId * ObjectId :=
  (dr_doctor r, dr_patient r).

Definition da_pair (i : DoctorReceptionAgent) : ObjectId * ObjectId :=
  (da_doctor i, da_receptionAgent i).

(** What the database keeps true: [_id] is unique within a collection and
    was drawn from the counter, the two unique indexes hold, and whoever
    authored a sub-entry of a record holds accepted access to its patient. *)
Record Inv (s : Store) : Prop := {
  inv_dr_fresh : forall r, In r (doctorRequests s) -> dr_id r < nextId s;
  inv_dr_ids : NoDup (map dr_id (doctorRequests s));
  inv_dr_pairs : NoDup (map dr_pair (doctorRequests s));
  inv_da_fresh : forall i, In i (doctorReceptionAgents s) -> da_id i < nextId s;
  inv_da_ids : NoDup (map da_id (doctorReceptionAgents s));
  inv_da_pairs : NoDup (map da_pair (doctorReceptionAgents s));
  inv_mr_fresh : forall m, In m (medicalRecords s) -> mr_id m < nextId s;
  inv_mr_ids : NoDup (map mr_id (medicalRecords s));
  inv_authors : forall m d, In m (medicalRecords s) -> In d (authors m) ->
                            hasAccess d (mr_patient m) s
}.

(** A record whose authors are those of a stored record of the same
    patient, possibly with one more who holds access. *)
Definition authors_within (m' m : MedicalRecord) (extra : option ObjectId) : Prop :=
  mr_id m' = mr_id m /\ mr_patient m' = mr_patient m
  /\ forall a, In a (authors m') -> In a (authors m) \/ extra = Some a.

(** The patients that have a medical record, in the order of creation. *)
Definition patientsOf (s : Store) : list ObjectId :=
  map mr_patient (medicalRecords s).

(** The patient whose medical record a request may bring into existence:
    a fetch of or a write to that patient's record, the patient's
    acceptance of a doctor's request, and a doctor's acceptance of that
    patient's appointment invitation. *)
Definition mayCreateRecordFor (rq : Request) (s : Store) : option ObjectId :=
  match rq with
  | GetMedicalRecord _ p
  | PostAppointment _ p _ | PostPrescription _ p _ | PostDisease _ p _
  | PostComment _ p _ | PostDiagnostic _ p _ => Some p
  | PutRequest u _ st => if st === "accepted" then Some (userId u) else None
  | PutAppointmentInvitation u i st =>
      if st === "accepted" then
        option_map ai_patient
          (findOne (fun x => (ai_id x =? i) && (ai_doctor x =? userId u))
                   (appointmentInvitations s))
      else None
  | _ => None
  end.

(** The requests of the fifteen sub-entry routes of
    [routes/medicalRecords.js]: who asks, on whose record, and whether the
    sub-entry is an appointment.  The one other request that writes a
    sub-entry, the acceptance of an appointment invitation, is
    [acceptsInvitation] below. *)
Definition mutation (rq : Request) : option (Actor * ObjectId * bool) :=
  match rq with
  | PostAppointment u p _ | PutAppointment u p _ _ | DeleteAppointment u p _ =>
      Some (u, p, true)
  | PostPrescription u p _ | PutPrescription u p _ _ | DeletePrescription u p _
  | PostDisease u p _ | PutDisease u p _ _ | DeleteDisease u p _
  | PostComment u p _ | PutComment u p _ _ | DeleteComment u p _
  | PostDiagnostic u p _ | PutDiagnostic u p _ _ | DeleteDiagnostic u p _ =>
      Some (u, p, false)
  | _ => None
  end.

(** The access resolver of the specification for the two write modes: a
    doctor writes with accepted access to the patient; a reception agent
    writes appointments only, through a doctor who delegated to the agent
    and who holds accepted access to the patient. *)
Definition mayWrite (u : Actor) (patientId : ObjectId) (appointment : bool)
    (s : Store) : Prop :=
  (role u = "Doctor" /\ hasAccess (userId u) patientId s)
  \/ (appointment = true /\ role u = "Reception Agent"
      /\ exists D, delegates D (userId u) s /\ hasAccess D patientId s).

(** A step either leaves the patients with a record as they are or adds
    the one patient [c] who had none. *)
Definition grows (c : option ObjectId) (s s' : Store) : Prop :=
  patientsOf s' = patientsOf s
  \/ exists q, c = Some q /\ ~ In q (patientsOf s)
               /\ patientsOf s' = patientsOf s ++ [q].

(** What a mutation does when the resolver would say no: nothing, with one
    of the answers 400, 403 and 404. *)
Definition refused (r : Response) (s s' : Store) : Prop :=
  s' = s /\ (code r = 400 \/ code r = 403 \/ code r = 404).

(** The five kinds of sub-entry, and the [_id]s that a record holds of each
    kind. *)
Inductive Kind : Type :=
| anAppointment | aPrescription | aDisease | aComment | aDiagnostic.

Definition entryIds (k : Kind) (m : MedicalRecord) : list ObjectId :=
  match k with
  | anAppointment => map ap_id (appointments m)
  | aPrescription => map pr_id (prescriptions m)
  | aDisease => map di_id (diseases m)
  | aComment => map co_id (comments m)
  | aDiagnostic => map dg_id (diagnostics m)
  end.

(** The sub-entry that an update or a delete names: the patient, the kind
    and the [_id]. *)
Definition target (rq : Request) : option (ObjectId * Kind * ObjectId) :=
  match rq with
  | PutAppointment _ p i _ | DeleteAppointment _ p i => Some (p, anAppointment, i)
  | PutPrescription _ p i _ | DeletePrescription _ p i => Some (p, aPrescription, i)
  | PutDisease _ p i _ | DeleteDisease _ p i => Some (p, aDisease, i)
  | PutComment _ p i _ | DeleteComment _ p i => Some (p, aComment, i)
  | PutDiagnostic _ p i _ | DeleteDiagnostic _ p i => Some (p, aDiagnostic, i)
  | _ => None
  end.

(** The request is an update or a delete of a sub-entry that no record of
    the patient holds (the patient may have no record at all). *)
Definition namesMissing (rq : Request) (s : Store) : Prop :=
  match target rq with
  | Some (p, k, i) =>
      forall m, In m (medicalRecords s) -> mr_patient m = p -> ~ In i (entryIds k m)
  | None => False
  end.

(** The request is a reception agent's new appointment that names no
    doctor. *)
Definition namesNoDoctor (rq : Request) : Prop :=
  match rq with
  | PostAppointment u _ body => role u = "Reception Agent" /\ b_doctorId body = None
  | _ => False
  end.

(** The roles that the sub-entry routes are open to: doctors, and for
    appointments reception agents as well. *)
Definition admitted (u : Actor) (appointment : bool) : Prop :=
  role u = "Doctor" \/ (appointment = true /\ role u = "Reception Agent").

(** No sub-entry is touched: every stored record is kept as it is, and a
    record that is new holds no sub-entry. *)
Definition keepsEntries (s s' : Store) : Prop :=
  (forall m, In m (medicalRecords s) -> In m (medicalRecords s'))
  /\ (forall m, In m (medicalRecords s') -> In m (medicalRecords s) \/ authors m = []).

(** The one write to sub-entries outside the sub-entry routes: a doctor
    accepts a pending appointment invitation that is addressed to them.
    Afterwards the doctor holds accepted access to the inviting patient, and
    the records of the other patients are as they were. *)
Definition acceptsInvitation (rq : Request) (s s' : Store) : Prop :=
  exists u i inv,
    rq = PutAppointmentInvitation u i "accepted"
    /\ role u = "Doctor"
    /\ In inv (appointmentInvitations s)
    /\ ai_id inv = i /\ ai_doctor inv = userId u /\ ai_status inv = pending
    /\ hasAccess (userId u) (ai_patient inv) s'
    /\ forall m, mr_patient m <> ai_patient inv ->
                 (In m (medicalRecords s') <-> In m (medicalRecords s)).

(* ===================================================================== *)
(** * A small clinic, built through the API *)
(* ===================================================================== *)

(** Two doctors (ids 101 and 102), a patient (103) and a reception agent
    (104). *)
Definition clinicUsers : list User :=
  [ {| u_id := 101; u_role := "Doctor"; u_name := "Amel"; u_familyName := "Haddad" |};
    {| u_id := 102; u_role := "Doctor"; u_name := "Bilel"; u_familyName := "Triki" |};
    {| u_id := 103; u_role := "Patient"; u_name := "Chokri"; u_familyName := "Sassi" |};
    {| u_id := 104; u_role := "Reception Agent"; u_name := "Dorra";
       u_familyName := "Mejri" |} ].

Definition drAmel : Actor := {| userId := 101; role := "Doctor" |}.
Definition drBilel : Actor := {| userId := 102; role := "Doctor" |}.
Definition chokri : Actor := {| userId := 103; role := "Patient" |}.
Definition dorra : Actor := {| userId := 104; role := "Reception Agent" |}.

Definition run (rqs : list Request) (s : Store) : Store :=
  fold_left (fun st rq => snd (handle rq st)) rqs s.

(** The accounts exist and nothing else. *)
Definition registered : Store := run [Other clinicUsers []] emptyStore.

(** Both doctors were granted access by the patient, Dr Amel wrote a
    prescription (its [_id] is 3) and delegated to the agent, who accepted. *)
Definition clinic : Store :=
  run [ PostRequestSend drAmel (Some 103);
        PutRequest chokri 0 "accepted";
        PostRequestSend drBilel (Some 103);
        PutRequest chokri 2 "accepted";
        PostPrescription drAmel 103
          {| b_medication := Some "Amoxicillin"; b_dosage := Some "500mg";
             b_duration := Some "7 days"; b_instructions := None |};
        PostInvite drAmel (Some 104);
        PutInvitation dorra 4 "accepted" ]
      registered.

(** The patient asked Dr Amel for an appointment (invitation 0) and has
    no other tie to the doctor yet. *)
Definition invited : Store :=
  run [ PostAppointmentInvitationSend chokri (Some 101) (Some 1767225600000%Z)
          (Some "Annual check-up") ]
      registered.

Definition someAppointment : AppointmentBody :=
  {| b_date := Some 1767225600000%Z; b_reason := Some "Follow-up";
     b_notes := None; b_doctorId := Some 101 |}.

Definition somePrescription : PrescriptionBody :=
  {| b_medication := Some "Ibuprofen"; b_dosage := Some "200mg";
     b_duration := None; b_instructions := None |}.

(** Dr Amel asked the patient for access (request 0, pending). *)
Definition requested : Store :=
  run [ PostRequestSend drAmel (Some 103) ] registered.

End Backend.

(* ===================================================================== *)
(** * Further notions over the same store *)
(* ===================================================================== *)

Module More.

Import Backend.
Local Open Scope string_scope.
Local Open Scope list_scope.
Local Open Scope nat_scope.

(** The access resolver of the specification for the read mode: patients
    read their own record, doctors the records of patients who accepted
    them, reception agents those of the patients of a doctor who delegated
    to them; nobody else reads. *)
Definition mayRead (u : Actor) (patientId : ObjectId) (s : Store) : Prop :=
  (role u = "Patient" /\ userId u = patientId)
  \/ (role u = "Doctor" /\ hasAccess (userId u) patientId s)
  \/ (role u = "Reception Agent"
      /\ exists D, delegates D (userId u) s /\ hasAccess D patientId s).

(** An accepted request stays in the collection as it is. *)
Definition keepsAccepted (s s' : Store) : Prop :=
  forall r, In r (doctorRequests s) -> dr_status r = accepted ->
            In r (doctorRequests s').

(** The patient's record in the clinic. *)
Definition clinicRecord : MedicalRecord :=
  {| mr_id := 1; mr_patient := 103; appointments := [];
     prescriptions :=
       [{| pr_id := 3; pr_doctor := 101; pr_medication := "Amoxicillin";
           pr_dosage := "500mg"; pr_duration := Some "7 days";
           pr_instructions := None |}];
     diseases := []; comments := []; diagnostics := [] |}.


End More.

(* ===================================================================== *)
(** * Further notions for the risk engine *)
(* ===================================================================== *)

Module RiskMore.

Import Risk.
Local Open Scope string_scope.
Local Open Scope list_scope.
Local Open Scope Z_scope.

(** The accumulators while no rule fired, and after some rule fired: the
    score is positive then, and the factor list is non-empty and does not
    hold the placeholder [ph]. *)
Definition fired (ph : string) (st : Acc) : Prop :=
  (fst st = 0 /\ snd st = [])
  \/ (0 < fst st /\ snd st <> [] /\ ~ In ph (snd st)).

(** A prediction whose factor list is the placeholder alone exactly when
    its score is zero, and is never empty. *)
Definition explained (ph : string) (p : Prediction) : Prop :=
  factors p <> [] /\ (score p = 0 <-> factors p = [ph]).

End RiskMore.

(* ===================================================================== *)
(** * Properties of the risk scoring engine *)
(* ===================================================================== *)

Module RiskFacts.

Import Risk.
Local Open Scope string_scope.
Local Open Scope list_scope.
Local Open Scope Z_scope.

(** Reasoning along the [let]-chain of a calculator, one assignment at a
    time, with the running accumulator kept abstract. *)
Lemma let_step (A B : Type) (v : A) (f : A -> B) (P : B -> Prop) :
  (forall x, x = v -> P (f x)) -> P (let x := v in f x).
Proof. intros H; apply H; reflexivity. Qed.

Lemma hit_nonneg pts msg st : 0 <= pts -> 0 <= fst st -> 0 <= fst (hit pts msg st).
Proof. unfold hit; simpl; lia. Qed.

(** The capped score read back through the threshold chain of the code. *)
Lemma thresholds_level (n : Z) :
  level_of n (if n >=? 70 then "Very High"
              else if n >=? 50 then "High"
              else if n >=? 30 then "Moderate" else "Low").
Proof.
  destruct (Z.geb_spec n 70); [now constructor|].
  destruct (Z.geb_spec n 50); [constructor; lia|].
  destruct (Z.geb_spec n 30); constructor; lia.
Qed.

Lemma level_of_functional n l1 l2 : level_of n l1 -> level_of n l2 -> l1 = l2.
Proof. intros H1 H2; inversion H1; subst; inversion H2; subst; auto; lia. Qed.

(** One assignment [let st := if ... then hit ... st else st]: the new
    accumulator is again non-negative. *)
Ltac step_acc :=
  match goal with
  | |- bounded (let x := ?v in @?f x) =>
      apply (let_step _ _ v f bounded);
      let st := fresh "st" in
      let E := fresh "E" in
      intros st E;
      first
        [ assert (0 <= fst st)
            by (rewrite E;
                repeat match goal with
                       | |- context [if ?c then _ else _] => destruct c
                       end;
                auto using hit_nonneg with zarith);
          clear E
        | subst st ]
  end.

Ltac finish_acc :=
  unfold bounded; cbn [score risk];
  split; [split; [apply Z.min_glb; lia | apply Z.le_min_r] | apply thresholds_level].

Lemma stroke_bounds a : bounded (calculateStrokeRisk a).
Proof.
  cbv beta delta [calculateStrokeRisk].
  repeat step_acc. finish_acc.
Qed.

Lemma heart_bounds a : bounded (calculateHeartDiseaseRisk a).
Proof.
  cbv beta delta [calculateHeartDiseaseRisk].
  repeat step_acc. finish_acc.
Qed.

Lemma diabetes_bounds a : bounded (calculateDiabetesRisk a).
Proof.
  cbv beta delta [calculateDiabetesRisk].
  step_acc.
  destruct (hasDiabetes a).
  - unfold bounded; cbn [score risk]. split; [lia | constructor; lia].
  - repeat step_acc. finish_acc.
Qed.

(** C5. Whatever else the questionnaire says, a patient with
    [hasDiabetes = true] gets the diabetes prediction with score 100, level
    "Very High" and the single "already diagnosed" factor. *)
Theorem C5_diabetes_already_diagnosed (a : Assessment) :
  hasDiabetes a = true ->
  calculateDiabetesRisk a =
  {| risk := "Very High"; score := 100;
     factors := ["Already diagnosed with diabetes. Continue treatment and monitoring."] |}.
Proof.
  intros H. cbv beta delta [calculateDiabetesRisk]. cbv zeta.
  now rewrite H.
Qed.

Lemma C5_diabetes_already_diagnosed_witness :
  hasDiabetes diagnosed = true
  /\ calculateDiabetesRisk diagnosed =
     {| risk := "Very High"; score := 100;
        factors := ["Already diagnosed with diabetes. Continue treatment and monitoring."] |}.
Proof.
  split; [reflexivity | apply (C5_diabetes_already_diagnosed diagnosed); reflexivity].
Defined.

(** C6. For every questionnaire each of the three scores lies between 0 and
    100 and the level is the one the thresholds 70 / 50 / 30 assign to the
    score; the stroke calculator run on six questionnaires shows the
    boundaries: 70 is "Very High", 69 and 50 are "High", 49 and 30 are
    "Moderate", 29 is "Low". *)
Theorem C6_scores_bounded_levels_by_threshold (a : Assessment) :
  (0 <= score (stroke (calculateAllRisks a)) <= 100
   /\ level_of (score (stroke (calculateAllRisks a)))
               (risk (stroke (calculateAllRisks a))))
  /\ (0 <= score (heartDisease (calculateAllRisks a)) <= 100
      /\ level_of (score (heartDisease (calculateAllRisks a)))
                  (risk (heartDisease (calculateAllRisks a))))
  /\ (0 <= score (diabetes (calculateAllRisks a)) <= 100
      /\ level_of (score (diabetes (calculateAllRisks a)))
                  (risk (diabetes (calculateAllRisks a))))
  /\ map (fun q => (score (calculateStrokeRisk q), risk (calculateStrokeRisk q)))
         boundarySamples
     = [(70, "Very High"); (69, "High"); (50, "High");
        (49, "Moderate"); (30, "Moderate"); (29, "Low")].
Proof.
  unfold calculateAllRisks; cbn [stroke heartDisease diabetes].
  split; [apply stroke_bounds|].
  split; [apply heart_bounds|].
  split; [apply diabetes_bounds|].
  vm_compute. reflexivity.
Qed.

(** C7. The end-to-end questionnaire (age 70, male, 175 cm, 90 kg, high
    blood pressure, current smoker, never exercising, nothing else) gets the
    stroke score 74 = 20 + 25 + 15 + 8 + 6 and the level "Very High"; its BMI
    falls in the bracket from 25 to 30. *)
Theorem C7_stroke_end_to_end :
  calculateStrokeRisk patient70 =
  {| risk := "Very High"; score := 74;
     factors := ["Age 65-74 increases stroke risk";
                 "High blood pressure is a major stroke risk factor";
                 "Current smoking doubles stroke risk";
                 "Lack of exercise increases stroke risk";
                 "Overweight (BMI 25-30) moderately increases risk"] |}
  /\ fge (calculateBMI (weight patient70) (height patient70)) 25 = true
  /\ fge (calculateBMI (weight patient70) (height patient70)) 30 = false
  /\ 74 = 20 + 25 + 15 + 8 + 6.
Proof. vm_compute. repeat split. Qed.

End RiskFacts.

(* ===================================================================== *)
(** * Properties of the backend *)
(* ===================================================================== *)

Module BackendFacts.

Import Backend.
Local Open Scope string_scope.
Local Open Scope list_scope.
Local Open Scope nat_scope.

(** ** Collections *)

Section Collections.

Context {A : Type} (id : A -> ObjectId).

Lemma findOne_Some (p : A -> bool) (l : list A) (x : A) :
  findOne p l = Some x -> In x l /\ p x = true.
Proof. apply find_some. Qed.

Lemma findOne_None (p : A -> bool) (l : list A) :
  findOne p l = None -> forall x, In x l -> p x = false.
Proof. apply find_none. Qed.

Lemma findOne_In (p : A -> bool) (l : list A) (x : A) :
  In x l -> p x = true -> exists y, findOne p l = Some y.
Proof.
  intros Hin Hp. destruct (findOne p l) as [y|] eqn:E; [eauto|].
  rewrite (findOne_None _ _ E x Hin) in Hp; discriminate.
Qed.

Lemma findOne_existsb (p : A -> bool) (l : list A) :
  findOne p l = None -> existsb p l = false.
Proof.
  unfold findOne. induction l as [|x l IH]; simpl; [reflexivity|].
  destruct (p x); [discriminate | exact IH].
Qed.

(** A document appended to a collection in which the filter found nothing
    is what the filter finds next. *)
Lemma findOne_app_new (p : A -> bool) (l : list A) (x : A) :
  findOne p l = None -> p x = true -> findOne p (l ++ [x]) = Some x.
Proof.
  unfold findOne. induction l as [|y l IH]; simpl; intros Hn Hp.
  - now rewrite Hp.
  - destruct (p y); [discriminate | auto].
Qed.

Lemma findOne_app_old (p : A -> bool) (l l' : list A) (x : A) :
  findOne p l = Some x -> findOne p (l ++ l') = Some x.
Proof.
  unfold findOne. induction l as [|y l IH]; simpl; [discriminate|].
  destruct (p y); auto.
Qed.

(** Saving the document a filter found, with fields changed that the
    filter still accepts: the filter now finds the saved document. *)
Lemma findOne_saveDoc (p : A -> bool) (l : list A) (x x' : A) :
  findOne p l = Some x -> id x' = id x -> p x' = true ->
  findOne p (saveDoc id x' l) = Some x'.
Proof.
  unfold findOne, saveDoc. intros Hf Hid Hp.
  induction l as [|y l IH]; simpl in *; [discriminate|].
  destruct (p y) eqn:Ey.
  - injection Hf as ->. rewrite Hid, Nat.eqb_refl. now rewrite Hp.
  - destruct (id y =? id x'); [now rewrite Hp | rewrite Ey; auto].
Qed.

Lemma In_saveDoc (l : list A) (d y : A) :
  In y (saveDoc id d l) -> y = d \/ (In y l /\ id y <> id d).
Proof.
  unfold saveDoc. rewrite in_map_iff. intros (x & E & Hin).
  destruct (Nat.eqb_spec (id x) (id d)); subst; auto.
Qed.

Lemma saveDoc_same_id (l : list A) (d y : A) :
  In y (saveDoc id d l) -> id y = id d -> y = d.
Proof. intros H E. destruct (In_saveDoc _ _ _ H) as [|[_ N]]; [auto | contradiction]. Qed.

Lemma saveDoc_In (l : list A) (d x : A) :
  In x l -> id x = id d -> In d (saveDoc id d l).
Proof.
  unfold saveDoc. intros Hin E. apply in_map_iff. exists x.
  rewrite E, Nat.eqb_refl. auto.
Qed.

Lemma saveDoc_In_other (l : list A) (d x : A) :
  In x l -> id x <> id d -> In x (saveDoc id d l).
Proof.
  unfold saveDoc. intros Hin N. apply in_map_iff. exists x.
  destruct (Nat.eqb_spec (id x) (id d)); [contradiction | auto].
Qed.

Lemma saveDoc_ids (l : list A) (d : A) :
  map id (saveDoc id d l) = map id l.
Proof.
  unfold saveDoc. rewrite map_map. apply map_ext.
  intros x. destruct (Nat.eqb_spec (id x) (id d)); congruence.
Qed.


(** With unique ids, saving rewrites the one stored document and nothing
    else. *)
Lemma saveDoc_map (B : Type) (f : A -> B) (l : list A) (d x : A) :
  NoDup (map id l) -> In x l -> id d = id x -> f d = f x ->
  map f (saveDoc id d l) = map f l.
Proof.
  unfold saveDoc. intros Hnd Hin Hid Hf. rewrite map_map.
  apply map_ext_in. intros y Hy.
  destruct (Nat.eqb_spec (id y) (id d)) as [E|]; [|reflexivity].
  assert (y = x); [|congruence].
  rewrite Hid in E. clear - Hnd Hin Hy E.
  induction l as [|z l IH]; simpl in *; [contradiction|].
  inversion Hnd as [|? ? Hz Hl]; subst.
  destruct Hin as [->|Hin], Hy as [->|Hy]; auto.
  - exfalso. apply Hz. rewrite <- E. now apply in_map.
  - exfalso. apply Hz. rewrite E. now apply in_map.
Qed.

(** Sub-documents. *)
Lemma subdoc_Some (i : ObjectId) (arr : list A) (e : A) :
  subdoc id i arr = Some e -> In e arr /\ id e = i.
Proof.
  unfold subdoc. intros H. apply find_some in H as [H1 H2].
  split; [auto | now apply Nat.eqb_eq].
Qed.

Lemma assign_map (B : Type) (f : A -> B) (i : ObjectId) (arr : list A) (e e' : A) :
  subdoc id i arr = Some e -> f e' = f e ->
  map f (assign id i e' arr) = map f arr.
Proof.
  unfold subdoc. intros Hs Hf.
  induction arr as [|x arr IH]; simpl in *; [reflexivity|].
  destruct (id x =? i); simpl.
  - injection Hs as ->. now rewrite Hf.
  - now rewrite IH.
Qed.

Lemma subdoc_assign (i : ObjectId) (arr : list A) (e e' : A) :
  subdoc id i arr = Some e -> id e' = i ->
  subdoc id i (assign id i e' arr) = Some e'.
Proof.
  unfold subdoc. intros Hs He.
  induction arr as [|x arr IH]; simpl in *; [discriminate|].
  destruct (id x =? i) eqn:E; simpl.
  - now rewrite He, Nat.eqb_refl.
  - rewrite E. auto.
Qed.

Lemma deleteOne_In (i : ObjectId) (arr : list A) (x : A) :
  In x (deleteOne id i arr) -> In x arr /\ id x <> i.
Proof.
  unfold deleteOne. rewrite filter_In. intros [H1 H2]. split; [auto|].
  intros E. rewrite E, Nat.eqb_refl in H2. discriminate.
Qed.

Lemma subdoc_deleteOne (i : ObjectId) (arr : list A) :
  subdoc id i (deleteOne id i arr) = None.
Proof.
  unfold subdoc. destruct (find _ _) as [x|] eqn:E; [|reflexivity].
  apply find_some in E as [H1 H2]. apply deleteOne_In in H1 as [_ N].
  apply Nat.eqb_eq in H2. contradiction.
Qed.

End Collections.

Lemma findOneAndDelete_Some {A : Type} (p : A -> bool) (l : list A) x rest :
  findOneAndDelete p l = Some (x, rest) ->
  p x = true /\ In x l /\ (forall y, In y rest -> In y l)
  /\ (forall B (f : A -> B), NoDup (map f l) -> NoDup (map f rest)).
Proof.
  revert rest. induction l as [|y l IH]; simpl; intros rest H; [discriminate|].
  destruct (p y) eqn:Ey.
  - injection H as -> ->. repeat split; auto.
    intros B f Hnd. now inversion Hnd.
  - destruct (findOneAndDelete p l) as [[z r]|]; [|discriminate].
    injection H as -> <-. destruct (IH _ eq_refl) as (H1 & H2 & H3 & H4).
    repeat split; auto.
    + intros w [->|Hw]; simpl; auto.
    + intros B f Hnd. simpl. inversion Hnd as [|? ? Hy Hl]; subst.
      constructor; [|now apply H4].
      rewrite in_map_iff in *. intros (w & Ew & Hw). apply Hy. exists w. auto.
Qed.

(** ** The relationship queries *)

Lemma andb3 (a b c : bool) : a && b && c = true <-> a = true /\ b = true /\ c = true.
Proof. destruct a, b, c; simpl; intuition discriminate. Qed.

Lemma Status_eqb_eq (a b : Status) : Status_eqb a b = true <-> a = b.
Proof. destruct a, b; simpl; split; intros; congruence. Qed.


Lemma acceptedRequest_Some d p s r :
  acceptedRequest d p s = Some r ->
  In r (doctorRequests s) /\ dr_doctor r = d /\ dr_patient r = p /\ dr_status r = accepted.
Proof.
  unfold acceptedRequest. intros H. apply findOne_Some in H as [Hin H].
  apply andb3 in H as (H1 & H2 & H3).
  apply Nat.eqb_eq in H1, H2. apply Status_eqb_eq in H3. auto.
Qed.

Lemma acceptedRequest_hasAccess d p s :
  hasAccess d p s <-> exists r, acceptedRequest d p s = Some r.
Proof.
  split.
  - intros (r & Hin & H1 & H2 & H3). unfold acceptedRequest.
    apply findOne_In with (x := r); [auto|].
    apply andb3. rewrite H1, H2, H3, !Nat.eqb_refl. auto.
  - intros [r H]. exists r. now apply acceptedRequest_Some.
Qed.

Lemma acceptedRequest_None d p s :
  acceptedRequest d p s = None <-> ~ hasAccess d p s.
Proof.
  rewrite acceptedRequest_hasAccess. split.
  - intros H [r E]. congruence.
  - intros H. destruct (acceptedRequest d p s) eqn:E; [|reflexivity].
    exfalso. eauto.
Qed.

Lemma acceptedInvitation_Some a d s i :
  acceptedInvitation a d s = Some i ->
  In i (doctorReceptionAgents s) /\ da_doctor i = d /\ da_receptionAgent i = a
  /\ da_status i = accepted.
Proof.
  unfold acceptedInvitation. intros H. apply findOne_Some in H as [Hin H].
  apply andb3 in H as (H1 & H2 & H3).
  apply Nat.eqb_eq in H1, H2. apply Status_eqb_eq in H3. auto.
Qed.

Lemma acceptedInvitation_delegates a d s :
  delegates d a s <-> exists i, acceptedInvitation a d s = Some i.
Proof.
  split.
  - intros (i & Hin & H1 & H2 & H3). unfold acceptedInvitation.
    apply findOne_In with (x := i); [auto|].
    apply andb3. rewrite H1, H2, H3, !Nat.eqb_refl. auto.
  - intros [i H]. exists i. apply acceptedInvitation_Some in H. tauto.
Qed.

Lemma acceptedInvitation_None a d s :
  acceptedInvitation a d s = None <-> ~ delegates d a s.
Proof.
  rewrite acceptedInvitation_delegates. split.
  - intros H [r E]. congruence.
  - intros H. destruct (acceptedInvitation a d s) eqn:E; [|reflexivity].
    exfalso. eauto.
Qed.

Lemma MedicalRecord_findOne_Some p s m :
  MedicalRecord_findOne p s = Some m -> In m (medicalRecords s) /\ mr_patient m = p.
Proof.
  unfold MedicalRecord_findOne. intros H. apply findOne_Some in H as [H1 H2].
  apply Nat.eqb_eq in H2. auto.
Qed.

Lemma MedicalRecord_findOne_hasRecord p s :
  hasRecord p s <-> exists m, MedicalRecord_findOne p s = Some m.
Proof.
  split.
  - intros (m & Hin & E). unfold MedicalRecord_findOne.
    apply findOne_In with (x := m); [auto|]. now apply Nat.eqb_eq.
  - intros [m H]. exists m. now apply MedicalRecord_findOne_Some.
Qed.

(** ** The invariant and the store primitives *)

Lemma NoDup_map_eq {A B : Type} (f : A -> B) (l : list A) (x y : A) :
  NoDup (map f l) -> In x l -> In y l -> f x = f y -> x = y.
Proof.
  induction l as [|z l IH]; simpl; [contradiction|].
  intros Hnd Hx Hy E. inversion Hnd as [|? ? Hz Hl]; subst.
  destruct Hx as [->|Hx], Hy as [->|Hy]; auto.
  - exfalso. apply Hz. rewrite E. now apply in_map.
  - exfalso. apply Hz. rewrite <- E. now apply in_map.
Qed.

Lemma NoDup_snoc {B : Type} (l : list B) (b : B) :
  NoDup l -> ~ In b l -> NoDup (l ++ [b]).
Proof.
  intros Hl Hb. apply NoDup_app; [auto | repeat constructor; auto |].
  intros a Ha [<-|[]]. contradiction.
Qed.

Lemma hasAccess_ext d p s s' :
  doctorRequests s' = doctorRequests s -> hasAccess d p s -> hasAccess d p s'.
Proof. unfold hasAccess. now intros ->. Qed.

Lemma hasAccess_incl d p s s' :
  (forall r, In r (doctorRequests s) -> dr_status r = accepted ->
             In r (doctorRequests s')) ->
  hasAccess d p s -> hasAccess d p s'.
Proof. intros H (r & Hin & H1 & H2 & H3). exists r. auto. Qed.

(** Whatever leaves the three guarded collections alone and does not
    rewind the id counter keeps the invariant. *)
Lemma Inv_frame s s' :
  Inv s ->
  doctorRequests s' = doctorRequests s ->
  doctorReceptionAgents s' = doctorReceptionAgents s ->
  medicalRecords s' = medicalRecords s ->
  nextId s <= nextId s' ->
  Inv s'.
Proof.
  intros [] E1 E2 E3 Hn.
  constructor; rewrite ?E1, ?E2, ?E3; auto.
  - intros r Hr. specialize (inv_dr_fresh0 r Hr). lia.
  - intros r Hr. specialize (inv_da_fresh0 r Hr). lia.
  - intros r Hr. specialize (inv_mr_fresh0 r Hr). lia.
  - intros m d Hm Hd. apply hasAccess_ext with s; auto.
Qed.

Lemma Inv_empty : Inv emptyStore.
Proof. constructor; simpl; try constructor; contradiction. Qed.

Lemma Inv_bump s : Inv s -> Inv (bump s).
Proof. intros H. apply Inv_frame with s; simpl; auto. Qed.

Lemma Inv_createNotification r sd t ti s :
  Inv s -> Inv (createNotification r sd t ti s).
Proof. intros H. apply Inv_frame with s; simpl; auto. Qed.

Lemma Inv_ai_insert d s : Inv s -> Inv (AppointmentInvitation_insert d s).
Proof. intros H. apply Inv_frame with s; simpl; auto. Qed.

Lemma Inv_ai_save d s : Inv s -> Inv (AppointmentInvitation_save d s).
Proof. intros H. apply Inv_frame with s; simpl; auto. Qed.

Lemma Inv_other us ns s : Inv s -> Inv (set_notifications ns (set_users us s)).
Proof. intros H. apply Inv_frame with s; simpl; auto. Qed.

Lemma Inv_dr_insert_fresh s s' doctor patientId st :
  Inv s ->
  DoctorRequest_insert
    {| dr_id := nextId s; dr_doctor := doctor; dr_patient := patientId;
       dr_status := st |} (bump s) = Some s' ->
  Inv s'.
Proof.
  intros [] H. unfold DoctorRequest_insert in H. simpl in H.
  destruct (existsb _ _) eqn:Ex; [discriminate|]. injection H as <-.
  constructor; simpl; auto.
  - intros r Hr. apply in_app_iff in Hr as [Hr|[<-|[]]]; simpl; [|lia].
    specialize (inv_dr_fresh0 r Hr). lia.
  - rewrite map_app. simpl. apply NoDup_snoc; [auto|].
    intros Hin. apply in_map_iff in Hin as (r & E & Hr).
    specialize (inv_dr_fresh0 r Hr). lia.
  - rewrite map_app. simpl. apply NoDup_snoc; [auto|].
    intros Hin. apply in_map_iff in Hin as (r & E & Hr).
    unfold dr_pair in E. simpl in E. injection E as E1 E2.
    assert (existsb (fun x => (dr_doctor x =? doctor) && (dr_patient x =? patientId))
              (doctorRequests s) = true); [|congruence].
    apply existsb_exists. exists r. rewrite E1, E2, !Nat.eqb_refl. auto.
  - intros i Hi. specialize (inv_da_fresh0 i Hi). lia.
  - intros m Hm. specialize (inv_mr_fresh0 m Hm). lia.
  - intros m d Hm Hd. eapply hasAccess_incl; [|apply (inv_authors0 m d Hm Hd)].
    simpl. intros r Hr _. apply in_app_iff. auto.
Qed.

Lemma Inv_dr_save s d st :
  Inv s -> In d (doctorRequests s) ->
  dr_status d <> accepted \/ st = accepted ->
  Inv (DoctorRequest_save (with_dr_status st d) s).
Proof.
  intros [] Hd Hst.
  constructor; simpl; auto.
  - intros r Hr. apply In_saveDoc in Hr as [->|[Hr _]]; simpl; auto.
  - now rewrite saveDoc_ids.
  - rewrite saveDoc_map with (x := d); auto.
  - intros m a Hm Ha. eapply hasAccess_incl; [|apply (inv_authors0 m a Hm Ha)].
    simpl. intros r Hr Hacc.
    destruct (Nat.eq_dec (dr_id r) (dr_id d)) as [E|N].
    + assert (r = d) by (apply (NoDup_map_eq dr_id (doctorRequests s)); auto). subst r.
      destruct Hst as [Hst|Hst]; [contradiction|]. subst st.
      replace (with_dr_status accepted d) with d
        by (clear - Hacc; destruct d; unfold with_dr_status; simpl in *; congruence).
      eapply saveDoc_In; eauto.
    + apply saveDoc_In_other; auto.
Qed.

Lemma Inv_da_insert_fresh s s' doctor agent st :
  Inv s ->
  DoctorReceptionAgent_insert
    {| da_id := nextId s; da_doctor := doctor; da_receptionAgent := agent;
       da_status := st |} (bump s) = Some s' ->
  Inv s'.
Proof.
  intros [] H. unfold DoctorReceptionAgent_insert in H. simpl in H.
  destruct (existsb _ _) eqn:Ex; [discriminate|]. injection H as <-.
  constructor; simpl; auto.
  - intros r Hr. specialize (inv_dr_fresh0 r Hr). lia.
  - intros r Hr. apply in_app_iff in Hr as [Hr|[<-|[]]]; simpl; [|lia].
    specialize (inv_da_fresh0 r Hr). lia.
  - rewrite map_app. simpl. apply NoDup_snoc; [auto|].
    intros Hin. apply in_map_iff in Hin as (r & E & Hr).
    specialize (inv_da_fresh0 r Hr). lia.
  - rewrite map_app. simpl. apply NoDup_snoc; [auto|].
    intros Hin. apply in_map_iff in Hin as (r & E & Hr).
    unfold da_pair in E. simpl in E. injection E as E1 E2.
    assert (existsb (fun x => (da_doctor x =? doctor) && (da_receptionAgent x =? agent))
              (doctorReceptionAgents s) = true); [|congruence].
    apply existsb_exists. exists r. rewrite E1, E2, !Nat.eqb_refl. auto.
  - intros m Hm. specialize (inv_mr_fresh0 m Hm). lia.
Qed.

Lemma Inv_da_save s d st :
  Inv s -> In d (doctorReceptionAgents s) ->
  Inv (DoctorReceptionAgent_save (with_da_status st d) s).
Proof.
  intros [] Hd.
  constructor; simpl; auto.
  - intros r Hr. apply In_saveDoc in Hr as [->|[Hr _]]; simpl; auto.
  - now rewrite saveDoc_ids.
  - rewrite saveDoc_map with (x := d); auto.
Qed.

Lemma Inv_da_delete s p x rest :
  Inv s -> findOneAndDelete p (doctorReceptionAgents s) = Some (x, rest) ->
  Inv (set_doctorReceptionAgents rest s).
Proof.
  intros [] H. apply findOneAndDelete_Some in H as (_ & _ & H3 & H4).
  constructor; simpl; auto.
Qed.

Lemma Inv_mr_insert s s' m :
  Inv s -> mr_id m < nextId s ->
  (forall x, In x (medicalRecords s) -> mr_id x < mr_id m) ->
  (forall d, In d (authors m) -> hasAccess d (mr_patient m) s) ->
  MedicalRecord_save true m s = Some s' ->
  Inv s'.
Proof.
  intros [] Hid Hfresh Hauth H. unfold MedicalRecord_save in H.
  destruct (existsb _ _); [discriminate|]. injection H as <-.
  constructor; simpl; auto.
  - intros x Hx. apply in_app_iff in Hx as [Hx|[<-|[]]]; auto.
  - rewrite map_app. simpl. apply NoDup_snoc; [auto|].
    intros Hin. apply in_map_iff in Hin as (x & E & Hx).
    specialize (Hfresh x Hx). lia.
  - intros x d Hx Hd. apply in_app_iff in Hx as [Hx|[<-|[]]].
    + apply hasAccess_ext with s; auto.
    + apply hasAccess_ext with s; auto.
Qed.

Lemma Inv_mr_update s s' m m' :
  Inv s -> In m (medicalRecords s) -> mr_id m' = mr_id m ->
  (forall d, In d (authors m') -> hasAccess d (mr_patient m') s) ->
  MedicalRecord_save false m' s = Some s' ->
  Inv s'.
Proof.
  intros [] Hm Hid Hauth H. unfold MedicalRecord_save in H. injection H as <-.
  constructor; simpl; auto.
  - intros x Hx. apply In_saveDoc in Hx as [->|[Hx _]]; auto.
    rewrite Hid. auto.
  - now rewrite saveDoc_ids.
  - intros x d Hx Hd. apply hasAccess_ext with s; [reflexivity|].
    apply In_saveDoc in Hx as [->|[Hx _]]; auto.
Qed.

(** ** Sub-entries and their authors *)

Lemma new_Appointment_Some i d date reason notes e :
  new_Appointment i d date reason notes = Some e -> ap_id e = i /\ ap_doctor e = d.
Proof.
  unfold new_Appointment.
  destruct (requiredDate date), (requiredString reason); try discriminate.
  now intros [= <-].
Qed.

Lemma new_Prescription_Some i d a b c f e :
  new_Prescription i d a b c f = Some e -> pr_id e = i /\ pr_doctor e = d.
Proof.
  unfold new_Prescription.
  destruct (requiredString a), (requiredString b); try discriminate.
  now intros [= <-].
Qed.

Lemma new_Disease_Some i d a b c f e :
  new_Disease i d a b c f = Some e -> di_id e = i /\ di_doctor e = d.
Proof.
  unfold new_Disease. destruct (requiredString a), (requiredDate b); try discriminate.
  destruct (diseaseStatusValid _); try discriminate.
  now intros [= <-].
Qed.

Lemma new_Comment_Some i d a e :
  new_Comment i d a = Some e -> co_id e = i /\ co_doctor e = d.
Proof.
  unfold new_Comment. destruct (requiredString a); try discriminate.
  now intros [= <-].
Qed.

Lemma new_Diagnostic_Some i d a b c f e :
  new_Diagnostic i d a b c f = Some e -> dg_id e = i /\ dg_doctor e = d.
Proof.
  unfold new_Diagnostic.
  destruct (requiredString a), (requiredDate b), (requiredString c); try discriminate.
  now intros [= <-].
Qed.

Lemma authors_with_appointments v m a :
  In a (authors (with_appointments v m)) -> In a (map ap_doctor v) \/ In a (authors m).
Proof. unfold authors; simpl; rewrite !in_app_iff; tauto. Qed.

Lemma authors_with_prescriptions v m a :
  In a (authors (with_prescriptions v m)) -> In a (map pr_doctor v) \/ In a (authors m).
Proof. unfold authors; simpl; rewrite !in_app_iff; tauto. Qed.

Lemma authors_with_diseases v m a :
  In a (authors (with_diseases v m)) -> In a (map di_doctor v) \/ In a (authors m).
Proof. unfold authors; simpl; rewrite !in_app_iff; tauto. Qed.

Lemma authors_with_comments v m a :
  In a (authors (with_comments v m)) -> In a (map co_doctor v) \/ In a (authors m).
Proof. unfold authors; simpl; rewrite !in_app_iff; tauto. Qed.

Lemma authors_with_diagnostics v m a :
  In a (authors (with_diagnostics v m)) -> In a (map dg_doctor v) \/ In a (authors m).
Proof. unfold authors; simpl; rewrite !in_app_iff; tauto. Qed.

Lemma authors_appointments m a : In a (map ap_doctor (appointments m)) -> In a (authors m).
Proof. unfold authors; rewrite !in_app_iff; tauto. Qed.

Lemma authors_prescriptions m a : In a (map pr_doctor (prescriptions m)) -> In a (authors m).
Proof. unfold authors; rewrite !in_app_iff; tauto. Qed.

Lemma authors_diseases m a : In a (map di_doctor (diseases m)) -> In a (authors m).
Proof. unfold authors; rewrite !in_app_iff; tauto. Qed.

Lemma authors_comments m a : In a (map co_doctor (comments m)) -> In a (authors m).
Proof. unfold authors; rewrite !in_app_iff; tauto. Qed.

Lemma authors_diagnostics m a : In a (map dg_doctor (diagnostics m)) -> In a (authors m).
Proof. unfold authors; rewrite !in_app_iff; tauto. Qed.

Lemma In_map_snoc {A B : Type} (f : A -> B) (l : list A) (e : A) (b : B) :
  In b (map f (l ++ [e])) -> In b (map f l) \/ b = f e.
Proof. rewrite map_app, in_app_iff. simpl. intuition. Qed.

Lemma In_map_deleteOne {A B : Type} (id : A -> ObjectId) (f : A -> B) i l b :
  In b (map f (deleteOne id i l)) -> In b (map f l).
Proof.
  rewrite !in_map_iff. intros (x & E & Hx). exists x.
  apply deleteOne_In in Hx. tauto.
Qed.

Lemma Inv_saveAndNotify_update m m' extra d p t ok s0 s :
  Inv s0 -> Inv s -> In m (medicalRecords s) -> authors_within m' m extra ->
  (forall a, extra = Some a -> hasAccess a (mr_patient m) s) ->
  Inv (snd (saveAndNotify false m' d p t ok s0 s)).
Proof.
  intros H0 H Hm (E1 & E2 & Ha) Hx. unfold saveAndNotify.
  destruct (MedicalRecord_save false m' s) as [s1|] eqn:Es; [|exact H0].
  assert (Inv s1).
  { eapply Inv_mr_update; eauto. intros a Hin. rewrite E2.
    destruct (Ha a Hin); [apply (inv_authors _ H); auto | auto]. }
  destruct (User_findById d s1); simpl; auto using Inv_createNotification.
  unfold notifyMedicalRecordUpdate. now apply Inv_createNotification.
Qed.

Lemma Inv_saveAndNotify_insert m' doctor d p t ok s0 s :
  Inv s0 -> Inv s -> mr_id m' < nextId s ->
  (forall x, In x (medicalRecords s) -> mr_id x < mr_id m') ->
  (forall a, In a (authors m') -> a = doctor) ->
  hasAccess doctor (mr_patient m') s ->
  Inv (snd (saveAndNotify true m' d p t ok s0 s)).
Proof.
  intros H0 H Hid Hfresh Ha Hacc. unfold saveAndNotify.
  destruct (MedicalRecord_save true m' s) as [s1|] eqn:Es; [|exact H0].
  assert (Inv s1).
  { eapply Inv_mr_insert; eauto. intros a Hin. now rewrite (Ha a Hin). }
  destruct (User_findById d s1); simpl; auto.
  unfold notifyMedicalRecordUpdate. now apply Inv_createNotification.
Qed.

(** The shape shared by the five append handlers. *)
Lemma Inv_append m isNew s1 m' doctor patientId t ok s :
  Inv s -> hasAccess doctor patientId s ->
  findOrNew patientId s = (m, isNew, s1) ->
  mr_id m' = mr_id m -> mr_patient m' = mr_patient m ->
  (forall a, In a (authors m') -> In a (authors m) \/ a = doctor) ->
  Inv (snd (saveAndNotify isNew m' doctor patientId t ok s (bump s1))).
Proof.
  intros H Hacc Hf E1 E2 E3. unfold findOrNew in Hf.
  destruct (MedicalRecord_findOne patientId s) as [m0|] eqn:Em;
    injection Hf as <- <- <-.
  - apply MedicalRecord_findOne_Some in Em as [Hin Ep].
    apply Inv_saveAndNotify_update with (m := m0) (extra := Some doctor);
      auto using Inv_bump.
    + repeat split; auto. intros a Ha. destruct (E3 a Ha); subst; auto.
    + intros a [= <-]. rewrite Ep. now apply hasAccess_ext with s.
  - apply Inv_saveAndNotify_insert with (doctor := doctor);
      auto using Inv_bump.
    + rewrite E1. simpl. lia.
    + rewrite E1. simpl. apply (inv_mr_fresh _ H).
    + intros a Ha. destruct (E3 a Ha) as [[]|]; auto.
    + rewrite E2. simpl. now apply hasAccess_ext with s.
Qed.

(** Case analysis along a handler: every test it makes is decided, with
    the outcome kept as an equation. *)
Ltac branch :=
  match goal with
  | |- context [match ?x with _ => _ end] =>
      lazymatch x with
      | context [match _ with _ => _ end] => fail
      | _ => destruct x eqn:?
      end
  end.

Ltac append_case lem_with lem_arr lem_new :=
  eapply Inv_append; eauto; simpl;
  [ apply acceptedRequest_hasAccess; eauto
  | let a := fresh "au" in
    let Ha := fresh "Hau" in
    intros a Ha; apply lem_with in Ha as [Ha|Ha]; auto;
    apply In_map_snoc in Ha as [Ha| ->];
    [ left; now apply lem_arr
    | right;
      match goal with
      | E : _ = Some _ |- _ => apply lem_new in E; tauto
      end ] ].

Ltac stored_record :=
  match goal with
  | E : MedicalRecord_findOne _ _ = Some _ |- _ =>
      apply MedicalRecord_findOne_Some in E as [? ?]
  end.

Ltac update_case lem_with lem_arr :=
  stored_record;
  eapply Inv_saveAndNotify_update with (extra := None); eauto;
  [ repeat split; auto; simpl;
    let a := fresh "au" in
    let Ha := fresh "Hau" in
    intros a Ha; left; apply lem_with in Ha as [Ha|Ha]; auto;
    apply lem_arr;
    first [ erewrite assign_map in Ha by (eauto; reflexivity); exact Ha
          | eapply In_map_deleteOne; exact Ha ]
  | discriminate ].

Lemma Inv_POST_appointment user patientId body s :
  Inv s -> Inv (snd (POST_appointment user patientId body s)).
Proof.
  intros H. unfold POST_appointment.
  repeat branch; simpl; auto;
    append_case authors_with_appointments authors_appointments new_Appointment_Some.
Qed.

Lemma Inv_PUT_appointment user patientId i body s :
  Inv s -> Inv (snd (PUT_appointment user patientId i body s)).
Proof.
  intros H. unfold PUT_appointment.
  repeat branch; simpl; auto;
    update_case authors_with_appointments authors_appointments.
Qed.

Lemma Inv_DELETE_appointment user patientId i s :
  Inv s -> Inv (snd (DELETE_appointment user patientId i s)).
Proof.
  intros H. unfold DELETE_appointment.
  repeat branch; simpl; auto;
    update_case authors_with_appointments authors_appointments.
Qed.

Lemma Inv_POST_prescription user patientId body s :
  Inv s -> Inv (snd (POST_prescription user patientId body s)).
Proof.
  intros H. unfold POST_prescription.
  repeat branch; simpl; auto.
  append_case authors_with_prescriptions authors_prescriptions new_Prescription_Some.
Qed.

Lemma Inv_PUT_prescription user patientId i body s :
  Inv s -> Inv (snd (PUT_prescription user patientId i body s)).
Proof.
  intros H. unfold PUT_prescription.
  repeat branch; simpl; auto;
    update_case authors_with_prescriptions authors_prescriptions.
Qed.

Lemma Inv_DELETE_prescription user patientId i s :
  Inv s -> Inv (snd (DELETE_prescription user patientId i s)).
Proof.
  intros H. unfold DELETE_prescription.
  repeat branch; simpl; auto;
    update_case authors_with_prescriptions authors_prescriptions.
Qed.

Lemma Inv_POST_disease user patientId body s :
  Inv s -> Inv (snd (POST_disease user patientId body s)).
Proof.
  intros H. unfold POST_disease.
  repeat branch; simpl; auto.
  append_case authors_with_diseases authors_diseases new_Disease_Some.
Qed.

Lemma Inv_PUT_disease user patientId i body s :
  Inv s -> Inv (snd (PUT_disease user patientId i body s)).
Proof.
  intros H. unfold PUT_disease.
  repeat branch; simpl; auto;
    update_case authors_with_diseases authors_diseases.
Qed.

Lemma Inv_DELETE_disease user patientId i s :
  Inv s -> Inv (snd (DELETE_disease user patientId i s)).
Proof.
  intros H. unfold DELETE_disease.
  repeat branch; simpl; auto;
    update_case authors_with_diseases authors_diseases.
Qed.

Lemma Inv_POST_comment user patientId body s :
  Inv s -> Inv (snd (POST_comment user patientId body s)).
Proof.
  intros H. unfold POST_comment.
  repeat branch; simpl; auto.
  append_case authors_with_comments authors_comments new_Comment_Some.
Qed.

Lemma Inv_PUT_comment user patientId i body s :
  Inv s -> Inv (snd (PUT_comment user patientId i body s)).
Proof.
  intros H. unfold PUT_comment.
  repeat branch; simpl; auto;
    update_case authors_with_comments authors_comments.
Qed.

Lemma Inv_DELETE_comment user patientId i s :
  Inv s -> Inv (snd (DELETE_comment user patientId i s)).
Proof.
  intros H. unfold DELETE_comment.
  repeat branch; simpl; auto;
    update_case authors_with_comments authors_comments.
Qed.

Lemma Inv_POST_diagnostic user patientId body s :
  Inv s -> Inv (snd (POST_diagnostic user patientId body s)).
Proof.
  intros H. unfold POST_diagnostic.
  repeat branch; simpl; auto.
  append_case authors_with_diagnostics authors_diagnostics new_Diagnostic_Some.
Qed.

Lemma Inv_PUT_diagnostic user patientId i body s :
  Inv s -> Inv (snd (PUT_diagnostic user patientId i body s)).
Proof.
  intros H. unfold PUT_diagnostic.
  repeat branch; simpl; auto;
    update_case authors_with_diagnostics authors_diagnostics.
Qed.

Lemma Inv_DELETE_diagnostic user patientId i s :
  Inv s -> Inv (snd (DELETE_diagnostic user patientId i s)).
Proof.
  intros H. unfold DELETE_diagnostic.
  repeat branch; simpl; auto;
    update_case authors_with_diagnostics authors_diagnostics.
Qed.

(** Creating the empty record of a patient who has none. *)
Lemma Inv_new_record s s' patientId :
  Inv s ->
  MedicalRecord_save true (new_MedicalRecord (nextId s) patientId) (bump s) = Some s' ->
  Inv s'.
Proof.
  intros H Hs.
  eapply Inv_mr_insert; [apply Inv_bump, H | | | | exact Hs]; simpl.
  - lia.
  - apply (inv_mr_fresh _ H).
  - contradiction.
Qed.

Lemma Inv_GET_medicalRecord user patientId s :
  Inv s -> Inv (snd (GET_medicalRecord user patientId s)).
Proof.
  intros H. unfold GET_medicalRecord.
  repeat branch; simpl; auto; eapply Inv_new_record; eauto.
Qed.

Ltac found :=
  repeat match goal with
         | E : findOne _ _ = Some _ |- _ => apply findOne_Some in E as [? ?]
         end.

Lemma Inv_POST_request_send user patientId s :
  Inv s -> Inv (snd (POST_request_send user patientId s)).
Proof.
  intros H. unfold POST_request_send.
  repeat branch; simpl; auto; found;
    unfold notifyDoctorRequest;
    repeat apply Inv_createNotification;
    try (apply Inv_dr_save; auto; left;
         match goal with
         | E : Status_eqb _ rejected = true |- _ =>
             apply Status_eqb_eq in E; congruence
         end);
    eapply Inv_dr_insert_fresh; eauto.
Qed.


Lemma Inv_PUT_request user requestId status s :
  Inv s -> Inv (snd (PUT_request user requestId status s)).
Proof.
  intros H. unfold PUT_request.
  destruct (negb (role user === "Patient")); [exact H|].
  destruct (negb (isDecision status)); [exact H|].
  destruct (findOne _ _) as [r|] eqn:Er; [|exact H].
  apply findOne_Some in Er as [Hin Hp]. apply andb3 in Hp as (_ & _ & Hp).
  apply Status_eqb_eq in Hp.
  assert (Inv (DoctorRequest_save (with_dr_status (decision status) r) s)) as H1
    by (apply Inv_dr_save; auto; left; congruence).
  repeat branch; simpl; auto;
    unfold notifyRequestAccepted, notifyRequestRejected;
    auto using Inv_createNotification.
  eapply Inv_new_record; [|eassumption].
  unfold notifyRequestAccepted; auto using Inv_createNotification.
Qed.

Lemma Inv_POST_invite user agent s :
  Inv s -> Inv (snd (POST_invite user agent s)).
Proof.
  intros H. unfold POST_invite.
  repeat branch; simpl; auto; found;
    repeat apply Inv_createNotification;
    try (apply Inv_da_save; auto);
    eapply Inv_da_insert_fresh; eauto.
Qed.

Lemma Inv_PUT_invitation user i status s :
  Inv s -> Inv (snd (PUT_invitation user i status s)).
Proof.
  intros H. unfold PUT_invitation.
  repeat branch; simpl; auto; found;
    repeat apply Inv_createNotification; apply Inv_da_save; auto.
Qed.

Lemma Inv_DELETE_receptionAgent user agent s :
  Inv s -> Inv (snd (DELETE_receptionAgent user agent s)).
Proof.
  intros H. unfold DELETE_receptionAgent.
  repeat branch; simpl; auto. eapply Inv_da_delete; eauto.
Qed.

Lemma Inv_POST_appointmentInvitation_send user d dt r s :
  Inv s -> Inv (snd (POST_appointmentInvitation_send user d dt r s)).
Proof.
  intros H. unfold POST_appointmentInvitation_send.
  repeat branch; simpl; auto;
    repeat apply Inv_createNotification; apply Inv_ai_insert, Inv_bump, H.
Qed.

Lemma hasAccess_insert s s' d :
  DoctorRequest_insert d s = Some s' -> dr_status d = accepted ->
  hasAccess (dr_doctor d) (dr_patient d) s'.
Proof.
  unfold DoctorRequest_insert. destruct (existsb _ _); [discriminate|].
  intros [= <-] Hs. exists d. simpl. rewrite in_app_iff. simpl. auto.
Qed.

Lemma hasAccess_save s d :
  In d (doctorRequests s) ->
  hasAccess (dr_doctor d) (dr_patient d)
    (DoctorRequest_save (with_dr_status accepted d) s).
Proof.
  intros Hin. exists (with_dr_status accepted d). simpl.
  repeat split; auto. eapply saveDoc_In; eauto.
Qed.

(** The three ways in which accepting an appointment invitation leaves an
    accepted DoctorRequest behind. *)
Lemma ensure_accepted doctor patientId s s' :
  Inv s ->
  match findOne (fun r => (dr_doctor r =? doctor) && (dr_patient r =? patientId))
                (doctorRequests s) with
  | None =>
      DoctorRequest_insert
        {| dr_id := nextId s; dr_doctor := doctor; dr_patient := patientId;
           dr_status := accepted |} (bump s)
  | Some doctorRequest =>
      if negb (Status_eqb (dr_status doctorRequest) accepted)
      then Some (DoctorRequest_save (with_dr_status accepted doctorRequest) s)
      else Some s
  end = Some s' ->
  Inv s' /\ hasAccess doctor patientId s'.
Proof.
  intros H. destruct (findOne _ _) as [r|] eqn:Er.
  - apply findOne_Some in Er as [Hin Hp]. apply andb_true_iff in Hp as [E1 E2].
    apply Nat.eqb_eq in E1, E2.
    destruct (Status_eqb (dr_status r) accepted) eqn:Es; simpl; intros [= <-].
    + split; [auto|]. apply Status_eqb_eq in Es. exists r. auto.
    + split; [apply Inv_dr_save; auto|].
      rewrite <- E1, <- E2. now apply hasAccess_save.
  - intros Hi. split; [eapply Inv_dr_insert_fresh; eauto|].
    apply hasAccess_insert in Hi; auto.
Qed.

Lemma Inv_PUT_appointmentInvitation user i status s :
  Inv s -> Inv (snd (PUT_appointmentInvitation user i status s)).
Proof.
  intros H. unfold PUT_appointmentInvitation.
  destruct (negb (role user === "Doctor")); [exact H|].
  destruct (negb (isDecision status)); [exact H|].
  destruct (findOne _ (appointmentInvitations s)) as [inv|]; [|exact H].
  destruct (negb (Status_eqb (ai_status inv) pending)); [exact H|].
  set (inv' := with_ai_status (decision status) inv).
  assert (Inv (AppointmentInvitation_save inv' s)) as H1 by now apply Inv_ai_save.
  set (s1 := AppointmentInvitation_save inv' s) in *.
  destruct (status === "accepted").
  2:{ destruct (User_findById _ _); simpl; auto using Inv_createNotification. }
  match goal with
  | |- context [match ?x with Some _ => _ | None => (serverError, s1) end] =>
      destruct x as [s2|] eqn:E2; [|exact H1]
  end.
  apply ensure_accepted in E2 as [H2 Hacc]; [|exact H1].
  destruct (MedicalRecord_findOne (ai_patient inv') s2) as [m|] eqn:Em.
  - apply MedicalRecord_findOne_Some in Em as [Hin Ep].
    destruct (new_Appointment _ _ _ _ _) as [e|] eqn:Ee; [|exact H2].
    destruct (MedicalRecord_save false _ _) as [s4|] eqn:E4; [|exact H2].
    assert (Inv s4).
    { eapply Inv_mr_update with (m := m); [apply Inv_bump, H2 | exact Hin | | | exact E4];
        [reflexivity|].
      simpl. intros a Ha. apply hasAccess_ext with s2; [reflexivity|].
      apply authors_with_appointments in Ha as [Ha|Ha].
      - apply In_map_snoc in Ha as [Ha| ->].
        + apply (inv_authors _ H2); auto. now apply authors_appointments.
        + apply new_Appointment_Some in Ee as [_ ->]. now rewrite Ep.
      - now apply (inv_authors _ H2). }
    destruct (User_findById _ _); simpl; auto using Inv_createNotification.
  - destruct (MedicalRecord_save true _ _) as [s3|] eqn:E3; [|exact H2].
    assert (Inv s3) as H3 by (eapply Inv_new_record; eauto).
    assert (doctorRequests s3 = doctorRequests s2 /\
            In (new_MedicalRecord (nextId s2) (ai_patient inv')) (medicalRecords s3))
      as [Ed Hin].
    { unfold MedicalRecord_save in E3. destruct (existsb _ _); [discriminate|].
      injection E3 as <-. simpl. rewrite in_app_iff. simpl. auto. }
    destruct (new_Appointment _ _ _ _ _) as [e|] eqn:Ee; [|exact H3].
    destruct (MedicalRecord_save false _ _) as [s4|] eqn:E4; [|exact H3].
    assert (Inv s4).
    { eapply Inv_mr_update; [apply Inv_bump, H3 | exact Hin | | | exact E4];
        [reflexivity|].
      simpl. intros a Ha. apply hasAccess_ext with s2; [exact Ed|].
      destruct Ha as [<-|[]].
      now apply new_Appointment_Some in Ee as [_ ->]. }
    destruct (User_findById _ _); simpl; auto using Inv_createNotification.
Qed.

(** ** Every reachable state satisfies the invariant *)

Lemma Inv_handle rq s : Inv s -> Inv (snd (handle rq s)).
Proof.
  intros H. destruct rq; simpl;
    auto using Inv_GET_medicalRecord, Inv_POST_appointment, Inv_PUT_appointment,
      Inv_DELETE_appointment, Inv_POST_prescription, Inv_PUT_prescription,
      Inv_DELETE_prescription, Inv_POST_disease, Inv_PUT_disease, Inv_DELETE_disease,
      Inv_POST_comment, Inv_PUT_comment, Inv_DELETE_comment, Inv_POST_diagnostic,
      Inv_PUT_diagnostic, Inv_DELETE_diagnostic, Inv_POST_request_send,
      Inv_PUT_request, Inv_POST_invite, Inv_PUT_invitation,
      Inv_DELETE_receptionAgent, Inv_POST_appointmentInvitation_send,
      Inv_PUT_appointmentInvitation, Inv_other.
Qed.

Lemma reachable_Inv s : reachable s -> Inv s.
Proof. induction 1; auto using Inv_empty, Inv_handle. Qed.

(** ** What a successful save leaves in the store *)

Lemma role_eqb (user : Actor) (r : string) : (role user === r) = true <-> role user = r.
Proof. apply String.eqb_eq. Qed.

Lemma saveAndNotify_update m m' d p t ok s u :
  MedicalRecord_findOne p s = Some m -> mr_id m' = mr_id m -> mr_patient m' = p ->
  User_findById d s = Some u ->
  exists s', saveAndNotify false m' d p t ok s s = (ok, s')
             /\ MedicalRecord_findOne p s' = Some m'
             /\ doctorRequests s' = doctorRequests s
             /\ doctorReceptionAgents s' = doctorReceptionAgents s.
Proof.
  intros Hm Hid Hp Hu. unfold saveAndNotify, MedicalRecord_save.
  unfold User_findById in *. simpl. rewrite Hu.
  eexists; split; [reflexivity|]. simpl. split; [|auto].
  unfold MedicalRecord_findOne in *. simpl.
  apply findOne_saveDoc with (x := m); auto. now apply Nat.eqb_eq.
Qed.

Lemma saveAndNotify_append m isNew s1 m' d p t ok s u :
  findOrNew p s = (m, isNew, s1) -> mr_id m' = mr_id m -> mr_patient m' = p ->
  User_findById d s = Some u ->
  exists s', saveAndNotify isNew m' d p t ok s (bump s1) = (ok, s')
             /\ MedicalRecord_findOne p s' = Some m'
             /\ doctorRequests s' = doctorRequests s
             /\ doctorReceptionAgents s' = doctorReceptionAgents s.
Proof.
  intros Hf Hid Hp Hu. unfold findOrNew in Hf.
  destruct (MedicalRecord_findOne p s) as [m0|] eqn:Em; injection Hf as <- <- <-.
  - unfold saveAndNotify, MedicalRecord_save.
    unfold User_findById in *. simpl. rewrite Hu.
    eexists; split; [reflexivity|]. simpl. split; [|auto].
    unfold MedicalRecord_findOne in *. simpl.
    apply findOne_saveDoc with (x := m0); auto. now apply Nat.eqb_eq.
  - unfold saveAndNotify, MedicalRecord_save. simpl.
    unfold MedicalRecord_findOne in Em. rewrite Hp.
    rewrite (findOne_existsb _ _ Em).
    unfold User_findById in *. simpl. rewrite Hu.
    eexists; split; [reflexivity|]. simpl. split; [|auto].
    unfold MedicalRecord_findOne. simpl.
    apply findOne_app_new; auto. now apply Nat.eqb_eq.
Qed.

(** ** Prescriptions belong to their author *)

(** C9. For a stored prescription, an update or a delete by a doctor other
    than its author is answered 403 and changes nothing, whatever access
    that doctor holds; whoever is answered 200 or changes the state is the
    authoring doctor; and the authoring doctor's update and delete go
    through. *)
Theorem C9_prescription_author_only
    (user : Actor) (patientId prescriptionId : ObjectId) (body : PrescriptionBody)
    (s : Store) (medicalRecord : MedicalRecord) (prescription : Prescription) :
  MedicalRecord_findOne patientId s = Some medicalRecord ->
  subdoc pr_id prescriptionId (prescriptions medicalRecord) = Some prescription ->
  (role user = "Doctor" -> userId user <> pr_doctor prescription ->
   PUT_prescription user patientId prescriptionId body s
   = (res 403 "You can only modify your own prescriptions", s)
   /\ DELETE_prescription user patientId prescriptionId s
      = (res 403 "You can only delete your own prescriptions", s))
  /\ (code (fst (PUT_prescription user patientId prescriptionId body s)) = 200
      \/ snd (PUT_prescription user patientId prescriptionId body s) <> s ->
      role user = "Doctor" /\ userId user = pr_doctor prescription)
  /\ (code (fst (DELETE_prescription user patientId prescriptionId s)) = 200
      \/ snd (DELETE_prescription user patientId prescriptionId s) <> s ->
      role user = "Doctor" /\ userId user = pr_doctor prescription)
  /\ (role user = "Doctor" -> userId user = pr_doctor prescription ->
      (exists u, User_findById (userId user) s = Some u) ->
      (exists s1 m1,
          PUT_prescription user patientId prescriptionId body s
          = (res 200 "Prescription updated successfully", s1)
          /\ MedicalRecord_findOne patientId s1 = Some m1
          /\ subdoc pr_id prescriptionId (prescriptions m1)
             = Some {| pr_id := pr_id prescription;
                       pr_doctor := pr_doctor prescription;
                       pr_medication :=
                         ifTruthy (b_medication body) (pr_medication prescription);
                       pr_dosage := ifTruthy (b_dosage body) (pr_dosage prescription);
                       pr_duration :=
                         ifDefined (b_duration body) (pr_duration prescription);
                       pr_instructions :=
                         ifDefined (b_instructions body)
                                   (pr_instructions prescription) |})
      /\ (exists s2 m2,
             DELETE_prescription user patientId prescriptionId s
             = (res 200 "Prescription deleted successfully", s2)
             /\ MedicalRecord_findOne patientId s2 = Some m2
             /\ subdoc pr_id prescriptionId (prescriptions m2) = None)).
Proof.
  intros Hm Hp.
  pose proof (MedicalRecord_findOne_Some _ _ _ Hm) as [_ Epat].
  pose proof (subdoc_Some _ _ _ _ Hp) as [_ Eid].
  unfold PUT_prescription, DELETE_prescription. rewrite Hm, Hp.
  destruct (String.eqb_spec (role user) "Doctor") as [Er|Nr]; simpl.
  2:{ split; [intros; first [congruence | split; reflexivity]|].
      split; [intros [?|?]; [discriminate | contradiction]|].
      split; [intros [?|?]; [discriminate | contradiction]|].
      intros; congruence. }
  destruct (Nat.eqb_spec (pr_doctor prescription) (userId user)) as [Ea|Na]; simpl.
  2:{ split; [intros; first [congruence | split; reflexivity]|].
      split; [intros [?|?]; [discriminate | contradiction]|].
      split; [intros [?|?]; [discriminate | contradiction]|].
      intros; congruence. }
  split; [intros _ N; congruence|].
  split; [auto|]. split; [auto|].
  intros _ _ [u Hu]. split.
  - edestruct saveAndNotify_update as (s1 & E1 & E2 & _);
      [exact Hm | | | exact Hu | ].
    3:{ eexists _, _. split; [exact E1|]. split; [exact E2|]. simpl.
        apply subdoc_assign with (e := prescription); auto. }
    all: simpl; auto.
  - edestruct saveAndNotify_update as (s1 & E1 & E2 & _);
      [exact Hm | | | exact Hu | ].
    3:{ eexists _, _. split; [exact E1|]. split; [exact E2|]. simpl.
        rewrite Eid. apply subdoc_deleteOne. }
    all: simpl; auto.
Qed.

Lemma C9_prescription_author_only_witness :
  MedicalRecord_findOne 103 clinic
  = Some {| mr_id := 1; mr_patient := 103; appointments := [];
            prescriptions :=
              [{| pr_id := 3; pr_doctor := 101; pr_medication := "Amoxicillin";
                  pr_dosage := "500mg"; pr_duration := Some "7 days";
                  pr_instructions := None |}];
            diseases := []; comments := []; diagnostics := [] |}
  /\ hasAccess 102 103 clinic
  /\ PUT_prescription drBilel 103 3 somePrescription clinic
     = (res 403 "You can only modify your own prescriptions", clinic)
  /\ DELETE_prescription drBilel 103 3 clinic
     = (res 403 "You can only delete your own prescriptions", clinic).
Proof.
  split; [reflexivity|].
  split.
  { exists {| dr_id := 2; dr_doctor := 102; dr_patient := 103; dr_status := accepted |}.
    vm_compute. auto. }
  refine (proj1 (C9_prescription_author_only drBilel 103 3 somePrescription clinic
                   _ _ eq_refl eq_refl) eq_refl _).
  simpl. discriminate.
Defined.

(** ** Reception agents *)

(** C8. A reception agent who names doctor D adds an appointment attributed
    to D to the patient's record when D delegated to the agent and D holds
    accepted access to the patient (given a date within the range of a
    JavaScript Date, a reason and D's account); when either relationship is
    missing the answer is 403 and nothing changes; and in every state the
    agent's attempt to add a prescription, a disease, a comment or a
    diagnostic is answered 403 and changes nothing. *)
Theorem C8_reception_agent_writes_appointments_only
    (user : Actor) (patientId D : ObjectId) (body : AppointmentBody) (s : Store) :
  role user = "Reception Agent" ->
  b_doctorId body = Some D ->
  (delegates D (userId user) s -> hasAccess D patientId s ->
   forall date reason u,
     b_date body = Some date -> validTime date = true ->
     requiredString (b_reason body) = Some reason ->
     User_findById D s = Some u ->
     exists s' m' i,
       POST_appointment user patientId body s
       = (res 201 "Appointment added successfully", s')
       /\ MedicalRecord_findOne patientId s' = Some m'
       /\ appointments m'
          = match MedicalRecord_findOne patientId s with
            | Some m => appointments m
            | None => []
            end
            ++ [{| ap_id := i; ap_doctor := D; ap_date := date; ap_reason := reason;
                   ap_notes := b_notes body |}])
  /\ (~ delegates D (userId user) s \/ ~ hasAccess D patientId s ->
      code (fst (POST_appointment user patientId body s)) = 403
      /\ snd (POST_appointment user patientId body s) = s)
  /\ (forall b, code (fst (POST_prescription user patientId b s)) = 403
                /\ snd (POST_prescription user patientId b s) = s)
  /\ (forall b, code (fst (POST_disease user patientId b s)) = 403
                /\ snd (POST_disease user patientId b s) = s)
  /\ (forall b, code (fst (POST_comment user patientId b s)) = 403
                /\ snd (POST_comment user patientId b s) = s)
  /\ (forall b, code (fst (POST_diagnostic user patientId b s)) = 403
                /\ snd (POST_diagnostic user patientId b s) = s).
Proof.
  intros Hr Hd.
  assert ((role user === "Doctor") = false) as Hnd
    by (rewrite Hr; reflexivity).
  assert ((role user === "Reception Agent") = true) as Hra
    by (rewrite Hr; reflexivity).
  split; [|split].
  - intros Hdel Hacc date reason u Hdate Hvalid Hreason Hu.
    apply acceptedInvitation_delegates in Hdel as [inv Hinv].
    apply acceptedRequest_hasAccess in Hacc as [rq Hrq].
    unfold POST_appointment. rewrite Hnd, Hra, Hd, Hinv, Hrq. simpl.
    destruct (findOrNew patientId s) as [[m isNew] s1] eqn:Ef.
    unfold new_Appointment. rewrite Hdate. cbn [option_map requiredDate castDate].
    rewrite Hvalid, Hreason.
    edestruct saveAndNotify_append as (s' & E1 & E2 & _);
      [exact Ef | | | exact Hu | ].
    3:{ eexists s', _, _. split; [exact E1|]. split; [exact E2|].
        simpl. unfold findOrNew in Ef.
        destruct (MedicalRecord_findOne patientId s);
          injection Ef as <- <- <-; reflexivity. }
    + reflexivity.
    + simpl. unfold findOrNew in Ef.
      destruct (MedicalRecord_findOne patientId s) as [m0|] eqn:Em;
        injection Ef as <- <- <-; simpl; auto.
      now apply MedicalRecord_findOne_Some in Em.
  - intros Hno. unfold POST_appointment. rewrite Hnd, Hra, Hd. simpl.
    destruct (acceptedInvitation (userId user) D s) eqn:Ei; [|simpl; auto].
    destruct (acceptedRequest D patientId s) eqn:Ea; [|simpl; auto].
    exfalso. destruct Hno as [N|N]; apply N.
    + apply acceptedInvitation_delegates; eauto.
    + apply acceptedRequest_hasAccess; eauto.
  - unfold POST_prescription, POST_disease, POST_comment, POST_diagnostic.
    rewrite Hnd. simpl. auto.
Qed.

Lemma C8_reception_agent_writes_appointments_only_witness :
  role dorra = "Reception Agent"
  /\ b_doctorId someAppointment = Some 101
  /\ delegates 101 104 clinic
  /\ hasAccess 101 103 clinic
  /\ (exists s' m' i,
         POST_appointment dorra 103 someAppointment clinic
         = (res 201 "Appointment added successfully", s')
         /\ MedicalRecord_findOne 103 s' = Some m'
         /\ appointments m'
            = [{| ap_id := i; ap_doctor := 101; ap_date := 1767225600000%Z;
                  ap_reason := "Follow-up"; ap_notes := None |}])
  /\ code (fst (POST_prescription dorra 103 somePrescription clinic)) = 403.
Proof.
  assert (delegates 101 104 clinic) as Hdel.
  { exists {| da_id := 4; da_doctor := 101; da_receptionAgent := 104;
              da_status := accepted |}. vm_compute. auto. }
  assert (hasAccess 101 103 clinic) as Hacc.
  { exists {| dr_id := 0; dr_doctor := 101; dr_patient := 103; dr_status := accepted |}.
    vm_compute. auto. }
  pose proof (C8_reception_agent_writes_appointments_only
                dorra 103 101 someAppointment clinic eq_refl eq_refl)
    as (Hadd & _ & Hpr & _).
  split; [reflexivity|]. split; [reflexivity|].
  split; [exact Hdel|]. split; [exact Hacc|].
  split; [exact (Hadd Hdel Hacc _ _ _ eq_refl eq_refl eq_refl eq_refl) | apply Hpr].
Defined.

(** ** Accepting an appointment invitation *)

Lemma with_dr_status_same r : dr_status r = accepted -> with_dr_status accepted r = r.
Proof. destruct r; unfold with_dr_status; simpl; congruence. Qed.

Lemma requiredString_nonempty v : v <> "" -> requiredString (Some v) = Some v.
Proof.
  intros N. unfold requiredString.
  destruct (String.eqb_spec v ""); [contradiction | reflexivity].
Qed.

(** C2. When a doctor accepts a pending appointment invitation of patient P,
    an accepted DoctorRequest (doctor, P) is stored afterwards: a fresh one
    if the pair had none, the existing one set to accepted otherwise and no
    other added; P's medical record exists, and its appointments are the
    former ones followed by one authored by that doctor with the
    invitation's date and reason. *)
Theorem C2_accepting_invitation_grants_access
    (user : Actor) (invitationId : ObjectId) (s : Store)
    (invitation : AppointmentInvitation) :
  role user = "Doctor" ->
  findOne (fun i => (ai_id i =? invitationId) && (ai_doctor i =? userId user))
          (appointmentInvitations s) = Some invitation ->
  ai_status invitation = pending ->
  ai_reason invitation <> "" ->
  let s' := snd (PUT_appointmentInvitation user invitationId "accepted" s) in
  let forPair := fun r => (dr_doctor r =? userId user)
                       && (dr_patient r =? ai_patient invitation) in
  hasAccess (userId user) (ai_patient invitation) s'
  /\ match findOne forPair (doctorRequests s) with
     | None =>
         doctorRequests s'
         = doctorRequests s
           ++ [{| dr_id := nextId s; dr_doctor := userId user;
                  dr_patient := ai_patient invitation; dr_status := accepted |}]
     | Some r =>
         findOne forPair (doctorRequests s') = Some (with_dr_status accepted r)
         /\ map dr_id (doctorRequests s') = map dr_id (doctorRequests s)
     end
  /\ (exists m' i,
         MedicalRecord_findOne (ai_patient invitation) s' = Some m'
         /\ appointments m'
            = match MedicalRecord_findOne (ai_patient invitation) s with
              | Some m => appointments m
              | None => []
              end
              ++ [{| ap_id := i; ap_doctor := userId user;
                     ap_date := ai_appointmentDate invitation;
                     ap_reason := ai_reason invitation; ap_notes := None |}])
  /\ (forall u, User_findById (userId user) s = Some u ->
                fst (PUT_appointmentInvitation user invitationId "accepted" s)
                = res 200 "Invitation accepted").
Proof.
  intros Hr Hinv Hst Hreason s' forPair. subst s'.
  unfold PUT_appointmentInvitation.
  rewrite Hr, Hinv, Hst. simpl negb. cbv iota.
  change (isDecision "accepted") with true. simpl negb. cbv iota.
  change ("accepted" === "accepted") with true. cbv iota.
  change (decision "accepted") with accepted.
  change (ai_patient (with_ai_status accepted invitation)) with (ai_patient invitation).
  change (ai_appointmentDate (with_ai_status accepted invitation))
    with (ai_appointmentDate invitation).
  change (ai_reason (with_ai_status accepted invitation)) with (ai_reason invitation).
  set (s1 := AppointmentInvitation_save (with_ai_status accepted invitation) s).
  change (doctorRequests s1) with (doctorRequests s).
  change (nextId s1) with (nextId s).
  fold forPair.
  unfold new_Appointment. rewrite (requiredString_nonempty _ Hreason).
  unfold MedicalRecord_save, DoctorRequest_insert, MedicalRecord_findOne,
    User_findById, createNotification.
  subst s1.
  assert (Hex : findOne forPair (doctorRequests s) = None ->
                existsb forPair (doctorRequests s) = false)
    by apply findOne_existsb.
  assert (Hmx : findOne (fun m => mr_patient m =? ai_patient invitation)
                        (medicalRecords s) = None ->
                existsb (fun m => mr_patient m =? ai_patient invitation)
                        (medicalRecords s) = false)
    by apply findOne_existsb.
  destruct (findOne forPair (doctorRequests s)) as [r|] eqn:Ep;
    [destruct (Status_eqb (dr_status r) accepted) eqn:Es|];
    cbn [negb doctorRequests medicalRecords users nextId bump set_doctorRequests
         DoctorRequest_save AppointmentInvitation_save set_appointmentInvitations
         set_medicalRecords set_notifications dr_doctor dr_patient mr_patient
         new_MedicalRecord snd fst];
    fold forPair; rewrite ?Hex by reflexivity;
    cbn [negb doctorRequests medicalRecords users nextId bump set_doctorRequests
         DoctorRequest_save AppointmentInvitation_save set_appointmentInvitations
         set_medicalRecords set_notifications dr_doctor dr_patient mr_patient
         new_MedicalRecord snd fst];
    destruct (findOne (fun m => mr_patient m =? ai_patient invitation)
                      (medicalRecords s)) as [m|] eqn:Em;
    rewrite ?Hmx by reflexivity;
    cbn [negb doctorRequests medicalRecords users nextId bump set_doctorRequests
         DoctorRequest_save AppointmentInvitation_save set_appointmentInvitations
         set_medicalRecords set_notifications dr_doctor dr_patient mr_patient
         new_MedicalRecord snd fst].
  all: destruct (findOne (fun u => u_id u =? userId user) (users s)) eqn:Eu;
    cbn [negb doctorRequests medicalRecords users nextId bump set_doctorRequests
         DoctorRequest_save AppointmentInvitation_save set_appointmentInvitations
         set_medicalRecords set_notifications dr_doctor dr_patient mr_patient
         new_MedicalRecord snd fst].
  all: try (apply findOne_Some in Ep as Hp; destruct Hp as [Hin Hp];
            apply andb_true_iff in Hp as [Hp1 Hp2];
            apply Nat.eqb_eq in Hp1, Hp2).
  all: split;
    [ (* accepted access *)
      first
        [ apply Status_eqb_eq in Es; exists r; cbn; now auto
        | exists (with_dr_status accepted r);
          split; [|cbn; now auto];
          cbn [doctorRequests medicalRecords users nextId bump set_doctorRequests
               DoctorRequest_save AppointmentInvitation_save
               set_appointmentInvitations set_medicalRecords set_notifications];
          eapply saveDoc_In; [exact Hin | reflexivity]
        | eexists; cbn; rewrite in_app_iff; cbn; now eauto 6 ] | ].
  all: split;
      [ (* the request for the pair *)
        first
          [ reflexivity
          | apply Status_eqb_eq in Es; rewrite (with_dr_status_same _ Es);
            split; [exact Ep | reflexivity]
          | split; [|apply saveDoc_ids];
            apply findOne_saveDoc with (x := r); auto;
            unfold forPair; cbn; rewrite Hp1, Hp2, !Nat.eqb_refl; reflexivity ] | ].
  all: split;
        [ (* the record and its new appointment *)
          eexists _, _; split;
          [ first
              [ apply findOne_saveDoc with (x := m); auto;
                cbn; apply findOne_Some in Em; tauto
              | eapply findOne_saveDoc;
                [ apply findOne_app_new; [exact Em | cbn; apply Nat.eqb_refl]
                | reflexivity | cbn; apply Nat.eqb_refl ] ]
          | reflexivity ]
        | (* the answer *)
          intros u' Hu; first [reflexivity | congruence] ].
Qed.

Lemma C2_accepting_invitation_grants_access_witness :
  role drAmel = "Doctor"
  /\ findOne (fun i => (ai_id i =? 0) && (ai_doctor i =? userId drAmel))
             (appointmentInvitations invited)
     = Some {| ai_id := 0; ai_patient := 103; ai_doctor := 101;
               ai_appointmentDate := 1767225600000%Z;
               ai_reason := "Annual check-up"; ai_status := pending |}
  /\ doctorRequests invited = []
  /\ medicalRecords invited = []
  /\ hasAccess 101 103 (snd (PUT_appointmentInvitation drAmel 0 "accepted" invited))
  /\ hasRecord 103 (snd (PUT_appointmentInvitation drAmel 0 "accepted" invited)).
Proof.
  split; [reflexivity|]. split; [reflexivity|].
  split; [reflexivity|]. split; [reflexivity|].
  assert ("Annual check-up" <> "") as N by discriminate.
  pose proof (C2_accepting_invitation_grants_access drAmel 0 invited _
                eq_refl eq_refl eq_refl N) as (H1 & _ & (m & i & H2 & _) & _).
  split; [exact H1|].
  apply MedicalRecord_findOne_hasRecord. exists m. exact H2.
Defined.

(** ** Responding to a doctor's access request *)





(** ** Creating a relationship *)




Lemma reachable_run rqs s : reachable s -> reachable (run rqs s).
Proof.
  unfold run. revert s. induction rqs as [|rq rqs IH]; simpl; intros s H; [exact H|].
  apply IH. now constructor.
Qed.

Lemma reachable_registered : reachable registered.
Proof. apply reachable_run. constructor. Qed.

Lemma reachable_clinic : reachable clinic.
Proof. apply reachable_run, reachable_registered. Qed.

Lemma reachable_requested : reachable requested.
Proof. apply reachable_run, reachable_registered. Qed.


(** ** Medical records come and stay *)

Lemma hasRecord_patientsOf p s : hasRecord p s <-> In p (patientsOf s).
Proof.
  unfold hasRecord, patientsOf. rewrite in_map_iff. split.
  - intros (m & H1 & H2). eauto.
  - intros (m & H1 & H2). eauto.
Qed.

Lemma grows_same c s s' : medicalRecords s' = medicalRecords s -> grows c s s'.
Proof. intros E. left. unfold patientsOf. now rewrite E. Qed.

Lemma findOne_not_patient p s :
  MedicalRecord_findOne p s = None -> ~ In p (patientsOf s).
Proof.
  intros E H. apply hasRecord_patientsOf, MedicalRecord_findOne_hasRecord in H as [m H].
  congruence.
Qed.

Lemma patientsOf_saveDoc s m m' :
  Inv s -> In m (medicalRecords s) -> mr_id m' = mr_id m ->
  mr_patient m' = mr_patient m ->
  map mr_patient (saveDoc mr_id m' (medicalRecords s)) = patientsOf s.
Proof.
  intros H Hin E1 E2. apply saveDoc_map with (x := m); auto using inv_mr_ids.
Qed.

Lemma grows_saveAndNotify_update c m m' d p t ok s :
  Inv s -> In m (medicalRecords s) -> mr_id m' = mr_id m ->
  mr_patient m' = mr_patient m ->
  grows c s (snd (saveAndNotify false m' d p t ok s s)).
Proof.
  intros H Hin E1 E2. left. unfold saveAndNotify, MedicalRecord_save.
  destruct (User_findById _ _); simpl; unfold patientsOf at 1; simpl;
    eapply patientsOf_saveDoc; eauto.
Qed.

Lemma grows_append m isNew s1 m' d p t ok s :
  Inv s -> findOrNew p s = (m, isNew, s1) ->
  mr_id m' = mr_id m -> mr_patient m' = mr_patient m ->
  grows (Some p) s (snd (saveAndNotify isNew m' d p t ok s (bump s1))).
Proof.
  intros H Hf E1 E2. unfold findOrNew in Hf.
  destruct (MedicalRecord_findOne p s) as [m0|] eqn:Em; injection Hf as <- <- <-.
  - apply MedicalRecord_findOne_Some in Em as [Hin _].
    left. unfold saveAndNotify, MedicalRecord_save.
    destruct (User_findById _ _); simpl; unfold patientsOf at 1; simpl;
      eapply patientsOf_saveDoc; eauto.
  - unfold saveAndNotify, MedicalRecord_save. simpl.
    destruct (existsb _ _); [now left|].
    right. exists p. split; [reflexivity|]. split; [now apply findOne_not_patient|].
    simpl in E2.
    destruct (User_findById _ _); simpl; unfold patientsOf at 1; simpl;
      rewrite map_app; simpl; now rewrite E2.
Qed.

Lemma grows_new_record s s' p :
  MedicalRecord_findOne p s = None ->
  MedicalRecord_save true (new_MedicalRecord (nextId s) p) (bump s) = Some s' ->
  ~ In p (patientsOf s) /\ patientsOf s' = patientsOf s ++ [p].
Proof.
  intros Em Hs. split; [now apply findOne_not_patient|].
  unfold MedicalRecord_save in Hs. destruct (existsb _ _); [discriminate|].
  injection Hs as <-. unfold patientsOf. simpl. now rewrite map_app.
Qed.

Lemma ensure_accepted_records doctor patientId s s' :
  match findOne (fun r => (dr_doctor r =? doctor) && (dr_patient r =? patientId))
                (doctorRequests s) with
  | None =>
      DoctorRequest_insert
        {| dr_id := nextId s; dr_doctor := doctor; dr_patient := patientId;
           dr_status := accepted |} (bump s)
  | Some doctorRequest =>
      if negb (Status_eqb (dr_status doctorRequest) accepted)
      then Some (DoctorRequest_save (with_dr_status accepted doctorRequest) s)
      else Some s
  end = Some s' ->
  medicalRecords s' = medicalRecords s.
Proof.
  unfold DoctorRequest_insert.
  repeat branch; intros [= <-]; reflexivity.
Qed.

Lemma update_patients s s' m m' :
  Inv s -> In m (medicalRecords s) -> mr_id m' = mr_id m ->
  mr_patient m' = mr_patient m ->
  MedicalRecord_save false m' (bump s) = Some s' ->
  patientsOf s' = patientsOf s.
Proof.
  intros H Hin E1 E2 [= <-]. unfold patientsOf at 1. simpl.
  eapply patientsOf_saveDoc; eauto.
Qed.

Lemma grows_PUT_appointmentInvitation user i status s :
  Inv s ->
  grows (mayCreateRecordFor (PutAppointmentInvitation user i status) s) s
        (snd (PUT_appointmentInvitation user i status s)).
Proof.
  intros H. unfold PUT_appointmentInvitation, mayCreateRecordFor.
  destruct (negb (role user === "Doctor")); [now left|].
  destruct (negb (isDecision status)); [now left|].
  destruct (findOne _ (appointmentInvitations s)) as [inv|]; [|now left].
  destruct (negb (Status_eqb (ai_status inv) pending)); [now left|].
  set (inv' := with_ai_status (decision status) inv).
  assert (Inv (AppointmentInvitation_save inv' s)) as H1 by now apply Inv_ai_save.
  set (s1 := AppointmentInvitation_save inv' s) in *.
  assert (patientsOf s1 = patientsOf s) as P1 by reflexivity.
  destruct (status === "accepted").
  2:{ destruct (User_findById _ _); now left. }
  change (option_map ai_patient (Some inv)) with (Some (ai_patient inv')).
  assert (ai_patient inv' = ai_patient inv) as Epat by reflexivity.
  match goal with
  | |- context [match ?x with Some _ => _ | None => (serverError, s1) end] =>
      destruct x as [s2|] eqn:E2; [|now left]
  end.
  pose proof (ensure_accepted_records _ _ _ _ E2) as R2.
  apply ensure_accepted in E2 as [H2 _]; [|exact H1].
  assert (patientsOf s2 = patientsOf s) as P2
    by (unfold patientsOf; now rewrite R2).
  destruct (MedicalRecord_findOne (ai_patient inv') s2) as [m|] eqn:Em.
  - apply MedicalRecord_findOne_Some in Em as [Hin Ep].
    destruct (new_Appointment _ _ _ _ _) as [e|]; [|now left].
    destruct (MedicalRecord_save false _ _) as [s4|] eqn:E4; [|now left].
    apply update_patients with (m := m) in E4; auto.
    left. destruct (User_findById _ _); simpl; unfold patientsOf in *; simpl;
      congruence.
  - destruct (MedicalRecord_save true _ _) as [s3|] eqn:E3; [|now left].
    assert (Inv s3) as H3 by (eapply Inv_new_record; eauto).
    pose proof (grows_new_record _ _ _ Em E3) as [N3 P3].
    assert (In (new_MedicalRecord (nextId s2) (ai_patient inv')) (medicalRecords s3))
      as Hin.
    { unfold MedicalRecord_save in E3. destruct (existsb _ _); [discriminate|].
      injection E3 as <-. simpl. rewrite in_app_iff. simpl. auto. }
    right. exists (ai_patient inv'). split; [reflexivity|].
    split; [now rewrite <- P2|].
    destruct (new_Appointment _ _ _ _ _) as [e|]; [|simpl; congruence].
    destruct (MedicalRecord_save false _ _) as [s4|] eqn:E4; [|simpl; congruence].
    apply update_patients with (m := new_MedicalRecord (nextId s2) (ai_patient inv'))
      in E4; auto.
    destruct (User_findById _ _); simpl; unfold patientsOf in *; simpl; congruence.
Qed.

Ltac same_records := apply grows_same; reflexivity.

Ltac grows_update :=
  stored_record; eapply grows_saveAndNotify_update; eauto.

Lemma grows_handle rq s :
  Inv s -> grows (mayCreateRecordFor rq s) s (snd (handle rq s)).
Proof.
  intros H. destruct rq; simpl.
  - (* GET /:patientId *)
    unfold GET_medicalRecord. repeat branch; simpl; try same_records.
    all: right; eexists; split; [reflexivity|];
      eapply grows_new_record; eauto.
  - unfold POST_appointment. repeat branch; simpl; try same_records;
      eapply grows_append; eauto.
  - unfold PUT_appointment. repeat branch; simpl; try same_records; grows_update.
  - unfold DELETE_appointment. repeat branch; simpl; try same_records; grows_update.
  - unfold POST_prescription. repeat branch; simpl; try same_records;
      eapply grows_append; eauto.
  - unfold PUT_prescription. repeat branch; simpl; try same_records; grows_update.
  - unfold DELETE_prescription. repeat branch; simpl; try same_records; grows_update.
  - unfold POST_disease. repeat branch; simpl; try same_records;
      eapply grows_append; eauto.
  - unfold PUT_disease. repeat branch; simpl; try same_records; grows_update.
  - unfold DELETE_disease. repeat branch; simpl; try same_records; grows_update.
  - unfold POST_comment. repeat branch; simpl; try same_records;
      eapply grows_append; eauto.
  - unfold PUT_comment. repeat branch; simpl; try same_records; grows_update.
  - unfold DELETE_comment. repeat branch; simpl; try same_records; grows_update.
  - unfold POST_diagnostic. repeat branch; simpl; try same_records;
      eapply grows_append; eauto.
  - unfold PUT_diagnostic. repeat branch; simpl; try same_records; grows_update.
  - unfold DELETE_diagnostic. repeat branch; simpl; try same_records; grows_update.
  - unfold POST_request_send, DoctorRequest_insert.
    repeat branch; simpl; try same_records.
    all: match goal with E : Some _ = Some _ |- _ => injection E as <- end;
      same_records.
  - (* PUT /request/:requestId *)
    unfold PUT_request. repeat branch; simpl; try same_records.
    right. eexists; split; [reflexivity|].
    match goal with
    | E : MedicalRecord_save true _ _ = Some _ |- _ =>
        eapply grows_new_record in E as [E1 E2]; [|eassumption]
    end.
    split; [exact E1 | exact E2].
  - unfold POST_invite, DoctorReceptionAgent_insert.
    repeat branch; simpl; try same_records.
    all: match goal with E : Some _ = Some _ |- _ => injection E as <- end;
      same_records.
  - unfold PUT_invitation. repeat branch; simpl; same_records.
  - unfold DELETE_receptionAgent. repeat branch; simpl; same_records.
  - unfold POST_appointmentInvitation_send. repeat branch; simpl; same_records.
  - apply grows_PUT_appointmentInvitation, H.
  - same_records.
Qed.

(** C10, as stated, fails: the patient's fetch of their own record, in a
    state where they have none, is answered 200 and saves a new empty
    record. *)
Lemma C10_fetch_creates_record :
  reachable registered
  /\ ~ hasRecord 103 registered
  /\ fst (GET_medicalRecord chokri 103 registered) = res 200 ""
  /\ hasRecord 103 (snd (GET_medicalRecord chokri 103 registered))
  /\ snd (GET_medicalRecord chokri 103 registered) <> registered.
Proof.
  split; [exact reachable_registered|].
  split; [intros (m & [] & _)|].
  split; [reflexivity|].
  split; [|discriminate].
  exists (new_MedicalRecord 0 103). simpl. auto.
Qed.

(** C10, amended.  In every reachable state and for every request: a
    patient who has a medical record still has one afterwards; a record
    appears only for the patient whose record is fetched or written to, who
    accepts a doctor's request, or whose appointment invitation a doctor
    accepts; fetching a record that exists, or being denied the fetch,
    changes nothing; and a granted fetch of a record that does not exist
    creates it. *)
Theorem C10_records_created_lazily_never_deleted (s : Store) (rq : Request) :
  reachable s ->
  (forall p, hasRecord p s -> hasRecord p (snd (handle rq s)))
  /\ (forall p, ~ hasRecord p s -> hasRecord p (snd (handle rq s)) ->
                mayCreateRecordFor rq s = Some p)
  /\ (forall user p, hasRecord p s -> snd (GET_medicalRecord user p s) = s)
  /\ (forall user p, code (fst (GET_medicalRecord user p s)) = 403 ->
                     snd (GET_medicalRecord user p s) = s)
  /\ (forall user p, ~ hasRecord p s ->
                     code (fst (GET_medicalRecord user p s)) = 200 ->
                     hasRecord p (snd (GET_medicalRecord user p s))).
Proof.
  intros Hs. pose proof (reachable_Inv _ Hs) as H.
  pose proof (grows_handle rq s H) as G.
  split; [|split; [|split; [|split]]].
  - intros p Hp. apply hasRecord_patientsOf in Hp. apply hasRecord_patientsOf.
    destruct G as [->|(q & _ & _ & ->)]; [auto|].
    apply in_app_iff. auto.
  - intros p Hn Hp. apply hasRecord_patientsOf in Hp.
    rewrite hasRecord_patientsOf in Hn.
    destruct G as [E|(q & Ec & _ & E)]; rewrite E in Hp; [contradiction|].
    apply in_app_iff in Hp as [Hp|[<-|[]]]; [contradiction | exact Ec].
  - intros user p Hp. apply MedicalRecord_findOne_hasRecord in Hp as [m Hm].
    unfold GET_medicalRecord. rewrite Hm. repeat branch; reflexivity.
  - intros user p. unfold GET_medicalRecord.
    repeat branch; simpl; intros; try reflexivity; discriminate.
  - intros user p Hn. unfold GET_medicalRecord.
    repeat branch; simpl; intros; try discriminate.
    all: first
      [ exfalso; apply Hn; apply MedicalRecord_findOne_hasRecord; now eauto
      | match goal with
        | E : MedicalRecord_save true _ _ = Some _,
          E' : MedicalRecord_findOne _ _ = None |- _ =>
            destruct (grows_new_record _ _ _ E' E) as [_ P]
        end;
        apply hasRecord_patientsOf; rewrite P; apply in_app_iff; simpl; auto ].
Qed.

Lemma C10_records_created_lazily_never_deleted_witness :
  reachable clinic
  /\ hasRecord 103 clinic
  /\ hasRecord 103 (snd (handle (DeletePrescription drAmel 103 3) clinic))
  /\ snd (GET_medicalRecord drBilel 103 clinic) = clinic.
Proof.
  assert (hasRecord 103 clinic) as Hrec.
  { apply MedicalRecord_findOne_hasRecord. eexists. reflexivity. }
  pose proof (C10_records_created_lazily_never_deleted
                clinic (DeletePrescription drAmel 103 3) reachable_clinic)
    as (Hkeep & _ & Hget & _).
  split; [exact reachable_clinic|]. split; [exact Hrec|].
  split; [exact (Hkeep 103 Hrec) | exact (Hget drBilel 103 Hrec)].
Defined.

(** ** The gate in front of every sub-entry mutation *)

Lemma author_access {A : Type} (id doctor : A -> ObjectId) (arr : list A) s p m i e :
  Inv s -> MedicalRecord_findOne p s = Some m ->
  (forall a, In a (map doctor arr) -> In a (authors m)) ->
  subdoc id i arr = Some e ->
  hasAccess (doctor e) p s.
Proof.
  intros H Hm Harr He.
  apply MedicalRecord_findOne_Some in Hm as [Hin <-].
  apply subdoc_Some in He as [He _].
  apply (inv_authors _ H); auto. apply Harr. now apply in_map.
Qed.

Ltac roles user :=
  destruct (String.eqb_spec (role user) "Doctor");
  destruct (String.eqb_spec (role user) "Reception Agent");
  cbn [negb andb].

Ltac refuse := right; split; [reflexivity | cbn; solve [auto]].

Ltac doctor_with_access :=
  left; left; split; [assumption|]; apply acceptedRequest_hasAccess; eauto.

Ltac author_with_access lem_arr :=
  left; left; split; [assumption|];
  match goal with
  | E : negb (_ =? _) = false |- _ =>
      apply negb_false_iff, Nat.eqb_eq in E; rewrite <- E
  end;
  eapply author_access; [eassumption | eassumption | apply lem_arr | eassumption].

Lemma gate_POST_appointment user p body s r s' :
  Inv s -> POST_appointment user p body s = (r, s') ->
  mayWrite user p true s \/ refused r s s'.
Proof.
  intros H. unfold POST_appointment. roles user.
  all: repeat branch;
    (let E := fresh "Eout" in intros E; try (injection E as <- <-));
    try congruence; try refuse; try doctor_with_access.
  all: left; right; split; [reflexivity|]; split; [assumption|];
    eexists; split;
    [ apply acceptedInvitation_delegates; eauto
    | apply acceptedRequest_hasAccess; eauto ].
Qed.

Ltac agent_through_author :=
  left; right; split; [reflexivity|]; split; [assumption|];
  eexists; split;
  [ apply acceptedInvitation_delegates; eauto
  | eapply author_access;
    [eassumption | eassumption | apply authors_appointments | eassumption] ].

Ltac gate_cases user :=
  roles user;
  repeat branch;
  (let E := fresh "Eout" in intros E; try (injection E as <- <-));
  try congruence; try refuse.

Lemma gate_PUT_appointment user p i body s r s' :
  Inv s -> PUT_appointment user p i body s = (r, s') ->
  mayWrite user p true s \/ refused r s s'.
Proof.
  intros H. unfold PUT_appointment. gate_cases user.
  all: first [author_with_access authors_appointments | agent_through_author].
Qed.

Lemma gate_DELETE_appointment user p i s r s' :
  Inv s -> DELETE_appointment user p i s = (r, s') ->
  mayWrite user p true s \/ refused r s s'.
Proof.
  intros H. unfold DELETE_appointment. gate_cases user.
  all: first [author_with_access authors_appointments | agent_through_author].
Qed.

Lemma gate_POST_prescription user p body s r s' :
  Inv s -> POST_prescription user p body s = (r, s') ->
  mayWrite user p false s \/ refused r s s'.
Proof.
  intros H. unfold POST_prescription. gate_cases user. all: doctor_with_access.
Qed.

Lemma gate_PUT_prescription user p i body s r s' :
  Inv s -> PUT_prescription user p i body s = (r, s') ->
  mayWrite user p false s \/ refused r s s'.
Proof.
  intros H. unfold PUT_prescription. gate_cases user.
  all: author_with_access authors_prescriptions.
Qed.

Lemma gate_DELETE_prescription user p i s r s' :
  Inv s -> DELETE_prescription user p i s = (r, s') ->
  mayWrite user p false s \/ refused r s s'.
Proof.
  intros H. unfold DELETE_prescription. gate_cases user.
  all: author_with_access authors_prescriptions.
Qed.

Lemma gate_POST_disease user p body s r s' :
  Inv s -> POST_disease user p body s = (r, s') ->
  mayWrite user p false s \/ refused r s s'.
Proof.
  intros H. unfold POST_disease. gate_cases user. all: doctor_with_access.
Qed.

Lemma gate_PUT_disease user p i body s r s' :
  Inv s -> PUT_disease user p i body s = (r, s') ->
  mayWrite user p false s \/ refused r s s'.
Proof.
  intros H. unfold PUT_disease. gate_cases user.
  all: author_with_access authors_diseases.
Qed.

Lemma gate_DELETE_disease user p i s r s' :
  Inv s -> DELETE_disease user p i s = (r, s') ->
  mayWrite user p false s \/ refused r s s'.
Proof.
  intros H. unfold DELETE_disease. gate_cases user.
  all: author_with_access authors_diseases.
Qed.

Lemma gate_POST_comment user p body s r s' :
  Inv s -> POST_comment user p body s = (r, s') ->
  mayWrite user p false s \/ refused r s s'.
Proof.
  intros H. unfold POST_comment. gate_cases user. all: doctor_with_access.
Qed.

Lemma gate_PUT_comment user p i body s r s' :
  Inv s -> PUT_comment user p i body s = (r, s') ->
  mayWrite user p false s \/ refused r s s'.
Proof.
  intros H. unfold PUT_comment. gate_cases user.
  all: author_with_access authors_comments.
Qed.

Lemma gate_DELETE_comment user p i s r s' :
  Inv s -> DELETE_comment user p i s = (r, s') ->
  mayWrite user p false s \/ refused r s s'.
Proof.
  intros H. unfold DELETE_comment. gate_cases user.
  all: author_with_access authors_comments.
Qed.

Lemma gate_POST_diagnostic user p body s r s' :
  Inv s -> POST_diagnostic user p body s = (r, s') ->
  mayWrite user p false s \/ refused r s s'.
Proof.
  intros H. unfold POST_diagnostic. gate_cases user. all: doctor_with_access.
Qed.

Lemma gate_PUT_diagnostic user p i body s r s' :
  Inv s -> PUT_diagnostic user p i body s = (r, s') ->
  mayWrite user p false s \/ refused r s s'.
Proof.
  intros H. unfold PUT_diagnostic. gate_cases user.
  all: author_with_access authors_diagnostics.
Qed.

Lemma gate_DELETE_diagnostic user p i s r s' :
  Inv s -> DELETE_diagnostic user p i s = (r, s') ->
  mayWrite user p false s \/ refused r s s'.
Proof.
  intros H. unfold DELETE_diagnostic. gate_cases user.
  all: author_with_access authors_diagnostics.
Qed.

Lemma gate_handle rq s u p appt r s' :
  Inv s -> mutation rq = Some (u, p, appt) -> handle rq s = (r, s') ->
  mayWrite u p appt s \/ refused r s s'.
Proof.
  intros H Hm. destruct rq; simpl in Hm; try discriminate;
    injection Hm as <- <- <-; simpl;
    eauto using gate_POST_appointment, gate_PUT_appointment, gate_DELETE_appointment,
      gate_POST_prescription, gate_PUT_prescription, gate_DELETE_prescription,
      gate_POST_disease, gate_PUT_disease, gate_DELETE_disease,
      gate_POST_comment, gate_PUT_comment, gate_DELETE_comment,
      gate_POST_diagnostic, gate_PUT_diagnostic, gate_DELETE_diagnostic.
Qed.

(** ** One record per patient *)

Lemma grows_unique c s s' :
  grows c s s' -> NoDup (patientsOf s) -> NoDup (patientsOf s').
Proof.
  intros [->|(q & _ & N & ->)] H; [exact H|]. now apply NoDup_snoc.
Qed.

Lemma reachable_unique s : reachable s -> NoDup (patientsOf s).
Proof.
  induction 1 as [|s rq Hs IH]; [constructor|].
  eapply grows_unique; [|exact IH].
  apply grows_handle. now apply reachable_Inv.
Qed.

(** ** Which answer a refusal is *)

Section Lookup.

Context {A : Type} (id : A -> ObjectId) (arr : MedicalRecord -> list A).

Lemma subdoc_None (i : ObjectId) (l : list A) :
  subdoc id i l = None -> ~ In i (map id l).
Proof.
  unfold subdoc. intros E Hin. apply in_map_iff in Hin as (x & Hx & Hin).
  apply (find_none _ _ E) in Hin. apply Nat.eqb_neq in Hin. contradiction.
Qed.

Lemma lacks_no_record p i s :
  MedicalRecord_findOne p s = None ->
  forall m, In m (medicalRecords s) -> mr_patient m = p -> ~ In i (map id (arr m)).
Proof.
  intros E m Hin Hp _.
  assert (hasRecord p s) as Hr by (exists m; auto).
  apply MedicalRecord_findOne_hasRecord in Hr as [m' Hm']. congruence.
Qed.

Lemma lacks_no_entry p i s m0 :
  NoDup (patientsOf s) ->
  MedicalRecord_findOne p s = Some m0 -> subdoc id i (arr m0) = None ->
  forall m, In m (medicalRecords s) -> mr_patient m = p -> ~ In i (map id (arr m)).
Proof.
  intros N Em Ee m Hin Hp.
  apply MedicalRecord_findOne_Some in Em as [Hin0 Hp0].
  assert (m = m0) as ->
    by (apply (NoDup_map_eq mr_patient (medicalRecords s)); auto; congruence).
  now apply subdoc_None.
Qed.

Lemma holds_entry p i s m0 e :
  MedicalRecord_findOne p s = Some m0 -> subdoc id i (arr m0) = Some e ->
  ~ forall m, In m (medicalRecords s) -> mr_patient m = p -> ~ In i (map id (arr m)).
Proof.
  intros Em Ee N.
  apply MedicalRecord_findOne_Some in Em as [Hin0 Hp0].
  apply subdoc_Some in Ee as [He <-].
  apply (N m0 Hin0 Hp0). now apply in_map.
Qed.

End Lookup.

Lemma saveAndNotify_code isNew m d p t ok s0 s :
  code (fst (saveAndNotify isNew m d p t ok s0 s)) = 500
  \/ code (fst (saveAndNotify isNew m d p t ok s0 s)) = code ok.
Proof.
  unfold saveAndNotify.
  destruct (MedicalRecord_save _ _ _); [|now left].
  destruct (User_findById _ _); [now right | now left].
Qed.

Ltac saved :=
  match goal with
  | |- context [fst (saveAndNotify ?a ?b ?c ?d ?e ?f ?g ?h)] =>
      let C := fresh "C" in
      destruct (saveAndNotify_code a b c d e f g h) as [C|C]; rewrite C
  end.

Ltac not_admitted Ha :=
  let Ha' := fresh in
  destruct Ha as [Ha|[Ha' Ha]]; first [congruence | discriminate].

(** The answer 404, for an update or a delete of the entries [arr] with
    [_id]s [id]. *)
Ltac code404 id arr :=
  split;
  [ let C := fresh "C" in
    intros C;
    first
      [ discriminate C
      | split;
        [ solve [auto]
        | first [ eapply (lacks_no_record id arr); eassumption
                | eapply (lacks_no_entry id arr); eassumption ] ] ]
  | let Ha := fresh "Ha" in
    let Hm := fresh "Hm" in
    intros [Ha Hm];
    first
      [ reflexivity
      | exfalso; eapply (holds_entry id arr); eassumption
      | exfalso; not_admitted Ha ] ].

Ltac never400 :=
  split; [let C := fresh "C" in intros C; discriminate C | exact (False_ind _)].

Ltac update_codes id arr :=
  cbv beta delta [namesMissing namesNoDoctor admitted] iota;
  cbn [handle target entryIds];
  match goal with
  | |- context [code (fst (?h _ _ _ _ _))] => unfold h
  | |- context [code (fst (?h _ _ _ _))] => unfold h
  end;
  match goal with
  | |- context [role ?user === "Doctor"] => roles user
  end;
  try congruence;
  repeat branch; try saved; cbn [fst code res serverError];
  (split; [code404 id arr | never400]).

Ltac append_codes :=
  cbv beta delta [namesMissing namesNoDoctor admitted] iota;
  cbn [handle target];
  match goal with
  | |- context [code (fst (?h _ _ _ _))] => unfold h
  end;
  match goal with
  | |- context [role ?user === "Doctor"] => roles user
  end;
  try congruence;
  repeat branch; try saved; cbn [fst code res serverError];
  (split;
   [ split; [let C := fresh "C" in intros C; discriminate C
            | let F := fresh in intros [_ F]; exact (False_ind _ F)]
   | first
       [ never400
       | split;
         [ let C := fresh "C" in
           intros C; first [discriminate C | split; first [assumption | reflexivity]]
         | let H1 := fresh in
           let H2 := fresh in
           intros [H1 H2]; first [reflexivity | congruence] ] ] ]).

Lemma codes_handle rq s u p appt :
  NoDup (patientsOf s) -> mutation rq = Some (u, p, appt) ->
  (code (fst (handle rq s)) = 404 <-> admitted u appt /\ namesMissing rq s)
  /\ (code (fst (handle rq s)) = 400 <-> namesNoDoctor rq).
Proof.
  intros N Hm. destruct rq; simpl in Hm; try discriminate; injection Hm as <- <- <-.
  - append_codes.
  - update_codes ap_id appointments.
  - update_codes ap_id appointments.
  - append_codes.
  - update_codes pr_id prescriptions.
  - update_codes pr_id prescriptions.
  - append_codes.
  - update_codes di_id diseases.
  - update_codes di_id diseases.
  - append_codes.
  - update_codes co_id comments.
  - update_codes co_id comments.
  - append_codes.
  - update_codes dg_id diagnostics.
  - update_codes dg_id diagnostics.
Qed.

(** ** Writes to sub-entries outside the sub-entry routes *)

Lemma entries_same s s' : medicalRecords s' = medicalRecords s -> keepsEntries s s'.
Proof. intros E. unfold keepsEntries. rewrite E. auto. Qed.

Lemma entries_new s0 s s' i p :
  medicalRecords s = medicalRecords s0 ->
  MedicalRecord_save true (new_MedicalRecord i p) s = Some s' -> keepsEntries s0 s'.
Proof.
  intros E H. unfold MedicalRecord_save in H. destruct (existsb _ _); [discriminate|].
  injection H as <-. unfold keepsEntries. simpl. rewrite E. split.
  - intros m Hm. apply in_app_iff. auto.
  - intros m Hm. apply in_app_iff in Hm as [Hm|[<-|[]]]; auto.
Qed.

Lemma others_saveDoc l m m' x :
  NoDup (map mr_id l) -> In m l -> mr_id m' = mr_id m ->
  mr_patient m' = mr_patient m -> mr_patient x <> mr_patient m ->
  (In x (saveDoc mr_id m' l) <-> In x l).
Proof.
  intros N Hin E1 E2 Hx. split.
  - intros H. apply In_saveDoc in H as [->|[H _]]; [congruence | exact H].
  - intros H. apply saveDoc_In_other; auto. intros E.
    assert (x = m) by (apply (NoDup_map_eq mr_id l); auto; congruence).
    subst. contradiction.
Qed.

Ltac untouched := left; apply entries_same; reflexivity.

Lemma written_PUT_appointmentInvitation user i status s :
  Inv s ->
  keepsEntries s (snd (PUT_appointmentInvitation user i status s))
  \/ acceptsInvitation (PutAppointmentInvitation user i status) s
       (snd (PUT_appointmentInvitation user i status s)).
Proof.
  intros H. unfold PUT_appointmentInvitation.
  destruct (String.eqb_spec (role user) "Doctor") as [Hr|]; cbn [negb]; [|untouched].
  destruct (negb (isDecision status)); [untouched|].
  destruct (findOne _ (appointmentInvitations s)) as [inv|] eqn:Ef; [|untouched].
  destruct (Status_eqb (ai_status inv) pending) eqn:Ep; cbn [negb]; [|untouched].
  apply Status_eqb_eq in Ep.
  apply findOne_Some in Ef as [Hinv Hid]. apply andb_true_iff in Hid as [Hid Hdoc].
  apply Nat.eqb_eq in Hid, Hdoc.
  set (inv' := with_ai_status (decision status) inv).
  assert (Inv (AppointmentInvitation_save inv' s)) as H1 by now apply Inv_ai_save.
  set (s1 := AppointmentInvitation_save inv' s) in *.
  destruct (String.eqb_spec status "accepted") as [->|].
  2:{ left. destruct (User_findById _ _); apply entries_same; reflexivity. }
  match goal with
  | |- context [match ?x with Some _ => _ | None => (serverError, s1) end] =>
      destruct x as [s2|] eqn:E2; [|untouched]
  end.
  pose proof (ensure_accepted_records _ _ _ _ E2) as R2.
  apply ensure_accepted in E2 as [H2 Hacc]; [|exact H1].
  assert (medicalRecords s2 = medicalRecords s) as R by (rewrite R2; reflexivity).
  change (ai_patient inv') with (ai_patient inv) in *.
  destruct (MedicalRecord_findOne (ai_patient inv) s2) as [m|] eqn:Em.
  - destruct (new_Appointment _ _ _ _ _) as [e|] eqn:Ee;
      [|left; apply entries_same; exact R].
    destruct (MedicalRecord_save false _ _) as [s4|] eqn:E4;
      [|left; apply entries_same; exact R].
    injection E4 as <-.
    apply MedicalRecord_findOne_Some in Em as [Hin Epat].
    right. exists user, i, inv.
    split; [reflexivity|]. split; [exact Hr|]. split; [exact Hinv|].
    split; [exact Hid|]. split; [exact Hdoc|]. split; [exact Ep|]. split.
    + destruct (User_findById _ _); simpl;
        (eapply hasAccess_ext; [|exact Hacc]); reflexivity.
    + intros x Hx.
      assert (In x (saveDoc mr_id
                      (with_appointments (appointments m ++ [e]) m)
                      (medicalRecords s2)) <-> In x (medicalRecords s)) as Hiff.
      { rewrite <- R. apply others_saveDoc with (m := m); auto.
        - apply (inv_mr_ids _ H2).
        - congruence. }
      destruct (User_findById _ _); exact Hiff.
  - destruct (MedicalRecord_save true _ _) as [s3|] eqn:E3;
      [|left; apply entries_same; exact R].
    assert (Inv s3) as H3 by (eapply Inv_new_record; eauto).
    destruct (new_Appointment _ _ _ _ _) as [e|] eqn:Ee;
      [|left; eapply entries_new; [|exact E3]; exact R].
    destruct (MedicalRecord_save false _ _) as [s4|] eqn:E4;
      [|left; eapply entries_new; [|exact E3]; exact R].
    injection E4 as <-.
    unfold MedicalRecord_save in E3. destruct (existsb _ _); [discriminate|].
    injection E3 as <-.
    right. exists user, i, inv.
    split; [reflexivity|]. split; [exact Hr|]. split; [exact Hinv|].
    split; [exact Hid|]. split; [exact Hdoc|]. split; [exact Ep|]. split.
    + destruct (User_findById _ _); simpl;
        (eapply hasAccess_ext; [|exact Hacc]); reflexivity.
    + intros x Hx.
      set (m := new_MedicalRecord (nextId s2) (ai_patient inv)) in *.
      assert (In x (saveDoc mr_id
                      (with_appointments (appointments m ++ [e]) m)
                      (medicalRecords s2 ++ [m])) <-> In x (medicalRecords s)) as Hiff.
      { rewrite <- R.
        rewrite (others_saveDoc (medicalRecords s2 ++ [m]) m); auto.
        - rewrite in_app_iff. simpl. split; [intros [Hin|[<-|[]]]; auto | auto].
          contradiction Hx. reflexivity.
        - apply (inv_mr_ids _ H3).
        - apply in_app_iff. simpl. auto. }
      destruct (User_findById _ _); exact Hiff.
Qed.

Lemma written_handle rq s :
  Inv s -> mutation rq = None ->
  keepsEntries s (snd (handle rq s)) \/ acceptsInvitation rq s (snd (handle rq s)).
Proof.
  intros H Hm. destruct rq; simpl in Hm; try discriminate; cbn [handle].
  - (* GET /:patientId *)
    left. unfold GET_medicalRecord. repeat branch; simpl;
      first [ apply entries_same; reflexivity
            | eapply entries_new; [|eassumption]; reflexivity ].
  - left. unfold POST_request_send, DoctorRequest_insert.
    repeat branch; simpl; try (apply entries_same; reflexivity).
    all: match goal with E : Some _ = Some _ |- _ => injection E as <- end;
      apply entries_same; reflexivity.
  - (* PUT /request/:requestId *)
    left. unfold PUT_request. repeat branch; simpl;
      first [ apply entries_same; reflexivity
            | eapply entries_new; [|eassumption]; reflexivity ].
  - left. unfold POST_invite, DoctorReceptionAgent_insert.
    repeat branch; simpl; try (apply entries_same; reflexivity).
    all: match goal with E : Some _ = Some _ |- _ => injection E as <- end;
      apply entries_same; reflexivity.
  - left. unfold PUT_invitation. repeat branch; simpl; apply entries_same; reflexivity.
  - left. unfold DELETE_receptionAgent. repeat branch; simpl;
      apply entries_same; reflexivity.
  - left. unfold POST_appointmentInvitation_send. repeat branch; simpl;
      apply entries_same; reflexivity.
  - apply written_PUT_appointmentInvitation, H.
  - left. apply entries_same. reflexivity.
Qed.

(** C1, as stated, fails: a doctor without any access request, updating or
    deleting a prescription of a patient who has no record, is answered 404
    and not 403. *)
Lemma C1_missing_entry_is_not_forbidden :
  reachable registered
  /\ ~ hasAccess 101 103 registered
  /\ PUT_prescription drAmel 103 3 somePrescription registered
     = (res 404 "Medical record not found", registered)
  /\ DELETE_prescription drAmel 103 3 registered
     = (res 404 "Medical record not found", registered)
  /\ code (fst (PUT_prescription drAmel 103 3 somePrescription registered)) <> 403.
Proof.
  split; [exact reachable_registered|].
  split; [intros (r & [] & _)|].
  split; [reflexivity|]. split; [reflexivity|]. discriminate.
Qed.

(** C1, amended.  In every reachable state and for every request:
    - an append, update or delete of a sub-entry that is answered 200 or
      201, or that changes the state at all, comes from an actor who passes
      the resolver for that mode (a doctor with accepted access to the
      patient, or, for appointments, a reception agent with a delegating
      doctor who holds accepted access); an actor who does not pass it
      changes nothing;
    - the answer is 404 exactly when the role is admitted on the route and
      the update or delete names a sub-entry that no record of the patient
      holds, and 400 exactly when a reception agent's new appointment names
      no doctor, whoever asks; an actor who does not pass the resolver is
      answered 403 in every other case;
    - any other request leaves every sub-entry as it is, except a doctor's
      acceptance of a pending appointment invitation addressed to them,
      after which the doctor holds accepted access to the inviting patient
      and the records of the other patients are as before;
    - afterwards, whoever authored a stored sub-entry holds accepted access
      to the record's patient. *)
Theorem C1_mutations_pass_the_gate (s : Store) (rq : Request) :
  reachable s ->
  let r := fst (handle rq s) in
  let s' := snd (handle rq s) in
  (forall u p appt, mutation rq = Some (u, p, appt) ->
     (code r = 200 \/ code r = 201 \/ s' <> s -> mayWrite u p appt s)
     /\ (~ mayWrite u p appt s -> s' = s)
     /\ (code r = 404 <-> admitted u appt /\ namesMissing rq s)
     /\ (code r = 400 <-> namesNoDoctor rq)
     /\ (~ mayWrite u p appt s -> ~ (admitted u appt /\ namesMissing rq s) ->
         ~ namesNoDoctor rq -> code r = 403))
  /\ (mutation rq = None -> keepsEntries s s' \/ acceptsInvitation rq s s')
  /\ (forall m d, In m (medicalRecords s') -> In d (authors m) ->
                  hasAccess d (mr_patient m) s').
Proof.
  intros Hs r s'. pose proof (reachable_Inv _ Hs) as H.
  split; [|split].
  - intros u p appt Hm.
    destruct (codes_handle rq s u p appt (reachable_unique _ Hs) Hm) as [C404 C400].
    fold r in C404, C400.
    assert (mayWrite u p appt s \/ refused r s s') as G.
    { apply (gate_handle rq s u p appt r s' H Hm). subst r s'.
      now destruct (handle rq s). }
    split; [|split; [|split; [exact C404|split; [exact C400|]]]].
    + destruct G as [G|[E Hc]]; [auto|].
      intros [C|[C|C]]; try contradiction; rewrite C in Hc;
        destruct Hc as [Hc|[Hc|Hc]]; discriminate.
    + destruct G as [G|[E _]]; [contradiction | auto].
    + intros N N404 N400. destruct G as [G|[_ [Hc|[Hc|Hc]]]]; [contradiction| | |].
      * apply C400 in Hc. contradiction.
      * exact Hc.
      * apply C404 in Hc. contradiction.
  - intros Hm. apply written_handle; auto.
  - apply (inv_authors _ (Inv_handle rq s H)).
Qed.

Lemma C1_mutations_pass_the_gate_witness :
  reachable clinic
  /\ ~ mayWrite dorra 103 false clinic
  /\ snd (handle (PostPrescription dorra 103 somePrescription) clinic) = clinic
  /\ code (fst (handle (PostPrescription dorra 103 somePrescription) clinic)) = 403.
Proof.
  assert (~ mayWrite dorra 103 false clinic) as N.
  { intros [[Hr _]|[Ha _]]; discriminate. }
  pose proof (proj1 (C1_mutations_pass_the_gate clinic
                       (PostPrescription dorra 103 somePrescription)
                       reachable_clinic)
                dorra 103 false eq_refl) as G.
  split; [exact reachable_clinic|]. split; [exact N|].
  split; [exact (proj1 (proj2 G) N)|].
  apply (proj2 (proj2 (proj2 (proj2 G))) N).
  - intros [_ F]. exact F.
  - intros F. exact F.
Defined.

End BackendFacts.

(* ===================================================================== *)
(** * Further properties of the backend *)
(* ===================================================================== *)

Module MoreFacts.

Import Backend BackendFacts More.
Local Open Scope string_scope.
Local Open Scope list_scope.
Local Open Scope nat_scope.

(** ** Invariants of the reachable states *)

(** Whoever authored a sub-entry of a stored record holds accepted access
    to the record's patient, in every state the API can reach. *)
Theorem authors_hold_access (s : Store) (m : MedicalRecord) (d : ObjectId) :
  reachable s -> In m (medicalRecords s) -> In d (authors m) ->
  hasAccess d (mr_patient m) s.
Proof. intros Hs. apply (inv_authors _ (reachable_Inv _ Hs)). Qed.

Lemma authors_hold_access_witness :
  reachable clinic
  /\ In clinicRecord (medicalRecords clinic)
  /\ In 101 (authors clinicRecord)
  /\ hasAccess 101 103 clinic.
Proof.
  split; [exact reachable_clinic|].
  split; [vm_compute; left; reflexivity|]. split; [left; reflexivity|].
  exact (authors_hold_access clinic clinicRecord 101 reachable_clinic
           (or_introl eq_refl) (or_introl eq_refl)).
Defined.

Lemma grows_NoDup c s s' :
  grows c s s' -> NoDup (patientsOf s) -> NoDup (patientsOf s').
Proof.
  intros [->|(q & _ & N & ->)] H; [exact H|]. now apply NoDup_snoc.
Qed.

(** At most one medical record per patient, in every reachable state. *)
Theorem one_record_per_patient (s : Store) :
  reachable s -> NoDup (patientsOf s).
Proof.
  induction 1 as [|s rq Hs IH]; [constructor|].
  eapply grows_NoDup; [|exact IH].
  apply grows_handle. now apply reachable_Inv.
Qed.

Lemma one_record_per_patient_witness :
  reachable (snd (GET_medicalRecord chokri 103 clinic))
  /\ NoDup (patientsOf (snd (GET_medicalRecord chokri 103 clinic))).
Proof.
  assert (reachable (snd (GET_medicalRecord chokri 103 clinic))) as H
    by exact (reachable_step clinic (GetMedicalRecord chokri 103) reachable_clinic).
  split; [exact H | exact (one_record_per_patient _ H)].
Defined.

(** ** Accepted access is never taken back *)

Lemma keeps_same s s' : doctorRequests s' = doctorRequests s -> keepsAccepted s s'.
Proof. unfold keepsAccepted. now intros ->. Qed.

Lemma keeps_save s d st :
  Inv s -> In d (doctorRequests s) -> dr_status d <> accepted \/ st = accepted ->
  forall r, In r (doctorRequests s) -> dr_status r = accepted ->
            In r (saveDoc dr_id (with_dr_status st d) (doctorRequests s)).
Proof.
  intros H Hd Hst r Hr Hacc.
  destruct (Nat.eq_dec (dr_id r) (dr_id d)) as [E|N].
  - assert (r = d)
      by (apply (NoDup_map_eq dr_id (doctorRequests s)); auto using inv_dr_ids).
    subst r. destruct Hst as [Hst|Hst]; [contradiction|]. subst st.
    rewrite (with_dr_status_same _ Hacc). eapply saveDoc_In; eauto.
  - apply saveDoc_In_other; auto.
Qed.

Ltac untouched_requests :=
  apply keeps_same;
  unfold saveAndNotify, findOrNew, MedicalRecord_save, DoctorReceptionAgent_insert;
  repeat branch; reflexivity.

Lemma keeps_handle rq s : Inv s -> keepsAccepted s (snd (handle rq s)).
Proof.
  intros H. destruct rq; simpl.
  - unfold GET_medicalRecord. untouched_requests.
  - unfold POST_appointment. untouched_requests.
  - unfold PUT_appointment. untouched_requests.
  - unfold DELETE_appointment. untouched_requests.
  - unfold POST_prescription. untouched_requests.
  - unfold PUT_prescription. untouched_requests.
  - unfold DELETE_prescription. untouched_requests.
  - unfold POST_disease. untouched_requests.
  - unfold PUT_disease. untouched_requests.
  - unfold DELETE_disease. untouched_requests.
  - unfold POST_comment. untouched_requests.
  - unfold PUT_comment. untouched_requests.
  - unfold DELETE_comment. untouched_requests.
  - unfold POST_diagnostic. untouched_requests.
  - unfold PUT_diagnostic. untouched_requests.
  - unfold DELETE_diagnostic. untouched_requests.
  - (* POST /request/send *)
    unfold POST_request_send, DoctorRequest_insert.
    repeat branch; simpl.
    all: first
      [ apply keeps_same; reflexivity
      | intros r Hr _; simpl; apply in_app_iff; now left
      | found; intros r Hr Hacc; simpl; apply keeps_save; auto; left;
        match goal with
        | E : Status_eqb _ rejected = true |- _ =>
            apply Status_eqb_eq in E; congruence
        end ].
  - (* PUT /request/:requestId *)
    unfold PUT_request, MedicalRecord_save.
    repeat branch; simpl; try (apply keeps_same; reflexivity).
    all: found; intros r Hr Hacc; simpl; apply keeps_save; auto; left;
      match goal with
      | E : _ && Status_eqb _ pending = true |- _ =>
          apply andb3 in E as (_ & _ & E); apply Status_eqb_eq in E; congruence
      end.
  - unfold POST_invite. untouched_requests.
  - unfold PUT_invitation. untouched_requests.
  - unfold DELETE_receptionAgent. untouched_requests.
  - unfold POST_appointmentInvitation_send. untouched_requests.
  - (* PUT /appointment-invitations/:invitationId *)
    unfold PUT_appointmentInvitation, MedicalRecord_save, DoctorRequest_insert.
    repeat branch; simpl.
    all: repeat match goal with
                | E : Some _ = Some _ |- _ => injection E as <-
                | E : Some _ = None |- _ => discriminate E
                | E : None = Some _ |- _ => discriminate E
                end.
    all: simpl.
    all: first
      [ apply keeps_same; reflexivity
      | intros r Hr _; simpl; apply in_app_iff; now left
      | found; intros r Hr Hacc; simpl; apply keeps_save; auto ].
  - apply keeps_same. reflexivity.
Qed.

(** A doctor's accepted access to a patient survives every request: no
    route rejects, resets or deletes an accepted DoctorRequest. *)
Theorem access_is_never_revoked (s : Store) (rq : Request) (d p : ObjectId) :
  reachable s -> hasAccess d p s -> hasAccess d p (snd (handle rq s)).
Proof.
  intros Hs. apply hasAccess_incl. apply keeps_handle. now apply reachable_Inv.
Qed.

Lemma access_is_never_revoked_witness :
  reachable clinic
  /\ hasAccess 101 103 clinic
  /\ hasAccess 101 103 (snd (handle (PostRequestSend drAmel (Some 103)) clinic)).
Proof.
  assert (hasAccess 101 103 clinic) as Hacc.
  { exists {| dr_id := 0; dr_doctor := 101; dr_patient := 103; dr_status := accepted |}.
    vm_compute. auto. }
  split; [exact reachable_clinic|]. split; [exact Hacc|].
  exact (access_is_never_revoked clinic (PostRequestSend drAmel (Some 103)) 101 103
           reachable_clinic Hacc).
Defined.

(** ** Who may fetch a medical record *)

(** The two-hop query of the reception agent: some doctor who delegated to
    the agent holds accepted access to the patient. *)
Lemma through_a_doctor agent p s :
  (exists r,
      findOne (fun r => existsb (Nat.eqb (dr_doctor r))
                          (map da_doctor
                             (filter (fun i => (da_receptionAgent i =? agent)
                                               && Status_eqb (da_status i) accepted)
                                     (doctorReceptionAgents s)))
                        && (dr_patient r =? p)
                        && Status_eqb (dr_status r) accepted)
              (doctorRequests s) = Some r)
  <-> exists D, delegates D agent s /\ hasAccess D p s.
Proof.
  split.
  - intros [r Hr]. apply findOne_Some in Hr as [Hin Hp].
    apply andb3 in Hp as (H1 & H2 & H3).
    apply Nat.eqb_eq in H2. apply Status_eqb_eq in H3.
    apply existsb_exists in H1 as (D & HD & E). apply Nat.eqb_eq in E.
    apply in_map_iff in HD as (i & Ei & Hi). apply filter_In in Hi as [Hi Hf].
    apply andb_true_iff in Hf as [F1 F2].
    apply Nat.eqb_eq in F1. apply Status_eqb_eq in F2.
    exists D. split.
    + exists i. auto.
    + exists r. repeat split; auto.
  - intros (D & (i & Hi & I1 & I2 & I3) & (r & Hr & R1 & R2 & R3)).
    apply findOne_In with (x := r); [exact Hr|].
    apply andb3. repeat split.
    + apply existsb_exists. exists D. split; [|now apply Nat.eqb_eq].
      apply in_map_iff. exists i. split; [exact I1|].
      apply filter_In. split; [exact Hi|].
      rewrite I2, I3, Nat.eqb_refl. reflexivity.
    + now apply Nat.eqb_eq.
    + now apply Status_eqb_eq.
Qed.

(** GET /:patientId answers 200 exactly to the actors the read resolver
    admits, and then the patient has a record; everybody else (admins
    included) is answered 403 and nothing changes. *)
Theorem fetch_follows_the_read_resolver (user : Actor) (p : ObjectId) (s : Store) :
  (mayRead user p s ->
   code (fst (GET_medicalRecord user p s)) = 200
   /\ hasRecord p (snd (GET_medicalRecord user p s)))
  /\ (~ mayRead user p s ->
      code (fst (GET_medicalRecord user p s)) = 403
      /\ snd (GET_medicalRecord user p s) = s).
Proof.
  assert (Hok : forall s0, code (fst (match MedicalRecord_findOne p s0 with
                                      | Some _ => (res 200 "", s0)
                                      | None =>
                                          match MedicalRecord_save true
                                                  (new_MedicalRecord (nextId s0) p)
                                                  (bump s0) with
                                          | None => (serverError, s0)
                                          | Some s1 => (res 200 "", s1)
                                          end
                                      end)) = 200
                       /\ hasRecord p (snd (match MedicalRecord_findOne p s0 with
                                            | Some _ => (res 200 "", s0)
                                            | None =>
                                                match MedicalRecord_save true
                                                        (new_MedicalRecord (nextId s0) p)
                                                        (bump s0) with
                                                | None => (serverError, s0)
                                                | Some s1 => (res 200 "", s1)
                                                end
                                            end))).
  { intros s0. destruct (MedicalRecord_findOne p s0) as [m|] eqn:Em.
    - split; [reflexivity|]. apply MedicalRecord_findOne_hasRecord. eauto.
    - unfold MedicalRecord_save. simpl. unfold MedicalRecord_findOne in Em.
      rewrite (findOne_existsb _ _ Em). split; [reflexivity|].
      exists (new_MedicalRecord (nextId s0) p). simpl.
      rewrite in_app_iff. simpl. auto. }
  unfold GET_medicalRecord, mayRead.
  destruct (String.eqb_spec (role user) "Patient") as [EP|NP].
  { destruct (Nat.eqb_spec p (userId user)) as [E|N]; simpl.
    - split; [intros _; apply Hok|]. intros C. exfalso. apply C. auto.
    - split; [|auto]. intros [[_ E]|[[E _]|[E _]]]; congruence. }
  destruct (String.eqb_spec (role user) "Doctor") as [ED|ND].
  { destruct (acceptedRequest (userId user) p s) as [r|] eqn:Ea.
    - split; [intros _; apply Hok|]. intros C. exfalso. apply C.
      right. left. split; [auto|]. apply acceptedRequest_hasAccess. eauto.
    - simpl. split; [|auto]. apply acceptedRequest_None in Ea.
      intros [[E _]|[[_ A]|[E _]]]; first [congruence | contradiction]. }
  destruct (String.eqb_spec (role user) "Reception Agent") as [ER|NR].
  { cbv zeta. destruct (findOne _ (doctorRequests s)) as [r|] eqn:Ef.
    - split; [intros _; apply Hok|]. intros C. exfalso. apply C.
      right. right. split; [auto|]. apply through_a_doctor. eauto.
    - simpl. split; [|auto].
      intros [[E _]|[[E _]|[_ A]]]; try congruence.
      apply through_a_doctor in A as [r A]. unfold findOne in *. congruence. }
  simpl. split; [|auto]. intros [[E _]|[[E _]|[E _]]]; congruence.
Qed.

Lemma fetch_follows_the_read_resolver_witness :
  mayRead dorra 103 clinic
  /\ code (fst (GET_medicalRecord dorra 103 clinic)) = 200
  /\ ~ mayRead {| userId := 105; role := "Admin" |} 103 clinic
  /\ code (fst (GET_medicalRecord {| userId := 105; role := "Admin" |} 103 clinic)) = 403.
Proof.
  assert (mayRead dorra 103 clinic) as Hr.
  { right. right. split; [reflexivity|]. exists 101. split.
    - exists {| da_id := 4; da_doctor := 101; da_receptionAgent := 104;
                da_status := accepted |}. vm_compute. auto.
    - exists {| dr_id := 0; dr_doctor := 101; dr_patient := 103;
                dr_status := accepted |}. vm_compute. auto. }
  assert (~ mayRead {| userId := 105; role := "Admin" |} 103 clinic) as Hn.
  { intros [[E _]|[[E _]|[E _]]]; discriminate. }
  split; [exact Hr|].
  split; [exact (proj1 (proj1 (fetch_follows_the_read_resolver dorra 103 clinic) Hr))|].
  split; [exact Hn|].
  exact (proj1 (proj2 (fetch_follows_the_read_resolver _ 103 clinic) Hn)).
Defined.

(** ** Delegations to reception agents *)



(** [findOneAndDelete] removes the first match and nothing else. *)
Lemma findOneAndDelete_split {A : Type} (p : A -> bool) (l : list A) x rest :
  findOneAndDelete p l = Some (x, rest) ->
  exists l1 l2, l = l1 ++ x :: l2 /\ rest = l1 ++ l2 /\ findOne p l = Some x.
Proof.
  revert rest. induction l as [|y l IH]; simpl; intros rest H; [discriminate|].
  unfold findOne. simpl. destruct (p y) eqn:Ey.
  - injection H as -> ->. exists [], rest. auto.
  - destruct (findOneAndDelete p l) as [[z r]|]; [|discriminate].
    injection H as -> <-. destruct (IH _ eq_refl) as (l1 & l2 & -> & -> & E).
    exists (y :: l1), l2. auto.
Qed.

Lemma findOneAndDelete_None {A : Type} (p : A -> bool) (l : list A) :
  findOneAndDelete p l = None <-> findOne p l = None.
Proof.
  unfold findOne. induction l as [|y l IH]; simpl; [tauto|].
  destruct (p y); [split; discriminate|].
  destruct (findOneAndDelete p l) as [[z r]|]; split; intros H;
    try discriminate; try reflexivity.
  - apply IH in H. discriminate.
  - now apply IH.
Qed.

(** DELETE /:receptionAgentId: a doctor who removes an agent is answered
    404, with nothing changed, when no relationship of the pair is stored;
    otherwise the record is gone, the other delegations stay, the agent no
    longer counts as delegated by that doctor, and the agent's next attempt
    to add an appointment in that doctor's name is answered 403. *)
Theorem removing_an_agent_revokes (user : Actor) (agent : ObjectId) (s : Store) :
  reachable s ->
  role user = "Doctor" ->
  let out := DELETE_receptionAgent user agent s in
  match findOne (fun i => (da_doctor i =? userId user)
                          && (da_receptionAgent i =? agent))
                (doctorReceptionAgents s) with
  | None => out = (res 404 "Reception agent relationship not found", s)
  | Some i =>
      fst out = res 200 "Reception agent removed successfully"
      /\ ~ In i (doctorReceptionAgents (snd out))
      /\ (forall j, In j (doctorReceptionAgents s) -> j <> i ->
                    In j (doctorReceptionAgents (snd out)))
      /\ ~ delegates (userId user) agent (snd out)
      /\ (forall patientId body,
             b_doctorId body = Some (userId user) ->
             code (fst (POST_appointment {| userId := agent; role := "Reception Agent" |}
                          patientId body (snd out))) = 403)
  end.
Proof.
  intros Hs Hr out. subst out. apply reachable_Inv in Hs.
  unfold DELETE_receptionAgent. rewrite Hr. simpl negb. cbv iota.
  destruct (findOneAndDelete _ (doctorReceptionAgents s)) as [[x rest]|] eqn:Ed.
  2:{ apply findOneAndDelete_None in Ed. now rewrite Ed. }
  apply findOneAndDelete_split in Ed as (l1 & l2 & El & -> & Ef).
  rewrite Ef. simpl.
  apply findOne_Some in Ef as [_ Hp]. apply andb_true_iff in Hp as [P1 P2].
  apply Nat.eqb_eq in P1, P2.
  pose proof (inv_da_pairs _ Hs) as Hnd. rewrite El in Hnd.
  rewrite map_app in Hnd. simpl in Hnd. apply NoDup_remove in Hnd as [Hnd Hx].
  rewrite <- map_app in Hx, Hnd.
  assert (Hgone : forall j, In j (l1 ++ l2) -> da_pair j <> da_pair x).
  { intros j Hj E. apply Hx. rewrite <- E. now apply in_map. }
  assert (Hdel : ~ delegates (userId user) agent
                   (set_doctorReceptionAgents (l1 ++ l2) s)).
  { intros (j & Hj & J1 & J2 & _). simpl in Hj. apply (Hgone j Hj).
    unfold da_pair. congruence. }
  split; [reflexivity|].
  split; [intros Hi; now apply (Hgone x Hi)|].
  split.
  { intros j Hj N. rewrite El in Hj. rewrite in_app_iff in *. simpl in Hj.
    destruct Hj as [Hj|[Hj|Hj]]; auto. congruence. }
  split; [exact Hdel|].
  intros patientId body Hb. unfold POST_appointment. simpl. rewrite Hb.
  apply acceptedInvitation_None in Hdel. simpl in Hdel. rewrite Hdel. reflexivity.
Qed.

Lemma removing_an_agent_revokes_witness :
  reachable clinic
  /\ role drAmel = "Doctor"
  /\ delegates 101 104 clinic
  /\ ~ delegates 101 104 (snd (DELETE_receptionAgent drAmel 104 clinic))
  /\ code (fst (POST_appointment dorra 103 someAppointment
                  (snd (DELETE_receptionAgent drAmel 104 clinic)))) = 403.
Proof.
  split; [exact reachable_clinic|]. split; [reflexivity|].
  split.
  { exists {| da_id := 4; da_doctor := 101; da_receptionAgent := 104;
              da_status := accepted |}. vm_compute. auto. }
  pose proof (removing_an_agent_revokes drAmel 104 clinic reachable_clinic eq_refl)
    as G.
  cbv zeta in G.
  assert (findOne (fun i => (da_doctor i =? userId drAmel)
                            && (da_receptionAgent i =? 104))
                  (doctorReceptionAgents clinic)
          = Some {| da_id := 4; da_doctor := 101; da_receptionAgent := 104;
                    da_status := accepted |}) as E by (vm_compute; reflexivity).
  rewrite E in G. destruct G as (_ & _ & _ & Hdel & Hpost).
  split; [exact Hdel | exact (Hpost 103 someAppointment eq_refl)].
Defined.

(** ** Appointment invitations *)

(** POST /send: a patient's invitation with a doctor, a reason and a
    non-zero date within the range of a JavaScript Date is appended as a
    new pending invitation whatever invitations are already stored (there is
    no conflict answer), and sending grants nothing: no access request and
    no medical record is touched.  A date outside that range fails the
    schema's cast: the answer is 500 and nothing is stored. *)
Theorem invitations_are_independent
    (user : Actor) (doctorId : ObjectId) (date : Z) (reason : string)
    (s : Store) (doctor : User) :
  role user = "Patient" ->
  date <> 0%Z -> reason <> "" ->
  User_findOne_role doctorId "Doctor" s = Some doctor ->
  let out := POST_appointmentInvitation_send user (Some doctorId) (Some date)
               (Some reason) s in
  (validTime date = true ->
   appointmentInvitations (snd out)
   = appointmentInvitations s
     ++ [{| ai_id := nextId s; ai_patient := userId user; ai_doctor := doctorId;
            ai_appointmentDate := date; ai_reason := reason; ai_status := pending |}]
   /\ doctorRequests (snd out) = doctorRequests s
   /\ medicalRecords (snd out) = medicalRecords s
   /\ (forall u, User_findById (userId user) s = Some u ->
                 fst out = res 201 "Appointment invitation sent successfully"))
  /\ (validTime date = false -> out = (serverError, s)).
Proof.
  intros Hr Hd Hre Hdoc out. subst out.
  unfold POST_appointmentInvitation_send. rewrite Hr, Hdoc. simpl negb. cbv iota.
  unfold truthyDate, truthy, new_AppointmentInvitation, requiredDate, castDate,
    requiredString.
  destruct (Z.eqb_spec date 0); [contradiction|].
  destruct (String.eqb_spec reason ""); [contradiction|]. simpl.
  split; intros Hv; rewrite Hv; [|reflexivity].
  unfold User_findById. simpl.
  destruct (findOne _ (users s)); simpl; repeat split; auto; discriminate.
Qed.

Lemma invitations_are_independent_witness :
  role chokri = "Patient"
  /\ User_findOne_role 101 "Doctor" invited
     = Some {| u_id := 101; u_role := "Doctor"; u_name := "Amel";
               u_familyName := "Haddad" |}
  /\ List.length (appointmentInvitations invited) = 1
  /\ appointmentInvitations
       (snd (POST_appointmentInvitation_send chokri (Some 101) (Some 1767225600000%Z)
               (Some "Annual check-up") invited))
     = appointmentInvitations invited
       ++ [{| ai_id := nextId invited; ai_patient := userId chokri; ai_doctor := 101;
              ai_appointmentDate := 1767225600000%Z; ai_reason := "Annual check-up";
              ai_status := pending |}].
Proof.
  split; [reflexivity|]. split; [reflexivity|]. split; [reflexivity|].
  assert (1767225600000%Z <> 0%Z) as N1 by discriminate.
  assert ("Annual check-up" <> "") as N2 by discriminate.
  exact (proj1 (proj1 (invitations_are_independent chokri 101 1767225600000%Z
                         "Annual check-up" invited _ eq_refl N1 N2 eq_refl)
                  eq_refl)).
Defined.



End MoreFacts.

(* ===================================================================== *)
(** * Further properties of the risk engine *)
(* ===================================================================== *)

Module RiskMoreFacts.

Import Risk RiskFacts RiskMore.
Local Open Scope string_scope.
Local Open Scope list_scope.
Local Open Scope Z_scope.

Lemma fired_start ph : fired ph (0, []).
Proof. left. auto. Qed.

Lemma fired_hit ph pts msg st :
  0 < pts -> msg <> ph -> fired ph st -> fired ph (hit pts msg st).
Proof.
  intros Hp Hm [[E1 E2]|(H1 & H2 & H3)]; right; unfold hit; simpl.
  - rewrite E1, E2. simpl. repeat split; [lia | discriminate |].
    intros [E|[]]. contradiction.
  - repeat split; [lia | |].
    + destruct (snd st); [contradiction | discriminate].
    + rewrite in_app_iff. simpl. intros [H|[H|[]]]; [contradiction|].
      now apply Hm.
Qed.

Ltac step_fired ph :=
  match goal with
  | |- explained ph (let x := ?v in @?f x) =>
      apply (let_step _ _ v f (explained ph));
      let st := fresh "st" in
      let E := fresh "E" in
      intros st E;
      first
        [ assert (fired ph st)
            by (rewrite E;
                repeat match goal with
                       | |- context [if ?c then _ else _] => destruct c
                       end;
                first [ assumption
                      | apply fired_start
                      | apply fired_hit; [lia | discriminate | assumption] ]);
          clear E
        | subst st ]
  end.

Lemma explained_end ph (st : Acc) :
  fired ph st ->
  explained ph
    {| risk := if Z.min (fst st) 100 >=? 70 then "Very High"
               else if Z.min (fst st) 100 >=? 50 then "High"
               else if Z.min (fst st) 100 >=? 30 then "Moderate" else "Low";
       score := Z.min (fst st) 100;
       factors := if (List.length (snd st) =? 0)%nat then snd st ++ [ph] else snd st |}.
Proof.
  unfold explained. cbn [score factors].
  intros [[E1 E2]|(H1 & H2 & H3)].
  - rewrite E1, E2. simpl. split; [discriminate|]. split; auto.
  - destruct (snd st) as [|x l] eqn:Es; [contradiction|]. simpl.
    split; [discriminate|]. split; [lia|].
    intros [= -> ->]. exfalso. apply H3. now left.
Qed.

(** The factor list of a prediction is never empty, and it is the
    reassuring placeholder alone exactly when the score is zero: every rule
    that fires adds points and an explanation of its own.  For the diabetes
    calculator this is the case of a patient not yet diagnosed; a diagnosed
    one gets the single "already diagnosed" factor. *)
Theorem every_score_is_explained (a : Assessment) :
  explained "No major risk factors identified. Maintain healthy lifestyle."
            (calculateStrokeRisk a)
  /\ explained "No major risk factors identified. Keep up healthy habits."
               (calculateHeartDiseaseRisk a)
  /\ factors (calculateDiabetesRisk a) <> []
  /\ (hasDiabetes a = false ->
      explained "Low risk. Maintain healthy weight and active lifestyle."
                (calculateDiabetesRisk a)).
Proof.
  split; [|split; [|split]].
  - cbv beta delta [calculateStrokeRisk].
    repeat step_fired "No major risk factors identified. Maintain healthy lifestyle.".
    now apply explained_end.
  - cbv beta delta [calculateHeartDiseaseRisk].
    repeat step_fired "No major risk factors identified. Keep up healthy habits.".
    now apply explained_end.
  - destruct (hasDiabetes a) eqn:Ed.
    + cbv beta delta [calculateDiabetesRisk]. rewrite Ed. cbv zeta iota.
      cbn [factors]. discriminate.
    + assert (explained "Low risk. Maintain healthy weight and active lifestyle."
                        (calculateDiabetesRisk a)) as [H _]; [|exact H].
      cbv beta delta [calculateDiabetesRisk]. rewrite Ed.
      repeat step_fired "Low risk. Maintain healthy weight and active lifestyle.".
      now apply explained_end.
  - intros Ed. cbv beta delta [calculateDiabetesRisk]. rewrite Ed.
    repeat step_fired "Low risk. Maintain healthy weight and active lifestyle.".
    now apply explained_end.
Qed.

Lemma every_score_is_explained_witness :
  hasDiabetes patient70 = false
  /\ explained "Low risk. Maintain healthy weight and active lifestyle."
               (calculateDiabetesRisk patient70).
Proof.
  split; [reflexivity|].
  exact (proj2 (proj2 (proj2 (every_score_is_explained patient70))) eq_refl).
Defined.

End RiskMoreFacts.
